(** * gif-live: the [ansimage] package, embedded and verified

    The Go package [ansimage] turns the frames of a GIF into grids of
    coloured terminal cells and renders a grid as ANSI true-colour text.
    This file embeds its data model and operations as Rocq functions and
    proves properties of them.

    Conventions of the embedding:
    - Go's [int] is [Z]; every [int] of the package is a slice length, an
      index, or a small multiple of one, so no operation wraps around.
      [uint8] is a [Z] in [0, 256), with the conversion written out.
    - Go strings are byte sequences: [string], non-ASCII glyphs spelled as
      their UTF-8 bytes.
    - A slice is a [list]; an index expression that Go would abort on is a
      [Panic].
    - A Go result [(T, error)] is a pair of options, [None] for [nil]. *)

From Stdlib Require Import ZArith String Ascii List Lia Bool DecimalString.
From Stdlib Require Import Permutation.
From Stdlib Require Import Floats.SpecFloat.
From stdpp Require Import base tactics option list.

Local Open Scope Z_scope.

(** ** Errors, panics and outcomes *)

(** The package's error values (the [var] block of the source), and the
    errors that come out of the GIF decoder. *)
Inductive error : Type :=
| ErrImageDownloadFailed
| ErrHeightNonMoT
| ErrInvalidBoundsMoT
| ErrOutOfBounds
| errUnknownScaleMode
| errUnknownDitheringMode
| ErrDecode (msg : string).

(** What a run-time panic carries: an error passed to [panic], or one of
    the run-time errors of the Go language. *)
Inductive panic_value : Type :=
| PanicError (e : error)
| IndexOutOfRange
| NilDereference
| MakeSliceLenOutOfRange
| MakeChanSizeOutOfRange.

(** A call returns, panics, or is still running when the fuel of a loop
    that has no bound of its own is used up. *)
Inductive outcome (A : Type) : Type :=
| Return (a : A)
| Panic (p : panic_value)
| OutOfFuel.

Arguments Return {A} a.
Arguments Panic {A} p.
Arguments OutOfFuel {A}.

#[global] Instance outcome_ret : MRet outcome := fun A a => Return a.
#[global] Instance outcome_bind : MBind outcome := fun A B f m =>
  match m with
  | Return a => f a
  | Panic p => Panic p
  | OutOfFuel => OutOfFuel
  end.

(** [l[i]] on a slice: a run-time panic outside [0, len(l)). *)
Definition index {A : Type} (l : list A) (i : Z) : outcome A :=
  if i <? 0 then Panic IndexOutOfRange
  else match l !! Z.to_nat i with
       | Some a => Return a
       | None => Panic IndexOutOfRange
       end.

(** [l[i] = a] on a slice. *)
Definition store {A : Type} (l : list A) (i : Z) (a : A) : outcome (list A) :=
  if i <? 0 then Panic IndexOutOfRange
  else if (Z.to_nat i <? length l)%nat then Return (<[Z.to_nat i := a]> l)
  else Panic IndexOutOfRange.

(** ** Data model *)

(** [uint8(v)] for an integer [v]. *)
Definition uint8 (v : Z) : Z := v mod 256.

(** [type ScaleMode uint8] and [type DitheringMode uint8], with their
    [iota] constants. *)
Definition ScaleMode := Z.
Definition ScaleModeResize : ScaleMode := 0.
Definition ScaleModeFill : ScaleMode := 1.
Definition ScaleModeFit : ScaleMode := 2.

Definition DitheringMode := Z.
Definition NoDithering : DitheringMode := 0.
Definition DitheringWithBlocks : DitheringMode := 1.
Definition DitheringWithChars : DitheringMode := 2.

Definition BlockSizeY : Z := 8.
Definition BlockSizeX : Z := 4.

(** [ANSIpixel].  The field [source] of the Go struct points back to the
    image that owns the cell: [New] sets it and nothing changes it, so the
    functions that read through it take the owner as an argument. *)
Record ANSIpixel : Type := mkANSIpixel {
  Brightness : Z;
  R : Z;
  G : Z;
  B : Z;
  upper : bool
}.

(** [ANSIframe].  The Go grid holds one pointer per cell; [New] allocates
    each cell once and no statement of the package copies a cell pointer,
    so cells are never aliased and the grid is a grid of values. *)
Abbreviation ANSIframe := (list (list ANSIpixel)).

Record ANSImage : Type := mkANSImage {
  h : Z;
  w : Z;
  maxprocs : Z;
  bgR : Z;
  bgG : Z;
  bgB : Z;
  dithering : DitheringMode;
  frame : list ANSIframe;
  delay : list Z
}.

Definition set_frame (ai : ANSImage) (fr : list ANSIframe) : ANSImage :=
  mkANSImage (h ai) (w ai) (maxprocs ai) (bgR ai) (bgG ai) (bgB ai)
             (dithering ai) fr (delay ai).

Definition set_delay (ai : ANSImage) (d : list Z) : ANSImage :=
  mkANSImage (h ai) (w ai) (maxprocs ai) (bgR ai) (bgG ai) (bgB ai)
             (dithering ai) (frame ai) d.

(** What [color.Color.RGBA()] returns: four 16-bit channels. *)
Record Color : Type := mkColor { cR : Z; cG : Z; cB : Z; cA : Z }.

(** ** Accessors *)

Definition FrameCount (ai : ANSImage) : Z := Z.of_nat (length (frame ai)).

Definition FrameDelay (ai : ANSImage) (f : Z) : outcome Z :=
  index (delay ai) f.

Definition Height (ai : ANSImage) : Z := h ai.
Definition Width (ai : ANSImage) : Z := w ai.

Definition SetMaxProcs (ai : ANSImage) (max : Z) : ANSImage :=
  mkANSImage (h ai) (w ai) max (bgR ai) (bgG ai) (bgB ai)
             (dithering ai) (frame ai) (delay ai).

Definition GetMaxProcs (ai : ANSImage) : Z := maxprocs ai.

(** The guard shared by [SetAt] and [GetAt]:
    [y >= 0 && y < ai.h && x >= 0 && x < ai.w]. *)
Definition in_grid (ai : ANSImage) (y x : Z) : bool :=
  (0 <=? y) && (y <? h ai) && (0 <=? x) && (x <? w ai).

(** The role flag both [New] and [SetAt] compute:
    [(dm == NoDithering) && (y%2 == 0)]. *)
Definition role (dm : DitheringMode) (y : Z) : bool :=
  (dm =? NoDithering) && (Z.rem y 2 =? 0).

(** [ai.frame[f][y][x]]. *)
Definition cell (ai : ANSImage) (f y x : Z) : outcome ANSIpixel :=
  fr ← index (frame ai) f;
  row ← index fr y;
  index row x.

(** [SetAt]: the new image and the returned [error]. *)
Definition SetAt (ai : ANSImage) (f y x : Z) (r g b brightness : Z)
  : outcome (ANSImage * option error) :=
  if in_grid ai y x then
    fr ← index (frame ai) f;
    row ← index fr y;
    _ ← index row x;
    let p := mkANSIpixel brightness r g b (role (dithering ai) y) in
    row' ← store row x p;
    fr' ← store fr y row';
    frs ← store (frame ai) f fr';
    Return (set_frame ai frs, None)
  else Return (ai, Some ErrOutOfBounds).

(** [GetAt]: a copy of the cell, or [nil] and the error. *)
Definition GetAt (ai : ANSImage) (f y x : Z)
  : outcome (option ANSIpixel * option error) :=
  if in_grid ai y x then
    p ← cell ai f y x;
    Return (Some (mkANSIpixel (Brightness p) (R p) (G p) (B p) (upper p)), None)
  else Return (None, Some ErrOutOfBounds).

(** ** Construction of an empty image *)

(** The closure [newFrame] of [New]. *)
Definition newFrame (h w : Z) (dm : DitheringMode) : ANSIframe :=
  map (fun y : nat => replicate (Z.to_nat w)
                        (mkANSIpixel 0 0 0 0 (role dm (Z.of_nat y))))
      (seq 0 (Z.to_nat h)).

Definition New (h w frameCount : Z) (bg : Color) (dm : DitheringMode)
  : outcome (option ANSImage * option error) :=
  if (dm =? NoDithering) && negb (Z.rem h 2 =? 0) then
    Return (None, Some ErrHeightNonMoT)
  else if (h <? 2) || (w <? 2) then
    Return (None, Some ErrInvalidBoundsMoT)
  else if frameCount <? 0 then Panic MakeSliceLenOutOfRange
  else
    Return (Some (mkANSImage h w 1 (uint8 (cR bg)) (uint8 (cG bg)) (uint8 (cB bg))
                    dm
                    (replicate (Z.to_nat frameCount) (newFrame h w dm))
                    (replicate (Z.to_nat frameCount) 0)),
            None).

(** ** Text building *)

Definition cat (a b : string) : string := String.append a b.
Infix "+++" := cat (at level 60, right associativity).

Definition bytes (l : list Z) : string :=
  fold_right (fun b s => String (ascii_of_N (Z.to_N b)) s) EmptyString l.

(** ["\033"] and ["\n"]. *)
Definition backslash033 : string := bytes [27].
Definition backslashN : string := bytes [10].

(** The block elements, in UTF-8: U+2584, U+2588, U+2593, U+2592, U+2591. *)
Definition lowerHalfBlock : string := bytes [226; 150; 132].
Definition fullBlock : string := bytes [226; 150; 136].
Definition darkShadeBlock : string := bytes [226; 150; 147].
Definition mediumShadeBlock : string := bytes [226; 150; 146].
Definition lightShadeBlock : string := bytes [226; 150; 145].

(** The verb [%d] of [fmt.Sprintf] on a [uint8]. *)
Definition fmt_d (v : Z) : string :=
  NilEmpty.string_of_uint (N.to_uint (Z.to_N v)).

(** [fmt.Sprintf("%s[48;2;%d;%d;%dm", esc, r, g, b)] and its foreground
    twin with [38]. *)
Definition sgr_bg (r g b : Z) : string :=
  backslash033 +++ "[48;2;" +++ fmt_d r +++ ";" +++ fmt_d g +++ ";"
               +++ fmt_d b +++ "m".
Definition sgr_fg (r g b : Z) : string :=
  backslash033 +++ "[38;2;" +++ fmt_d r +++ ";" +++ fmt_d g +++ ";"
               +++ fmt_d b +++ "m".

(** [fmt.Sprintf("%s[0m%s", backslash033, backslashN)]. *)
Definition reset_line : string := backslash033 +++ "[0m" +++ backslashN.

(** ** Rendering one cell *)

(** The [switch] on brightness of the block mode; [block] starts as [" "]. *)
Definition block_glyph (bri : Z) : string :=
  if 204 <? bri then fullBlock
  else if 152 <? bri then darkShadeBlock
  else if 100 <? bri then mediumShadeBlock
  else if 48 <? bri then lightShadeBlock
  else " ".

(** The [switch] on brightness of the character mode. *)
Definition char_glyph (bri : Z) : string :=
  if 230 <? bri then "#"
  else if 207 <? bri then "&"
  else if 184 <? bri then "$"
  else if 161 <? bri then "X"
  else if 138 <? bri then "x"
  else if 115 <? bri then "="
  else if 92 <? bri then "+"
  else if 69 <? bri then ";"
  else if 46 <? bri then ":"
  else if 23 <? bri then "."
  else " ".

(** [(ap *ANSIpixel) RenderExt]; [src] is [ap.source]. *)
Definition ANSIpixel_RenderExt (src : ANSImage) (ap : ANSIpixel)
    (disableBgColor : bool) : outcome string :=
  if dithering src =? NoDithering then
    Return (if upper ap
            then sgr_bg (R ap) (G ap) (B ap)
            else sgr_fg (R ap) (G ap) (B ap) +++ lowerHalfBlock)
  else
    block ← (if dithering src =? DitheringWithBlocks
             then Return (block_glyph (Brightness ap))
             else if dithering src =? DitheringWithChars
             then Return (char_glyph (Brightness ap))
             else Panic (PanicError errUnknownDitheringMode));
    let bgColorStr :=
      if disableBgColor then EmptyString
      else sgr_bg (bgR src) (bgG src) (bgB src) in
    Return (bgColorStr +++ sgr_fg (R ap) (G ap) (B ap) +++ block).

Definition ANSIpixel_Render (src : ANSImage) (ap : ANSIpixel) : outcome string :=
  ANSIpixel_RenderExt src ap false.

(** ** Rendering one frame *)

(** What a row worker sends on the channel. *)
Record renderData : Type := mkRenderData { row : Z; render : string }.

(** [for x := x0; ...; x++] run for [n] iterations over a state. *)
Fixpoint for_loop {S : Type} (n : nat) (x : Z) (body : Z -> S -> outcome S)
    (s : S) : outcome S :=
  match n with
  | O => Return s
  | Datatypes.S k => s' ← body x s; for_loop k (x + 1) body s'
  end.

(** [mapM] and a left fold in [outcome]. *)
Fixpoint each {A B : Type} (f : A -> outcome B) (l : list A) : outcome (list B) :=
  match l with
  | [] => Return []
  | a :: l' => b ← f a; bs ← each f l'; Return (b :: bs)
  end.

Fixpoint fold_outcome {A S : Type} (f : S -> A -> outcome S) (s : S)
    (l : list A) : outcome S :=
  match l with
  | [] => Return s
  | a :: l' => s' ← f s a; fold_outcome f s' l'
  end.

(** The goroutine of the branch without dithering, called as
    [func(r, 2*r)]: the cells of source rows [y] and [y+1], column by
    column, then the reset. *)
Definition pair_worker (ai : ANSImage) (f : Z) (disableBgColor : bool)
    (r y : Z) : outcome renderData :=
  str ← for_loop (Z.to_nat (w ai)) 0
        (fun x str =>
           pu ← cell ai f y x;
           su ← ANSIpixel_RenderExt ai pu disableBgColor;
           pl ← cell ai f (y + 1) x;
           sl ← ANSIpixel_RenderExt ai pl disableBgColor;
           Return ((str +++ su) +++ sl))
        EmptyString;
  Return (mkRenderData r (str +++ reset_line)).

(** The goroutine of the dithering branch, called as [func(r)]. *)
Definition row_worker (ai : ANSImage) (f : Z) (disableBgColor : bool)
    (y : Z) : outcome renderData :=
  str ← for_loop (Z.to_nat (w ai)) 0
        (fun x str =>
           p ← cell ai f y x;
           s ← ANSIpixel_RenderExt ai p disableBgColor;
           Return (str +++ s))
        EmptyString;
  Return (mkRenderData y (str +++ reset_line)).

(** The header shared by the spawning and the collecting loop of a window,
    [for n, r := 0, r0; (n <= ai.maxprocs) && more(r); n, r = n+1, y+n+1]:
    the values [r] takes.  The right-hand sides of the tuple assignment are
    evaluated before either variable changes.  [n] grows by one per
    iteration, so [maxprocs + 1] iterations are all there can be. *)
Fixpoint window_from (fuel : nat) (mp y : Z) (more : Z -> bool) (n r : Z)
    : list Z :=
  match fuel with
  | O => []
  | Datatypes.S k =>
      if (n <=? mp) && more r
      then r :: window_from k mp y more (n + 1) (y + n + 1)
      else []
  end.

Definition window (mp y : Z) (more : Z -> bool) (r0 : Z) : list Z :=
  window_from (Z.to_nat (mp + 1)) mp y more 0 r0.

(** [rows[data.row] = data.render]. *)
Definition collect (rows : list string) (data : renderData)
    : outcome (list string) :=
  store rows (row data) (render data).

(** The order in which the collecting loop receives what the workers of
    one window sent is the scheduler's choice. *)
Definition schedule := list renderData -> list renderData.

Definition fair (sched : schedule) : Prop :=
  forall l, Permutation l (sched l).

(** The loop [for y := 0; y < ai.h; y += ai.maxprocs] of either branch:
    make the channel, start one worker per value of the window, receive as
    many results and store each under its row.  A panic in a goroutine
    ends the program.  The loop has no bound when [maxprocs] is zero. *)
Fixpoint windows (fuel : nat) (sched : schedule) (ai : ANSImage)
    (work : Z -> outcome renderData) (more : Z -> bool) (first : Z -> Z)
    (y : Z) (rows : list string) : outcome (list string) :=
  if y <? h ai then
    match fuel with
    | O => OutOfFuel
    | Datatypes.S k =>
        if maxprocs ai <? 0 then Panic MakeChanSizeOutOfRange
        else
          sent ← each work (window (maxprocs ai) y more (first y));
          rows' ← fold_outcome collect rows (sched sent);
          windows k sched ai work more first (y + maxprocs ai) rows'
    end
  else Return rows.

(** [make([]string, n)]. *)
Definition make_rows (n : Z) : outcome (list string) :=
  if n <? 0 then Panic MakeSliceLenOutOfRange
  else Return (replicate (Z.to_nat n) EmptyString).

(** [strings.Join] of the rows with the empty separator. *)
Definition join (rows : list string) : string :=
  fold_right cat EmptyString rows.

(** [(ai *ANSImage) RenderExt]. *)
Definition ANSImage_RenderExt (fuel : nat) (sched : schedule) (ai : ANSImage)
    (f : Z) (disableBgColor : bool) : outcome string :=
  if dithering ai =? NoDithering then
    rows ← make_rows (Z.quot (h ai) 2);
    rows' ← windows fuel sched ai
              (fun r => pair_worker ai f disableBgColor r (2 * r))
              (fun r => 2 * r + 1 <? h ai)
              (fun y => y + 1)
              0 rows;
    Return (join rows')
  else
    rows ← make_rows (h ai);
    rows' ← windows fuel sched ai
              (fun r => row_worker ai f disableBgColor r)
              (fun r => r + 1 <? h ai)
              (fun y => y)
              0 rows;
    Return (join rows').

Definition ANSImage_Render (fuel : nat) (sched : schedule) (ai : ANSImage)
    : outcome string :=
  ANSImage_RenderExt fuel sched ai 0 false.

(** ** Source images and the GIF decoder's result *)

(** [color.RGBA]: four [uint8] channels. *)
Record RGBA : Type := mkRGBA { pR : Z; pG : Z; pB : Z; pA : Z }.

(** An [image.Image]: its bounds, whether its dynamic type is
    [*image.RGBA], and its pixels ([At], [RGBAAt]). *)
Record Image : Type := mkImage {
  minX : Z; minY : Z; maxX : Z; maxY : Z;
  is_rgba : bool;
  At : Z -> Z -> RGBA
}.

Record gifProxy : Type := mkGifProxy {
  gp_image : list Image;
  gp_delay : list Z
}.

(** [gif.GIF], as far as the package reads it. *)
Record GIF : Type := mkGIF {
  gif_Image : list Image;
  gif_Delay : list Z
}.

(** ** Binary64 arithmetic

    [float64] is IEEE 754 binary64, computed with the Standard Library's
    executable specification; each operation rounds on its own (no fused
    multiply-add). *)
Definition f64 := spec_float.
Definition f64_add : f64 -> f64 -> f64 := SFadd 53 1024.
Definition f64_mul : f64 -> f64 -> f64 := SFmul 53 1024.
Definition f64_div : f64 -> f64 -> f64 := SFdiv 53 1024.
Definition f64_max (a b : f64) : f64 := if SFltb a b then b else a.

(** [float64(z)] for an integer [z], and the constant [0.5]. *)
Definition f64_of_Z (z : Z) : f64 := binary_normalize 53 1024 z 0 false.
Definition f64_half : f64 := binary_normalize 53 1024 1 (-1) false.

(** The integer part of a finite [float64], towards zero. *)
Definition f64_trunc (f : f64) : option Z :=
  match f with
  | S754_zero _ => Some 0
  | S754_finite s m e =>
      let a := if 0 <=? e then Z.pos m * 2 ^ e else Z.pos m / 2 ^ (- e) in
      Some (if s then - a else a)
  | _ => None
  end.

(** [uint8(f)] for a [float64] [f]: the fraction is discarded.  Go leaves
    the result open when the value does not fit; the model wraps a finite
    value and gives 0 for an infinity or a NaN. *)
Definition uint8_of_f64 (f : f64) : Z :=
  match f64_trunc f with
  | Some z => uint8 z
  | None => 0
  end.

(** [colorful.Color]. *)
Record FColor : Type := mkFColor { fR : f64; fG : f64; fB : f64 }.

(** [sum/float64(pixelCount)*255.0 + 0.5], converted to [uint8]. *)
Definition average (sum : f64) (pixelCount : Z) : Z :=
  uint8_of_f64
    (f64_add (f64_mul (f64_div sum (f64_of_Z pixelCount)) (f64_of_Z 255))
             f64_half).

(** An early [return nil, err] out of nested loops: the state of a loop is
    the image built so far or the error to return, and an iteration that
    finds an error leaves it. *)
Definition guarded {A : Type} (s : A + error) (k : A -> outcome (A + error))
    : outcome (A + error) :=
  match s with
  | inl a => k a
  | inr e => Return (inr e)
  end.

Definition checked (r : outcome (ANSImage * option error))
    : outcome (ANSImage + error) :=
  p ← r;
  match p with
  | (ai, None) => Return (inl ai)
  | (_, Some e) => Return (inr e)
  end.

Section Construction.

(** The libraries the constructors call, outside this repository:
    [image/draw], [go-colorful], [imaging] and [image/gif]. *)

(** Lines 561-563: a new RGBA buffer filled with [bg], the frame drawn
    over it. *)
Variable drawOverUniform : Color -> Image -> Image.
(** Lines 568-569: a new RGBA buffer with the frame copied in. *)
Variable drawSrc : Image -> Image.
(** [colorful.MakeColor] and the [v] of [Color.Hsv]. *)
Variable MakeColor : RGBA -> FColor.
Variable Hsv_v : FColor -> f64.
(** [image.NewRGBA(bounds)] for the bounds of an image, and
    [draw.Draw(img, bounds, src, image.ZP, draw.Over)]. *)
Variable NewRGBA : Image -> Image.
Variable drawOver : Image -> Image -> Image.
(** [imaging.Resize], [imaging.Fill] (centre anchor) and [imaging.Fit],
    all with the Lanczos filter; arguments [img x y]. *)
Variable Resize : Image -> Z -> Z -> Image.
Variable Fill : Image -> Z -> Z -> Image.
Variable Fit : Image -> Z -> Z -> Image.
(** [gif.DecodeAll]: a GIF or an error. *)
Variable Reader : Type.
Variable DecodeAll : Reader -> GIF + error.

(** Lines 560-571: the buffer a frame is quantized from. *)
Definition composite (bg : Color) (img : Image) : Image :=
  if 65535 <=? cA bg then drawOverUniform bg img
  else if is_rgba img then img
  else drawSrc img.

(** Lines 596-616: the sums over one 8x4 block and the four averages
    [(r, g, b, brightness)]. *)
Definition block_sums (rgbaOut : Image) (y x : Z) : outcome (f64 * f64 * f64 * f64) :=
  for_loop (Z.to_nat BlockSizeY) 0
    (fun dy sums =>
       let py := BlockSizeY * y + dy in
       for_loop (Z.to_nat BlockSizeX) 0
         (fun dx '(sumR, sumG, sumB, sumBri) =>
            let px := BlockSizeX * x + dx in
            let pixel := At rgbaOut px py in
            let color := MakeColor pixel in
            let v := Hsv_v color in
            Return (f64_add sumR (fR color), f64_add sumG (fG color),
                    f64_add sumB (fB color), f64_add sumBri v))
         sums)
    (S754_zero false, S754_zero false, S754_zero false, S754_zero false).

Definition quantize_block (rgbaOut : Image) (y x : Z) : outcome (Z * Z * Z * Z) :=
  let pixelCount := BlockSizeY * BlockSizeX in
  '(sumR, sumG, sumB, sumBri) ← block_sums rgbaOut y x;
  Return (average sumR pixelCount, average sumG pixelCount,
          average sumB pixelCount, average sumBri pixelCount).

(** Lines 581-623: the cells of one frame, written through [SetAt]. *)
Definition quantize (dm : DitheringMode) (ansimage : ANSImage) (f : Z)
    (rgbaOut : Image) (yMin xMin yMax xMax : Z) : outcome (ANSImage + error) :=
  for_loop (Z.to_nat (yMax - yMin)) yMin
    (fun y s =>
       for_loop (Z.to_nat (xMax - xMin)) xMin
         (fun x s => guarded s (fun ai =>
            if dm =? NoDithering then
              let v := At rgbaOut x y in
              checked (SetAt ai f y x (pR v) (pG v) (pB v) 0)
            else
              '(r, g, b, brightness) ← quantize_block rgbaOut y x;
              checked (SetAt ai f y x r g b brightness)))
         s)
    (inl ansimage).

(** Lines 573-579, run at the top of every iteration of the frame loop:
    the bounds the quantizer then loops to. *)
Definition truncate (dm : DitheringMode) (yMax xMax : Z) : Z * Z :=
  if dm =? NoDithering then (yMax - Z.rem yMax 2, xMax)
  else (Z.quot yMax BlockSizeY, Z.quot xMax BlockSizeX).

(** The body of [for frame, img := range g.image]; [yMax] and [xMax] are
    variables of the function, not of the loop. *)
Definition frame_body (g : gifProxy) (bg : Color) (dm : DitheringMode)
    (yMin xMin : Z) (s : (ANSImage * Z * Z) + error) (fi : Z * Image)
    : outcome ((ANSImage * Z * Z) + error) :=
  match s with
  | inr e => Return (inr e)
  | inl (ansimage, yMax, xMax) =>
      let '(f, img) := fi in
      d ← index (gp_delay g) f;
      dl ← store (delay ansimage) f d;
      let ansimage := set_delay ansimage dl in
      let rgbaOut := composite bg img in
      let '(yMax, xMax) := truncate dm yMax xMax in
      q ← quantize dm ansimage f rgbaOut yMin xMin yMax xMax;
      match q with
      | inl ai => Return (inl (ai, yMax, xMax))
      | inr e => Return (inr e)
      end
  end.

(** The pairs [(frame, img)] of a [range] loop over a slice. *)
Fixpoint enumerate_from {A : Type} (k : Z) (l : list A) : list (Z * A) :=
  match l with
  | [] => []
  | a :: l' => (k, a) :: enumerate_from (k + 1) l'
  end.

Definition enumerate {A : Type} (l : list A) : list (Z * A) :=
  enumerate_from 0 l.

(** [createANSImage]. *)
Definition createANSImage (g : gifProxy) (bg : Color) (dm : DitheringMode)
    : outcome (option ANSImage * option error) :=
  img0 ← index (gp_image g) 0;
  let yMin := minY img0 in
  let xMin := minX img0 in
  let yMax := maxY img0 in
  let xMax := maxX img0 in
  r ← New yMax xMax (Z.of_nat (length (gp_image g))) bg dm;
  match r with
  | (_, Some err) => Return (None, Some err)
  | (None, None) => Panic NilDereference
  | (Some ansimage, None) =>
      s ← fold_outcome (frame_body g bg dm yMin xMin)
            (inl (ansimage, yMax, xMax)) (enumerate (gp_image g));
      match s with
      | inl (ai, _, _) => Return (Some ai, None)
      | inr e => Return (None, Some e)
      end
  end.

(** [NewFromReader].  The loop draws every frame over the one buffer
    [img] and stores that same pointer in every slot of [proxy.image]:
    when the loop ends all slots show the buffer's last state. *)
Definition NewFromReader (reader : Reader) (bg : Color) (dm : DitheringMode)
    : outcome (option ANSImage * option error) :=
  match DecodeAll reader with
  | inr err => Return (None, Some err)
  | inl gifImage =>
      first ← index (gif_Image gifImage) 0;
      '(img, pdelay) ←
        fold_outcome
          (fun '(img, pdelay) '(f, palettedImg) =>
             d ← index (gif_Delay gifImage) f;
             pdelay' ← store pdelay f d;
             Return (drawOver img palettedImg, pdelay'))
          (NewRGBA first, replicate (length (gif_Delay gifImage)) 0)
          (enumerate (gif_Image gifImage));
      createANSImage
        (mkGifProxy (replicate (length (gif_Image gifImage)) img) pdelay)
        bg dm
  end.

(** The [switch sm] of [NewScaledFromReader]. *)
Definition scale (sm : ScaleMode) (img : Image) (x y : Z) : outcome Image :=
  if sm =? ScaleModeResize then Return (Resize img x y)
  else if sm =? ScaleModeFill then Return (Fill img x y)
  else if sm =? ScaleModeFit then Return (Fit img x y)
  else Panic (PanicError errUnknownScaleMode).

(** The body of the frame loop of [NewScaledFromReader]; the state is the
    buffer [img] and the two slices of [proxy].  Each slot of
    [proxy.image] gets a new image, in the order of the frames, so the
    slice is built by appending. *)
Definition scaled_body (gifImage : GIF) (y x : Z) (sm : ScaleMode)
    (s : Image * list Image * list Z) (fi : Z * Image)
    : outcome (Image * list Image * list Z) :=
  let '(img, pimage, pdelay) := s in
  let '(f, palettedImg) := fi in
  d ← index (gif_Delay gifImage) f;
  pdelay' ← store pdelay f d;
  let img' := drawOver img palettedImg in
  scaled ← scale sm img' x y;
  Return (img', pimage ++ [scaled], pdelay').

(** [NewScaledFromReader]. *)
Definition NewScaledFromReader (reader : Reader) (y x : Z) (bg : Color)
    (sm : ScaleMode) (dm : DitheringMode)
    : outcome (option ANSImage * option error) :=
  match DecodeAll reader with
  | inr err => Return (None, Some err)
  | inl gifImage =>
      first ← index (gif_Image gifImage) 0;
      '(_, pimage, pdelay) ←
        fold_outcome (scaled_body gifImage y x sm)
          (NewRGBA first, [], replicate (length (gif_Delay gifImage)) 0)
          (enumerate (gif_Image gifImage));
      createANSImage (mkGifProxy pimage pdelay) bg dm
  end.

End Construction.

(** ** Well-formed and reachable images *)

(** The shape [New] gives an image: [h] rows of [w] cells in every frame
    and one delay per frame. *)
Definition wf_frame (ai : ANSImage) (fr : ANSIframe) : Prop :=
  length fr = Z.to_nat (h ai) /\
  Forall (fun row => length row = Z.to_nat (w ai)) fr.

Definition wf (ai : ANSImage) : Prop :=
  Forall (wf_frame ai) (frame ai) /\ length (delay ai) = length (frame ai).

(** The images a program can hold: the fields are unexported, so an image
    comes from [New] (or is the zero value of the struct) and changes only
    through [SetAt], [SetMaxProcs] and the delay that [createANSImage]
    stores. *)
Inductive reachable : ANSImage -> Prop :=
| reach_New h w frameCount bg dm ai :
    New h w frameCount bg dm = Return (Some ai, None) -> reachable ai
| reach_zero : reachable (mkANSImage 0 0 0 0 0 0 0 [] [])
| reach_SetAt ai f y x r g b brightness ai' e :
    reachable ai ->
    SetAt ai f y x r g b brightness = Return (ai', e) -> reachable ai'
| reach_SetMaxProcs ai max :
    reachable ai -> reachable (SetMaxProcs ai max)
| reach_delay ai f d dl :
    reachable ai -> store (delay ai) f d = Return dl ->
    reachable (set_delay ai dl).

(** The role flag of every stored cell is the one its row asks for. *)
Definition roles_ok (ai : ANSImage) : Prop :=
  forall f y x p, cell ai f y x = Return p -> upper p = role (dithering ai) y.

(** ** The glyph ladders as the specification words them *)

(** A ladder: the glyph of the first tier whose threshold the brightness
    exceeds, else the glyph of the darkest tier. *)
Fixpoint ladder (tiers : list (Z * string)) (darkest : string) (bri : Z)
    : string :=
  match tiers with
  | [] => darkest
  | (t, glyph) :: rest => if t <? bri then glyph else ladder rest darkest bri
  end.

(** "full block >204, dark shade >152, medium shade >100, light shade >48,
    else space", with the block elements U+2588, U+2593, U+2592, U+2591. *)
Definition spec_block_ladder : Z -> string :=
  ladder [(204, bytes [226; 150; 136]); (152, bytes [226; 150; 147]);
          (100, bytes [226; 150; 146]); (48, bytes [226; 150; 145])]
         " "%string.

(** The literal glyphs of the character mode, brightest first. *)
Definition char_tiers : string := "#&$Xx=+;:. ".

(** The tier of a brightness in the character mode: 0 is the brightest;
    the thresholds are those of the source, 23 apart. *)
Definition char_thresholds : list Z :=
  [230; 207; 184; 161; 138; 115; 92; 69; 46; 23].

Definition char_tier (bri : Z) : nat :=
  length (List.filter (fun t => bri <=? t) char_thresholds).

Definition glyph_at (tier : nat) : string :=
  match String.get tier char_tiers with
  | Some c => String c EmptyString
  | None => EmptyString
  end.

(** Decimal digits of a [uint8], written out: no sign, no leading zero. *)
Definition digit (d : Z) : ascii := ascii_of_N (Z.to_N (48 + d)).

Definition decimal (v : Z) : string :=
  if v <? 10 then String (digit v) EmptyString
  else if v <? 100 then
    String (digit (v / 10)) (String (digit (v mod 10)) EmptyString)
  else
    String (digit (v / 100))
      (String (digit (v / 10 mod 10)) (String (digit (v mod 10)) EmptyString)).

(** [ESC[48;2;R;G;Bm], [ESC[38;2;R;G;Bm] and [ESC[0m] newline, byte by
    byte: ESC is 27, '[' 91, ';' 59, 'm' 109. *)
Definition spec_bg (r g b : Z) : string :=
  bytes [27; 91; 52; 56; 59; 50; 59] +++ decimal r +++ bytes [59]
    +++ decimal g +++ bytes [59] +++ decimal b +++ bytes [109].
Definition spec_fg (r g b : Z) : string :=
  bytes [27; 91; 51; 56; 59; 50; 59] +++ decimal r +++ bytes [59]
    +++ decimal g +++ bytes [59] +++ decimal b +++ bytes [109].
Definition spec_reset_newline : string := bytes [27; 91; 48; 109; 10].


(** ** Images used in the examples *)

Definition black : Color := mkColor 0 0 0 65535.

(** The image of a successful [New], else an empty image. *)
Definition built (r : outcome (option ANSImage * option error)) : ANSImage :=
  match r with
  | Return (Some ai, _) => ai
  | _ => mkANSImage 0 0 0 0 0 0 0 [] []
  end.

(** The image after a [SetAt], else the image as it was. *)
Definition written (ai : ANSImage) (r : outcome (ANSImage * option error))
    : ANSImage :=
  match r with
  | Return (ai', _) => ai'
  | _ => ai
  end.

(** Two rows of two cells, one frame, no dithering. *)
Definition img22 : ANSImage := built (New 2 2 1 black NoDithering).

(** One dithered cell of brightness 205 and one of brightness 204. *)
Definition blocks_img : ANSImage :=
  mkANSImage 2 2 1 0 0 0 DitheringWithBlocks [] [].
Definition chars_img : ANSImage :=
  mkANSImage 2 2 1 0 0 0 DitheringWithChars [] [].

(** One frame, one cell written. *)
Definition img22w : ANSImage := written img22 (SetAt img22 0 1 1 10 20 30 40).

(** ** The colour library, for the examples

    [go-colorful] is not part of the repository; the constructors take its
    two functions as parameters.  These instances follow the library:
    [MakeColor] divides the 16-bit channels of [RGBA()] (for a
    [color.RGBA], the byte times 257) by the alpha and then by 65535, and
    the [v] of [Hsv] is the largest channel. *)
Definition colorful_MakeColor (p : RGBA) : FColor :=
  let a := 257 * pA p in
  if a =? 0 then mkFColor (S754_zero false) (S754_zero false) (S754_zero false)
  else
    let channel c := f64_div (f64_of_Z (Z.quot (257 * c * 65535) a))
                             (f64_of_Z 65535) in
    mkFColor (channel (pR p)) (channel (pG p)) (channel (pB p)).

Definition colorful_V (c : FColor) : f64 :=
  f64_max (f64_max (fR c) (fG c)) (fB c).


(** An RGBA image of one colour with bounds (0,0)-(ww,hh). *)
Definition uniform_image (hh ww : Z) (p : RGBA) : Image :=
  mkImage 0 0 ww hh true (fun _ _ => p).


(** ** Stand-ins for the image libraries, for the examples

    Frames are opaque, so drawing one over a buffer shows the frame, and
    scaling keeps the pixel function and sets the bounds asked for. *)
Definition ex_rgba (img : Image) : Image :=
  mkImage (minX img) (minY img) (maxX img) (maxY img) true (At img).
Definition ex_drawOverUniform (bg : Color) (img : Image) : Image := ex_rgba img.
Definition ex_NewRGBA (img : Image) : Image :=
  mkImage (minX img) (minY img) (maxX img) (maxY img) true
          (fun _ _ => mkRGBA 0 0 0 0).
Definition ex_drawOver (img src : Image) : Image :=
  mkImage (minX img) (minY img) (maxX img) (maxY img) true (At src).
Definition ex_scale (img : Image) (x y : Z) : Image :=
  mkImage 0 0 x y true (At img).

(** A reader that holds the GIF it decodes to, if any; a GIF without
    frames is an error of the decoder. *)
Definition ex_DecodeAll (reader : option GIF) : GIF + error :=
  match reader with
  | None => inr (ErrDecode "gif: reading frames: unexpected EOF")
  | Some g =>
      match gif_Image g with
      | [] => inr (ErrDecode "gif: missing image data")
      | _ => inl g
      end
  end.

Definition ex_createANSImage :=
  createANSImage ex_drawOverUniform ex_rgba colorful_MakeColor colorful_V.
Definition ex_NewFromReader :=
  NewFromReader ex_drawOverUniform ex_rgba colorful_MakeColor colorful_V
    ex_NewRGBA ex_drawOver (option GIF) ex_DecodeAll.
Definition ex_NewScaledFromReader :=
  NewScaledFromReader ex_drawOverUniform ex_rgba colorful_MakeColor colorful_V
    ex_NewRGBA ex_drawOver ex_scale ex_scale ex_scale (option GIF) ex_DecodeAll.

(** A GIF of one frame, 4 pixels wide and 4 high. *)
Definition gif1 : GIF :=
  mkGIF [uniform_image 4 4 (mkRGBA 100 150 200 255)] [10].

(** Two equal frames of 8 by 16 pixels: two by two blocks of 8x4. *)
Definition proxy2 : gifProxy :=
  mkGifProxy [uniform_image 16 8 (mkRGBA 100 150 200 255);
              uniform_image 16 8 (mkRGBA 100 150 200 255)] [10; 10].

(** The scaling of a known mode, and the frames [NewScaledFromReader]
    hands to [createANSImage]. *)
Definition known (sm : ScaleMode) : Prop :=
  sm = ScaleModeResize \/ sm = ScaleModeFill \/ sm = ScaleModeFit.

Definition scale_known (Resize Fill Fit : Image -> Z -> Z -> Image)
    (sm : ScaleMode) (img : Image) (x y : Z) : Image :=
  if sm =? ScaleModeResize then Resize img x y
  else if sm =? ScaleModeFill then Fill img x y
  else Fit img x y.

Fixpoint scaled_frames (drawOver : Image -> Image -> Image)
    (Resize Fill Fit : Image -> Z -> Z -> Image) (sm : ScaleMode) (x y : Z)
    (img : Image) (l : list Image) : list Image :=
  match l with
  | [] => []
  | a :: l' =>
      let img' := drawOver img a in
      scale_known Resize Fill Fit sm img' x y
        :: scaled_frames drawOver Resize Fill Fit sm x y img' l'
  end.

(** The bounds [New] turns down, and the errors it returns for them. *)
Definition invalid_bounds (dm : DitheringMode) (hh ww : Z) : Prop :=
  (dm = NoDithering /\ Z.rem hh 2 <> 0) \/ hh < 2 \/ ww < 2.

Definition config_error (e : error) : Prop :=
  e = ErrHeightNonMoT \/ e = ErrInvalidBoundsMoT.

(** What a worker sends for row [r], and the text in it; the row alone
    when the worker does not return. *)
Definition sent_of (work : Z -> outcome renderData) (r : Z) : renderData :=
  match work r with
  | Return d => d
  | _ => mkRenderData r EmptyString
  end.

Definition text_of (work : Z -> outcome renderData) (r : Z) : string :=
  render (sent_of work r).

(** A schedule that hands the results over last first. *)
Definition last_first : schedule := fun l => rev l.

(** Four rows of two cells without dithering, every cell written: the two
    terminal rows differ. *)
Definition img42 : ANSImage :=
  let ai := built (New 4 2 1 black NoDithering) in
  let ai := written ai (SetAt ai 0 0 0 1 1 1 0) in
  let ai := written ai (SetAt ai 0 0 1 2 2 2 0) in
  let ai := written ai (SetAt ai 0 1 0 3 3 3 0) in
  let ai := written ai (SetAt ai 0 1 1 4 4 4 0) in
  let ai := written ai (SetAt ai 0 2 0 5 5 5 0) in
  let ai := written ai (SetAt ai 0 2 1 6 6 6 0) in
  let ai := written ai (SetAt ai 0 3 0 7 7 7 0) in
  written ai (SetAt ai 0 3 1 8 8 8 0).

(** Two rows of two cells in block mode, every cell written. *)
Definition img22b : ANSImage :=
  let ai := built (New 2 2 1 black DitheringWithBlocks) in
  let ai := written ai (SetAt ai 0 0 0 1 1 1 255) in
  let ai := written ai (SetAt ai 0 0 1 2 2 2 255) in
  let ai := written ai (SetAt ai 0 1 0 3 3 3 255) in
  written ai (SetAt ai 0 1 1 4 4 4 255).

(** The rows at the head of the loop over the windows: every slot is as
    it started ([rows0]) or holds its worker's text, and the slots the
    earlier windows asked for hold the text.  [c] is the first row a
    window at 0 asks for and [bound] the first row no window asks for. *)
Definition rows_at (work : Z -> outcome renderData) (c bound : Z)
    (rows0 : list string) (y : Z) (rows : list string) : Prop :=
  length rows = length rows0 /\
  forall i : nat,
    (rows !! i = rows0 !! i \/
     (c <= Z.of_nat i < bound /\ rows !! i = Some (text_of work (Z.of_nat i)))) /\
    (c <= Z.of_nat i < bound -> Z.of_nat i < y + c ->
     rows !! i = Some (text_of work (Z.of_nat i))).

(** The rows when that loop ends. *)
Definition rows_done (work : Z -> outcome renderData) (c bound : Z)
    (rows0 : list string) (rows : list string) : Prop :=
  length rows = length rows0 /\
  forall i : nat,
    (c <= Z.of_nat i < bound -> rows !! i = Some (text_of work (Z.of_nat i))) /\
    (~ (c <= Z.of_nat i < bound) -> rows !! i = rows0 !! i).

(** The workers of the two branches of [RenderExt], by row. *)
Definition pair_work (ai : ANSImage) (f : Z) (disableBgColor : bool)
    : Z -> outcome renderData :=
  fun r => pair_worker ai f disableBgColor r (2 * r).

Definition row_work (ai : ANSImage) (f : Z) (disableBgColor : bool)
    : Z -> outcome renderData :=
  fun r => row_worker ai f disableBgColor r.

Ltac decide_comparisons :=
  repeat match goal with
         | |- context [?a <? ?b] => destruct (Z.ltb_spec a b); try lia
         | |- context [?a <=? ?b] => destruct (Z.leb_spec a b); try lia
         end.

(** The text the row-order claim asks of [RenderExt]: the texts of the
    workers of all terminal rows, row 0 first. *)
Definition all_rows (ai : ANSImage) (f : Z) (disableBgColor : bool) : string :=
  if dithering ai =? NoDithering
  then join (map (text_of (pair_work ai f disableBgColor)) (seqZ 0 (h ai / 2)))
  else join (map (text_of (row_work ai f disableBgColor)) (seqZ 0 (h ai))).

(** ** Further definitions for the properties beyond the claims *)

(** The cell [New] puts at row [y]. *)
Definition zero_cell (dm : DitheringMode) (y : Z) : ANSIpixel :=
  mkANSIpixel 0 0 0 0 (role dm y).

(** Two writes one after the other; [None] when either does not return
    without error. *)
Definition SetAt2 (ai : ANSImage)
    (f1 y1 x1 r1 g1 b1 br1 f2 y2 x2 r2 g2 b2 br2 : Z) : option ANSImage :=
  match SetAt ai f1 y1 x1 r1 g1 b1 br1 with
  | Return (ai1, None) =>
      match SetAt ai1 f2 y2 x2 r2 g2 b2 br2 with
      | Return (ai2, None) => Some ai2
      | _ => None
      end
  | _ => None
  end.

(** The cell at a coordinate, for a formula that is used inside the
    grid only. *)
Definition pixel_at (ai : ANSImage) (f y x : Z) : ANSIpixel :=
  match cell ai f y x with
  | Return p => p
  | _ => mkANSIpixel 0 0 0 0 false
  end.

(** The text of terminal row [r] without dithering: per column the
    background escape of the cell in source row [2r], the foreground
    escape of the cell below it and the half block; then the reset. *)
Definition pair_text (ai : ANSImage) (f r : Z) : string :=
  join (map (fun x =>
               let u := pixel_at ai f (2 * r) x in
               let l := pixel_at ai f (2 * r + 1) x in
               sgr_bg (R u) (G u) (B u)
                 +++ sgr_fg (R l) (G l) (B l) +++ lowerHalfBlock)
            (seqZ 0 (w ai)))
  +++ reset_line.

(** The text of row [y] with dithering: per column the background escape
    of the image (unless suppressed), the foreground escape of the cell
    and the glyph of its brightness; then the reset. *)
Definition dither_text (ai : ANSImage) (f : Z) (disableBgColor : bool)
    (y : Z) : string :=
  join (map (fun x =>
               let p := pixel_at ai f y x in
               (if disableBgColor then EmptyString
                else sgr_bg (bgR ai) (bgG ai) (bgB ai))
                 +++ sgr_fg (R p) (G p) (B p)
                 +++ (if dithering ai =? DitheringWithBlocks
                      then block_glyph (Brightness p)
                      else char_glyph (Brightness p)))
            (seqZ 0 (w ai)))
  +++ reset_line.

(** [wf], decided by computation. *)
Definition wfb (ai : ANSImage) : bool :=
  forallb (fun fr : list (list ANSIpixel) =>
             Nat.eqb (length fr) (Z.to_nat (h ai))
             && forallb (fun row : list ANSIpixel =>
                           Nat.eqb (length row) (Z.to_nat (w ai))) fr)
          (frame ai)
  && Nat.eqb (length (delay ai)) (length (frame ai)).

(** ** The playback loop of [main.go]

    The handler renders frame [frame], sleeps for its delay and moves on:
    [frame++; if frame >= image.FrameCount() { frame = 0 }]. *)
Definition next_frame (ai : ANSImage) (frame : Z) : Z :=
  let frame := frame + 1 in
  if FrameCount ai <=? frame then 0 else frame.

(** The frame shown in the [n]-th round of the loop; [frame := 0] before
    the loop. *)
Fixpoint cursor (ai : ANSImage) (n : nat) : Z :=
  match n with
  | O => 0
  | S k => next_frame ai (cursor ai k)
  end.

(** ** The quantizer without dithering *)

(** The cell it stores for a pixel in row [y]: the pixel's colour,
    brightness 0. *)
Definition copied (p : RGBA) (y : Z) : ANSIpixel :=
  mkANSIpixel 0 (pR p) (pG p) (pB p) (role NoDithering y).

(** [b] is [a] with other cells: same shape and settings. *)
Definition same_shape (a b : ANSImage) : Prop :=
  wf b /\ h b = h a /\ w b = w a /\ dithering b = dithering a /\
  maxprocs b = maxprocs a /\ delay b = delay a /\
  bgR b = bgR a /\ bgG b = bgG a /\ bgB b = bgB a /\
  FrameCount b = FrameCount a.

(** The cells the loops have written when they are at row [y], column
    [x]: the rows before [y] and the columns of row [y] before [x]. *)
Definition filled (yMin xMin xMax y x y2 x2 : Z) : Prop :=
  yMin <= y2 /\ xMin <= x2 < xMax /\ (y2 < y \/ (y2 = y /\ x2 < x)).

(** Image [b] is [a] with the cells of [region] in frame [f] copied from
    [rgbaOut]. *)
Definition copied_into (a : ANSImage) (f : Z) (rgbaOut : Image)
    (region : Z -> Z -> Prop) (b : ANSImage) : Prop :=
  same_shape a b /\
  forall f2 y2 x2,
    (f2 = f /\ region y2 x2 ->
     cell b f2 y2 x2 = Return (copied (At rgbaOut x2 y2) y2)) /\
    (~ (f2 = f /\ region y2 x2) -> cell b f2 y2 x2 = cell a f2 y2 x2).

(** The cell of frame [f] once the frame loop of [createANSImage] has done
    the frames before [k], without dithering: a copy of the pixel inside
    the bounds of the first frame, the cell of [New] elsewhere. *)
Definition expected_cell (rgba_of : Image -> Image) (images : list Image)
    (dflt : Image) (yMin xMin yMax xMax k f y x : Z) : ANSIpixel :=
  if (f <? k) && (yMin <=? y) && (y <? yMax) && (xMin <=? x) && (x <? xMax)
  then copied (At (rgba_of (nth (Z.to_nat f) images dflt)) x y) y
  else zero_cell NoDithering y.

Definition expected_delay (delays : list Z) (k f : Z) : Z :=
  if f <? k then nth (Z.to_nat f) delays 0 else 0.

Definition built_upto (rgba_of : Image -> Image) (images : list Image)
    (dflt : Image) (delays : list Z) (yMin xMin yMax xMax k : Z)
    (ai : ANSImage) : Prop :=
  wf ai /\ h ai = yMax /\ w ai = xMax /\ dithering ai = NoDithering /\
  FrameCount ai = Z.of_nat (length images) /\
  (forall f y x,
     0 <= f < Z.of_nat (length images) -> 0 <= y < yMax -> 0 <= x < xMax ->
     cell ai f y x
     = Return (expected_cell rgba_of images dflt yMin xMin yMax xMax k f y x)) /\
  (forall f, 0 <= f < Z.of_nat (length images) ->
     index (delay ai) f = Return (expected_delay delays k f)).

(** One frame of 2 by 2 pixels of one colour, delay 7. *)
Definition proxy1 : gifProxy :=
  mkGifProxy [uniform_image 2 2 (mkRGBA 1 2 3 255)] [7].

(** * Properties *)

(** ** Slices *)

Lemma index_Return {A : Type} (l : list A) (i : Z) (a : A) :
  index l i = Return a <-> 0 <= i /\ l !! Z.to_nat i = Some a.
Proof.
  unfold index. destruct (Z.ltb_spec i 0).
  - split; [discriminate | lia].
  - destruct (l !! Z.to_nat i) eqn:E; split; intros Hx.
    + injection Hx as ->. auto.
    + destruct Hx as [_ Hx]. congruence.
    + discriminate.
    + destruct Hx as [_ Hx]. discriminate.
Qed.

Lemma index_in_range {A : Type} (l : list A) (i : Z) :
  0 <= i < Z.of_nat (length l) -> exists a, index l i = Return a.
Proof.
  intros Hi. destruct (lookup_lt_is_Some_2 l (Z.to_nat i)) as [a Ha]; [lia|].
  exists a. apply index_Return. split; [lia | exact Ha].
Qed.

Lemma index_out_of_range {A : Type} (l : list A) (i : Z) :
  ~ (0 <= i < Z.of_nat (length l)) -> index l i = Panic IndexOutOfRange.
Proof.
  intros Hi. unfold index. destruct (Z.ltb_spec i 0); [reflexivity|].
  rewrite lookup_ge_None_2; [reflexivity | lia].
Qed.

Lemma store_Return {A : Type} (l : list A) (i : Z) (a : A) (l' : list A) :
  store l i a = Return l' <->
  0 <= i < Z.of_nat (length l) /\ l' = <[Z.to_nat i := a]> l.
Proof.
  unfold store. destruct (Z.ltb_spec i 0).
  - split; [discriminate | lia].
  - destruct (Nat.ltb_spec (Z.to_nat i) (length l)); split; intros Hx.
    + injection Hx as <-. split; [lia | reflexivity].
    + destruct Hx as [_ ->]. reflexivity.
    + discriminate.
    + lia.
Qed.

Lemma store_in_range {A : Type} (l : list A) (i : Z) (a : A) :
  0 <= i < Z.of_nat (length l) -> store l i a = Return (<[Z.to_nat i := a]> l).
Proof. intros Hi. apply store_Return. auto. Qed.

(** ** The guard of [SetAt] and [GetAt] *)

Lemma in_grid_true (ai : ANSImage) (y x : Z) :
  in_grid ai y x = true <-> (0 <= y < h ai /\ 0 <= x < w ai).
Proof. unfold in_grid. rewrite !andb_true_iff. lia. Qed.

Lemma in_grid_false (ai : ANSImage) (y x : Z) :
  in_grid ai y x = false <-> ~ (0 <= y < h ai /\ 0 <= x < w ai).
Proof.
  rewrite <- in_grid_true. destruct (in_grid ai y x); split; auto; try discriminate.
  intros Hx. exfalso. apply Hx. reflexivity.
Qed.

(** ** Shape of the grid *)

Lemma wf_cell (ai : ANSImage) (f y x : Z) :
  wf ai -> 0 <= f < FrameCount ai -> 0 <= y < h ai -> 0 <= x < w ai ->
  exists fr row p,
    frame ai !! Z.to_nat f = Some fr /\ fr !! Z.to_nat y = Some row /\
    row !! Z.to_nat x = Some p /\ wf_frame ai fr.
Proof.
  intros [Hfr _] Hf Hy Hx. unfold FrameCount in Hf.
  destruct (lookup_lt_is_Some_2 (frame ai) (Z.to_nat f)) as [fr Efr]; [lia|].
  pose proof (proj1 (Forall_lookup _ _) Hfr _ _ Efr) as [Hlen Hrows].
  destruct (lookup_lt_is_Some_2 fr (Z.to_nat y)) as [row Erow]; [lia|].
  pose proof (proj1 (Forall_lookup _ _) Hrows _ _ Erow) as Hw.
  simpl in Hw.
  destruct (lookup_lt_is_Some_2 row (Z.to_nat x)) as [p Ep]; [lia|].
  exists fr, row, p. repeat split; auto.
Qed.

Lemma cell_Return (ai : ANSImage) (f y x : Z) (p : ANSIpixel) :
  cell ai f y x = Return p <->
  exists fr row,
    0 <= f /\ 0 <= y /\ 0 <= x /\
    frame ai !! Z.to_nat f = Some fr /\ fr !! Z.to_nat y = Some row /\
    row !! Z.to_nat x = Some p.
Proof.
  unfold cell. split.
  - destruct (index (frame ai) f) as [fr| |] eqn:E1; try discriminate.
    simpl. destruct (index fr y) as [row| |] eqn:E2; try discriminate.
    simpl. intros E3.
    apply index_Return in E1, E2, E3. exists fr, row. tauto.
  - intros (fr & row & Hf & Hy & Hx & E1 & E2 & E3).
    rewrite (proj2 (index_Return _ _ _) (conj Hf E1)). simpl.
    rewrite (proj2 (index_Return _ _ _) (conj Hy E2)). simpl.
    apply index_Return. auto.
Qed.

Lemma index_insert {A : Type} (l : list A) (i j : Z) (a : A) :
  0 <= i < Z.of_nat (length l) ->
  index (<[Z.to_nat i := a]> l) j = if j =? i then Return a else index l j.
Proof.
  intros Hi. unfold index. destruct (Z.eqb_spec j i) as [->|Hne].
  - destruct (Z.ltb_spec i 0); [lia|].
    rewrite list_lookup_insert_eq; [reflexivity | lia].
  - destruct (Z.ltb_spec j 0); [reflexivity|].
    rewrite list_lookup_insert_ne; [reflexivity | lia].
Qed.

(** What a write inside the grid of an existing frame does: it succeeds,
    keeps the shape and every field but [frame], and changes exactly the
    cell written. *)
Lemma SetAt_inside (ai : ANSImage) (f y x r g b brightness : Z) :
  wf ai -> 0 <= f < FrameCount ai -> 0 <= y < h ai -> 0 <= x < w ai ->
  exists ai',
    SetAt ai f y x r g b brightness = Return (ai', None) /\
    wf ai' /\
    h ai' = h ai /\ w ai' = w ai /\ dithering ai' = dithering ai /\
    maxprocs ai' = maxprocs ai /\ delay ai' = delay ai /\
    bgR ai' = bgR ai /\ bgG ai' = bgG ai /\ bgB ai' = bgB ai /\
    FrameCount ai' = FrameCount ai /\
    forall f2 y2 x2,
      cell ai' f2 y2 x2 =
      if (f2 =? f) && (y2 =? y) && (x2 =? x)
      then Return (mkANSIpixel brightness r g b (role (dithering ai) y))
      else cell ai f2 y2 x2.
Proof.
  intros Hwf Hf Hy Hx.
  destruct (wf_cell ai f y x Hwf Hf Hy Hx) as (fr & row & p & Efr & Erow & Ep & Hlen & Hrows).
  pose proof (proj1 (Forall_lookup _ _) Hrows _ _ Erow) as Hw. simpl in Hw.
  assert (Hif : index (frame ai) f = Return fr) by (apply index_Return; split; [lia | auto]).
  assert (Hir : index fr y = Return row) by (apply index_Return; split; [lia | auto]).
  assert (Hip : index row x = Return p) by (apply index_Return; split; [lia | auto]).
  set (q := mkANSIpixel brightness r g b (role (dithering ai) y)).
  exists (set_frame ai (<[Z.to_nat f := <[Z.to_nat y := <[Z.to_nat x := q]> row]> fr]> (frame ai))).
  assert (Hfx : 0 <= x < Z.of_nat (length row)) by lia.
  assert (Hfy : 0 <= y < Z.of_nat (length fr)) by lia.
  unfold FrameCount in *.
  split.
  { unfold SetAt. rewrite (proj2 (in_grid_true ai y x)) by auto.
    rewrite Hif. simpl. rewrite Hir. simpl. rewrite Hip. simpl.
    rewrite (store_in_range row x) by auto. simpl.
    rewrite (store_in_range fr y) by auto. simpl.
    rewrite (store_in_range (frame ai) f) by auto. reflexivity. }
  split.
  { destruct Hwf as [Hfrs Hd]. split; unfold set_frame; cbn [frame delay].
    - apply Forall_insert; [exact Hfrs|]. split; cbn [h w].
      + rewrite length_insert. exact Hlen.
      + apply Forall_insert; [exact Hrows|]. rewrite length_insert. exact Hw.
    - rewrite length_insert. exact Hd. }
  unfold set_frame; cbn [frame delay h w dithering maxprocs bgR bgG bgB].
  rewrite length_insert.
  repeat (split; [reflexivity|]).
  intros f2 y2 x2. unfold cell. cbn [frame].
  rewrite index_insert by auto.
  destruct (Z.eqb_spec f2 f) as [->|Hnf]; simpl; [|reflexivity].
  rewrite index_insert by auto.
  destruct (Z.eqb_spec y2 y) as [->|Hny]; simpl.
  - rewrite index_insert by auto. rewrite Hif. simpl. rewrite Hir. simpl.
    destruct (Z.eqb_spec x2 x); reflexivity.
  - rewrite Hif. reflexivity.
Qed.

Lemma SetAt_outside (ai : ANSImage) (f y x r g b brightness : Z) :
  ~ (0 <= y < h ai /\ 0 <= x < w ai) ->
  SetAt ai f y x r g b brightness = Return (ai, Some ErrOutOfBounds).
Proof.
  intros Hout. unfold SetAt. rewrite (proj2 (in_grid_false ai y x)) by auto.
  reflexivity.
Qed.

Lemma GetAt_outside (ai : ANSImage) (f y x : Z) :
  ~ (0 <= y < h ai /\ 0 <= x < w ai) ->
  GetAt ai f y x = Return (None, Some ErrOutOfBounds).
Proof.
  intros Hout. unfold GetAt. rewrite (proj2 (in_grid_false ai y x)) by auto.
  reflexivity.
Qed.

Lemma GetAt_inside (ai : ANSImage) (f y x : Z) :
  0 <= y < h ai -> 0 <= x < w ai ->
  GetAt ai f y x =
  p ← cell ai f y x;
  Return (Some (mkANSIpixel (Brightness p) (R p) (G p) (B p) (upper p)), None).
Proof.
  intros Hy Hx. unfold GetAt. rewrite (proj2 (in_grid_true ai y x)) by auto.
  reflexivity.
Qed.

(** ** [New] *)

Lemma New_Return (hh ww frameCount : Z) (bg : Color) (dm : DitheringMode)
    (ai : ANSImage) :
  New hh ww frameCount bg dm = Return (Some ai, None) ->
  2 <= hh /\ 2 <= ww /\ 0 <= frameCount /\
  (dm = NoDithering -> Z.rem hh 2 = 0) /\
  ai = mkANSImage hh ww 1 (uint8 (cR bg)) (uint8 (cG bg)) (uint8 (cB bg)) dm
         (replicate (Z.to_nat frameCount) (newFrame hh ww dm))
         (replicate (Z.to_nat frameCount) 0).
Proof.
  unfold New.
  destruct ((dm =? NoDithering) && negb (Z.rem hh 2 =? 0)) eqn:E1; [discriminate|].
  destruct ((hh <? 2) || (ww <? 2)) eqn:E2; [discriminate|].
  destruct (Z.ltb_spec frameCount 0); [discriminate|].
  intros Hx. injection Hx as <-.
  apply orb_false_iff in E2 as [E2 E3].
  apply Z.ltb_ge in E2, E3.
  repeat split; auto.
  intros ->. rewrite Z.eqb_refl in E1. simpl in E1.
  apply negb_false_iff in E1. apply Z.eqb_eq in E1. exact E1.
Qed.

Lemma newFrame_lookup (hh ww : Z) (dm : DitheringMode) (y x : nat)
    (row : list ANSIpixel) (p : ANSIpixel) :
  newFrame hh ww dm !! y = Some row -> row !! x = Some p ->
  p = mkANSIpixel 0 0 0 0 (role dm (Z.of_nat y)).
Proof.
  unfold newFrame. intros Hrow Hp.
  rewrite list_lookup_fmap in Hrow.
  destruct (seq 0 (Z.to_nat hh) !! y) as [k|] eqn:Ek; [|discriminate].
  apply lookup_seq in Ek as [-> _]. simpl in Hrow. injection Hrow as <-.
  apply lookup_replicate in Hp as [-> _]. reflexivity.
Qed.

Lemma newFrame_wf (hh ww : Z) (dm : DitheringMode) :
  length (newFrame hh ww dm) = Z.to_nat hh /\
  Forall (fun row => length row = Z.to_nat ww) (newFrame hh ww dm).
Proof.
  unfold newFrame. split.
  - rewrite length_map, length_seq. reflexivity.
  - apply Forall_forall. intros row Hin. apply list_elem_of_In in Hin.
    apply in_map_iff in Hin as (k & <- & _). apply length_replicate.
Qed.

Lemma New_wf (hh ww frameCount : Z) (bg : Color) (dm : DitheringMode)
    (ai : ANSImage) :
  New hh ww frameCount bg dm = Return (Some ai, None) -> wf ai.
Proof.
  intros HN. apply New_Return in HN as (_ & _ & _ & _ & ->).
  split; simpl.
  - apply Forall_replicate. apply newFrame_wf.
  - rewrite !length_replicate. reflexivity.
Qed.

(** ** Reachable images keep their shape and their role flags *)

Lemma SetAt_Return (ai : ANSImage) (f y x r g b brightness : Z)
    (ai' : ANSImage) (e : option error) :
  wf ai -> SetAt ai f y x r g b brightness = Return (ai', e) ->
  (ai' = ai /\ e = Some ErrOutOfBounds /\ ~ (0 <= y < h ai /\ 0 <= x < w ai)) \/
  (e = None /\ 0 <= f < FrameCount ai /\ 0 <= y < h ai /\ 0 <= x < w ai).
Proof.
  intros Hwf HS.
  destruct (in_grid ai y x) eqn:Eg.
  - right. apply in_grid_true in Eg as [Hy Hx].
    assert (Hf : 0 <= f < FrameCount ai).
    { destruct (Z.le_gt_cases 0 f); destruct (Z.lt_ge_cases f (FrameCount ai));
        try lia; exfalso; unfold SetAt in HS;
        rewrite (proj2 (in_grid_true ai y x)) in HS by auto;
        rewrite index_out_of_range in HS by (unfold FrameCount in *; lia);
        discriminate. }
    destruct (SetAt_inside ai f y x r g b brightness Hwf Hf Hy Hx) as (ai2 & E & _).
    rewrite E in HS. injection HS as <- <-. auto.
  - left. apply in_grid_false in Eg.
    rewrite SetAt_outside in HS by auto. injection HS as <- <-. auto.
Qed.

Lemma reachable_wf (ai : ANSImage) : reachable ai -> wf ai.
Proof.
  induction 1 as [hh ww fc bg dm ai HN | | ai f y x r g b bri ai' e Hr IH HS
                 | ai max Hr IH | ai f d dl Hr IH Hst].
  - eapply New_wf; eauto.
  - split; simpl; [constructor | reflexivity].
  - destruct (SetAt_Return _ _ _ _ _ _ _ _ _ _ IH HS) as [(-> & _) | (-> & Hf & Hy & Hx)].
    + exact IH.
    + destruct (SetAt_inside ai f y x r g b bri IH Hf Hy Hx) as (ai2 & E & Hwf & _).
      rewrite E in HS. injection HS as <-. exact Hwf.
  - exact IH.
  - apply store_Return in Hst as [Hi ->]. destruct IH as [Hfr Hd].
    split; simpl; [exact Hfr | rewrite length_insert; exact Hd].
Qed.

Lemma rem2_even (y : Z) : 0 <= y -> (Z.rem y 2 =? 0) = Z.even y.
Proof.
  intros Hy. rewrite Z.rem_mod_nonneg by lia. rewrite Zmod_even.
  destruct (Z.even y); reflexivity.
Qed.

Lemma New_roles (hh ww frameCount : Z) (bg : Color) (dm : DitheringMode)
    (ai : ANSImage) :
  New hh ww frameCount bg dm = Return (Some ai, None) -> roles_ok ai.
Proof.
  intros HN. apply New_Return in HN as (_ & _ & _ & _ & ->).
  intros f y x p Hc. apply cell_Return in Hc as (fr & row & Hf & Hy & Hx & E1 & E2 & E3).
  simpl in E1. apply lookup_replicate in E1 as [-> _].
  rewrite (newFrame_lookup _ _ _ _ _ _ _ E2 E3). simpl.
  rewrite Z2Nat.id by lia. reflexivity.
Qed.

Lemma SetAt_roles (ai : ANSImage) (f y x r g b brightness : Z)
    (ai' : ANSImage) (e : option error) :
  wf ai -> roles_ok ai ->
  SetAt ai f y x r g b brightness = Return (ai', e) -> roles_ok ai'.
Proof.
  intros Hwf Hok HS.
  destruct (SetAt_Return _ _ _ _ _ _ _ _ _ _ Hwf HS) as [(-> & _) | (-> & Hf & Hy & Hx)].
  - exact Hok.
  - destruct (SetAt_inside ai f y x r g b brightness Hwf Hf Hy Hx)
      as (ai2 & E & _ & _ & _ & Hd & _ & _ & _ & _ & _ & _ & Hcell).
    rewrite E in HS. injection HS as <-.
    intros f2 y2 x2 p Hc. rewrite Hcell in Hc. rewrite Hd.
    destruct ((f2 =? f) && (y2 =? y) && (x2 =? x)) eqn:Eq.
    + injection Hc as <-. simpl.
      apply andb_true_iff in Eq as [Eq _]. apply andb_true_iff in Eq as [_ Eq].
      apply Z.eqb_eq in Eq. subst y2. reflexivity.
    + apply Hok in Hc. exact Hc.
Qed.

Lemma reachable_roles (ai : ANSImage) : reachable ai -> roles_ok ai.
Proof.
  induction 1 as [hh ww fc bg dm ai HN | | ai f y x r g b bri ai' e Hr IH HS
                 | ai max Hr IH | ai f d dl Hr IH Hst].
  - eapply New_roles; eauto.
  - intros f y x p Hc. apply cell_Return in Hc as (fr & row & _ & _ & _ & E1 & _).
    simpl in E1. discriminate.
  - eapply SetAt_roles; eauto using reachable_wf.
  - exact IH.
  - exact IH.
Qed.

(** C10.  In every reachable image, the cell at row [y] of any frame has
    its [upper] flag equal to (dithering mode is [NoDithering] and [y] is
    even).  [reachable] starts at [New] and is closed under [SetAt] with
    any colour and brightness arguments, so the flag is established by
    [New] and kept by every [SetAt]. *)
Theorem role_flag_invariant (ai : ANSImage) (Hreach : reachable ai)
    (f y x : Z) (p : ANSIpixel) (Hcell : cell ai f y x = Return p) :
  upper p = (dithering ai =? NoDithering) && Z.even y.
Proof.
  rewrite (reachable_roles ai Hreach f y x p Hcell). unfold role.
  apply cell_Return in Hcell as (fr & row & _ & Hy & _).
  rewrite rem2_even by exact Hy. reflexivity.
Qed.

Lemma img22w_reachable : reachable img22w.
Proof.
  eapply (reach_SetAt img22 0 1 1 10 20 30 40 img22w None).
  - eapply (reach_New 2 2 1 black NoDithering). reflexivity.
  - reflexivity.
Qed.

Lemma role_flag_invariant_witness :
  reachable img22w /\
  cell img22w 0 1 1 = Return (mkANSIpixel 40 10 20 30 false) /\
  upper (mkANSIpixel 40 10 20 30 false)
  = (dithering img22w =? NoDithering) && Z.even 1.
Proof.
  split; [exact img22w_reachable|]. split; [reflexivity|].
  apply (role_flag_invariant img22w img22w_reachable 0 1 1).
  reflexivity.
Defined.

(** ** Reading and writing cells *)

(** C4.  In a reachable image, a write at a coordinate inside the grid
    (of an existing frame) succeeds and a read of that coordinate and frame
    then returns exactly the colour and brightness written, while a read
    anywhere else returns what it returned before, so a read returns what
    was last written there.  At a coordinate outside the grid both [SetAt]
    and [GetAt] return [ErrOutOfBounds], and [SetAt] leaves the image as it
    was. *)
Theorem read_after_write (ai : ANSImage) (Hreach : reachable ai) (y x : Z) :
  (0 <= y < h ai /\ 0 <= x < w ai ->
   forall f r g b brightness, 0 <= f < FrameCount ai ->
   exists ai' p,
     SetAt ai f y x r g b brightness = Return (ai', None) /\
     GetAt ai' f y x = Return (Some p, None) /\
     R p = r /\ G p = g /\ B p = b /\ Brightness p = brightness /\
     forall f2 y2 x2, (f2, y2, x2) <> (f, y, x) ->
       GetAt ai' f2 y2 x2 = GetAt ai f2 y2 x2) /\
  (~ (0 <= y < h ai /\ 0 <= x < w ai) ->
   forall f r g b brightness,
     SetAt ai f y x r g b brightness = Return (ai, Some ErrOutOfBounds) /\
     GetAt ai f y x = Return (None, Some ErrOutOfBounds)).
Proof.
  pose proof (reachable_wf ai Hreach) as Hwf. split.
  - intros [Hy Hx] f r g b bri Hf.
    destruct (SetAt_inside ai f y x r g b bri Hwf Hf Hy Hx)
      as (ai' & E & _ & Hh & Hw & _ & _ & _ & _ & _ & _ & _ & Hcell).
    exists ai', (mkANSIpixel bri r g b (role (dithering ai) y)).
    split; [exact E|]. split.
    { rewrite GetAt_inside by lia. rewrite Hcell, !Z.eqb_refl. reflexivity. }
    repeat (split; [reflexivity|]).
    intros f2 y2 x2 Hne. unfold GetAt, in_grid. rewrite Hh, Hw, Hcell.
    destruct (Z.eqb_spec f2 f) as [->|]; [|reflexivity].
    destruct (Z.eqb_spec y2 y) as [->|]; [|reflexivity].
    destruct (Z.eqb_spec x2 x) as [->|]; [|reflexivity].
    congruence.
  - intros Hout f r g b bri. split.
    + apply SetAt_outside; exact Hout.
    + apply GetAt_outside; exact Hout.
Qed.

Lemma read_after_write_witness :
  (exists ai' p,
     SetAt img22 0 1 1 10 20 30 40 = Return (ai', None) /\
     GetAt ai' 0 1 1 = Return (Some p, None) /\
     R p = 10 /\ G p = 20 /\ B p = 30 /\ Brightness p = 40 /\
     forall f2 y2 x2, (f2, y2, x2) <> (0, 1, 1) ->
       GetAt ai' f2 y2 x2 = GetAt img22 f2 y2 x2) /\
  SetAt img22 0 2 0 10 20 30 40 = Return (img22, Some ErrOutOfBounds) /\
  GetAt img22 0 0 (-1) = Return (None, Some ErrOutOfBounds).
Proof.
  assert (Hr : reachable img22)
    by (eapply (reach_New 2 2 1 black NoDithering); reflexivity).
  split; [|split].
  - apply (proj1 (read_after_write img22 Hr 1 1)); vm_compute; intuition discriminate.
  - apply (proj2 (read_after_write img22 Hr 2 0)). vm_compute. intuition discriminate.
  - apply (proj2 (read_after_write img22 Hr 0 (-1)) ltac:(vm_compute; intuition discriminate)
             0 0 0 0 0).
Defined.

(** ** The frame index *)

Lemma FrameDelay_total (ai : ANSImage) (f : Z) :
  wf ai -> 0 <= f < FrameCount ai -> exists d, FrameDelay ai f = Return d.
Proof.
  intros [_ Hd] Hf. apply index_in_range. unfold FrameCount in Hf. lia.
Qed.

(** C9, as the code has it.  No operation checks the frame index.  With a
    frame index inside [0, FrameCount()) the three operations return.
    With one outside, [FrameDelay] panics (index out of range); [SetAt] and
    [GetAt] panic the same way when [y] and [x] are inside the grid, and
    return [ErrOutOfBounds] when [y] or [x] is outside it, as they do for
    any frame index. *)
Theorem frame_index_unchecked (ai : ANSImage) (Hreach : reachable ai)
    (f y x r g b brightness : Z) :
  (0 <= f < FrameCount ai ->
   (exists res, SetAt ai f y x r g b brightness = Return res) /\
   (exists res, GetAt ai f y x = Return res) /\
   (exists d, FrameDelay ai f = Return d)) /\
  (~ (0 <= f < FrameCount ai) ->
   FrameDelay ai f = Panic IndexOutOfRange /\
   (0 <= y < h ai /\ 0 <= x < w ai ->
    SetAt ai f y x r g b brightness = Panic IndexOutOfRange /\
    GetAt ai f y x = Panic IndexOutOfRange) /\
   (~ (0 <= y < h ai /\ 0 <= x < w ai) ->
    SetAt ai f y x r g b brightness = Return (ai, Some ErrOutOfBounds) /\
    GetAt ai f y x = Return (None, Some ErrOutOfBounds))).
Proof.
  pose proof (reachable_wf ai Hreach) as Hwf. split.
  - intros Hf. split; [|split].
    + destruct (in_grid ai y x) eqn:Eg.
      * apply in_grid_true in Eg as [Hy Hx].
        destruct (SetAt_inside ai f y x r g b brightness Hwf Hf Hy Hx) as (ai' & E & _).
        eauto.
      * apply in_grid_false in Eg. rewrite SetAt_outside by auto. eauto.
    + destruct (in_grid ai y x) eqn:Eg.
      * apply in_grid_true in Eg as [Hy Hx].
        destruct (wf_cell ai f y x Hwf Hf Hy Hx) as (fr & row & p & E1 & E2 & E3 & _).
        rewrite GetAt_inside by auto.
        rewrite (proj2 (cell_Return ai f y x p)); [simpl; eauto|].
        exists fr, row. repeat split; auto; lia.
      * apply in_grid_false in Eg. rewrite GetAt_outside by auto. eauto.
    + apply FrameDelay_total; auto.
  - intros Hf. split; [|split].
    + apply index_out_of_range. destruct Hwf as [_ ->]. exact Hf.
    + intros [Hy Hx]. split.
      * unfold SetAt. rewrite (proj2 (in_grid_true ai y x)) by auto.
        rewrite index_out_of_range by exact Hf. reflexivity.
      * rewrite GetAt_inside by auto. unfold cell.
        rewrite index_out_of_range by exact Hf. reflexivity.
    + intros Hout. split; [apply SetAt_outside | apply GetAt_outside]; exact Hout.
Qed.

Lemma frame_index_unchecked_witness :
  FrameDelay img22 5 = Panic IndexOutOfRange /\
  SetAt img22 5 1 1 10 20 30 40 = Panic IndexOutOfRange /\
  GetAt img22 5 1 1 = Panic IndexOutOfRange /\
  (exists d, FrameDelay img22 0 = Return d).
Proof.
  assert (Hr : reachable img22)
    by (eapply (reach_New 2 2 1 black NoDithering); reflexivity).
  assert (Hout : ~ (0 <= 5 < FrameCount img22)) by (vm_compute; intuition discriminate).
  assert (Hin : 0 <= 1 < h img22 /\ 0 <= 1 < w img22)
    by (vm_compute; intuition discriminate).
  destruct (proj2 (frame_index_unchecked img22 Hr 5 1 1 10 20 30 40) Hout)
    as (HD & Hpanic & _).
  destruct (Hpanic Hin) as [HS HG].
  split; [exact HD|]. split; [exact HS|]. split; [exact HG|].
  apply (proj1 (frame_index_unchecked img22 Hr 0 1 1 10 20 30 40)).
  vm_compute; intuition discriminate.
Defined.

(** C9 as stated fails: a call with a frame index outside
    [0, FrameCount()) does return [ErrOutOfBounds] when the row is outside
    the grid; the image has one frame and two rows. *)
Lemma frame_index_out_of_bounds_error :
  FrameCount img22 = 1 /\ h img22 = 2 /\
  SetAt img22 5 7 0 10 20 30 40 = Return (img22, Some ErrOutOfBounds) /\
  GetAt img22 5 7 0 = Return (None, Some ErrOutOfBounds).
Proof. repeat split. Qed.

(** ** Glyphs and escapes of one cell *)

Lemma block_glyph_ladder (bri : Z) : block_glyph bri = spec_block_ladder bri.
Proof. reflexivity. Qed.

Lemma count_le_cons (bri t : Z) (ts : list Z) :
  length (List.filter (fun t => bri <=? t) (t :: ts))
  = ((if (bri <=? t)%Z then 1 else 0)
     + length (List.filter (fun t => (bri <=? t)%Z) ts))%nat.
Proof. cbn [List.filter]. destruct (bri <=? t); reflexivity. Qed.

Lemma char_glyph_tier (bri : Z) : char_glyph bri = glyph_at (char_tier bri).
Proof.
  unfold char_glyph, char_tier, char_thresholds.
  rewrite !count_le_cons. cbn [List.filter length].
  assert (Hcases : bri <= 23 \/ 23 < bri <= 46 \/ 46 < bri <= 69 \/
                   69 < bri <= 92 \/ 92 < bri <= 115 \/ 115 < bri <= 138 \/
                   138 < bri <= 161 \/ 161 < bri <= 184 \/ 184 < bri <= 207 \/
                   207 < bri <= 230 \/ 230 < bri) by lia.
  repeat (destruct Hcases as [Hc | Hcases]); decide_comparisons; reflexivity.
Qed.

Lemma char_tier_bound (bri : Z) : (char_tier bri < 11)%nat.
Proof.
  unfold char_tier. eapply Nat.le_lt_trans; [apply List.filter_length_le|].
  simpl. lia.
Qed.

Lemma char_tier_antitone (b1 b2 : Z) :
  b1 <= b2 -> (char_tier b2 <= char_tier b1)%nat.
Proof.
  intros Hle. unfold char_tier.
  induction char_thresholds as [|t ts IH]; simpl; [lia|].
  destruct (Z.leb_spec b2 t); destruct (Z.leb_spec b1 t); simpl; lia.
Qed.

(** C5.  A cell rendered in a dithering mode is the background escape
    (unless suppressed), the foreground escape and one glyph.  In block
    mode the glyph is that of the ladder "full block above 204, dark shade
    above 152, medium shade above 100, light shade above 48, else space",
    which splits at 205/204, 153/152, 101/100 and 49/48.  In character
    mode it is the glyph of the literal string [#&$Xx=+;:. ] at the tier
    of the brightness: there are 11 tiers, each one used by some
    brightness, a brighter cell never gets a later glyph, the brightest
    tier is [#] and the darkest is the space. *)
Theorem glyph_ladders (src : ANSImage) (ap : ANSIpixel) (disableBgColor : bool) :
  (dithering src = DitheringWithBlocks ->
   ANSIpixel_RenderExt src ap disableBgColor
   = Return ((if disableBgColor then EmptyString
              else sgr_bg (bgR src) (bgG src) (bgB src))
             +++ sgr_fg (R ap) (G ap) (B ap)
             +++ spec_block_ladder (Brightness ap))) /\
  (dithering src = DitheringWithChars ->
   ANSIpixel_RenderExt src ap disableBgColor
   = Return ((if disableBgColor then EmptyString
              else sgr_bg (bgR src) (bgG src) (bgB src))
             +++ sgr_fg (R ap) (G ap) (B ap)
             +++ glyph_at (char_tier (Brightness ap)))) /\
  (block_glyph 205 = fullBlock /\ block_glyph 204 = darkShadeBlock /\
   block_glyph 153 = darkShadeBlock /\ block_glyph 152 = mediumShadeBlock /\
   block_glyph 101 = mediumShadeBlock /\ block_glyph 100 = lightShadeBlock /\
   block_glyph 49 = lightShadeBlock /\ block_glyph 48 = " "%string) /\
  (String.length char_tiers = 11%nat /\
   (char_tier (Brightness ap) < 11)%nat /\
   (forall b1 b2, b1 <= b2 -> (char_tier b2 <= char_tier b1)%nat) /\
   (forall t, (t < 11)%nat -> exists bri, 0 <= bri <= 255 /\ char_tier bri = t) /\
   glyph_at (char_tier 255) = "#"%string /\
   glyph_at (char_tier 0) = " "%string).
Proof.
  split; [|split; [|split]].
  - intros Hd. unfold ANSIpixel_RenderExt. rewrite Hd. reflexivity.
  - intros Hd. unfold ANSIpixel_RenderExt. rewrite Hd. simpl.
    rewrite char_glyph_tier. reflexivity.
  - repeat split.
  - split; [reflexivity|]. split; [apply char_tier_bound|].
    split; [apply char_tier_antitone|]. split; [|split; reflexivity].
    intros t Ht.
    exists (253 - 23 * Z.of_nat t).
    split; [lia|].
    do 11 (destruct t as [|t]; [reflexivity|]). lia.
Qed.

Lemma glyph_ladders_witness :
  ANSIpixel_RenderExt blocks_img (mkANSIpixel 205 1 2 3 false) true
  = Return (sgr_fg 1 2 3 +++ fullBlock) /\
  ANSIpixel_RenderExt chars_img (mkANSIpixel 100 1 2 3 false) true
  = Return (sgr_fg 1 2 3 +++ "+"%string).
Proof.
  split.
  - apply (proj1 (glyph_ladders blocks_img (mkANSIpixel 205 1 2 3 false) true)).
    reflexivity.
  - apply (proj1 (proj2 (glyph_ladders chars_img (mkANSIpixel 100 1 2 3 false) true))).
    reflexivity.
Defined.








(** ** The quantizer of the dithering modes *)





(** With the library's own brightness, the largest channel, the same block
    is stored with brightness 200. *)
Lemma quantizer_value_channel :
  quantize_block colorful_MakeColor colorful_V
    (uniform_image 8 4 (mkRGBA 100 150 200 255)) 0 0
  = Return (100, 150, 200, 200).
Proof. vm_compute. reflexivity. Qed.

(** ** Construction from a reader *)

Section ConstructionProperties.

Variable drawOverUniform : Color -> Image -> Image.
Variable drawSrc : Image -> Image.
Variable MakeColor : RGBA -> FColor.
Variable Hsv_v : FColor -> f64.
Variable NewRGBA : Image -> Image.
Variable drawOver : Image -> Image -> Image.
Variable Resize : Image -> Z -> Z -> Image.
Variable Fill : Image -> Z -> Z -> Image.
Variable Fit : Image -> Z -> Z -> Image.
Variable Reader : Type.
Variable DecodeAll : Reader -> GIF + error.

Local Abbreviation create := (createANSImage drawOverUniform drawSrc MakeColor Hsv_v).
Local Abbreviation fromReader :=
  (NewFromReader drawOverUniform drawSrc MakeColor Hsv_v NewRGBA drawOver
     Reader DecodeAll).
Local Abbreviation scaledFromReader :=
  (NewScaledFromReader drawOverUniform drawSrc MakeColor Hsv_v NewRGBA drawOver
     Resize Fill Fit Reader DecodeAll).

(** C8.  [gif.DecodeAll] reports a stream without frames as an error (it
    never returns a GIF with no image).  So for a stream that is malformed
    or has no frames, that is, one that does not decode to a GIF with a
    frame, both constructors return the decoder's error and no image. *)
Theorem decode_error_returned
    (Hdecoder : forall r g, DecodeAll r = inl g -> gif_Image g <> [])
    (reader : Reader)
    (Hbad : forall g, DecodeAll reader = inl g -> gif_Image g = [])
    (y x : Z) (bg : Color) (sm : ScaleMode) (dm : DitheringMode) :
  exists e,
    DecodeAll reader = inr e /\
    fromReader reader bg dm = Return (None, Some e) /\
    scaledFromReader reader y x bg sm dm = Return (None, Some e).
Proof.
  destruct (DecodeAll reader) as [g|e] eqn:E.
  - exfalso. apply (Hdecoder reader g E). apply Hbad. reflexivity.
  - exists e. unfold NewFromReader, NewScaledFromReader. rewrite E. auto.
Qed.

Lemma New_rejects (hh ww frameCount : Z) (bg : Color) (dm : DitheringMode) :
  invalid_bounds dm hh ww ->
  exists e, New hh ww frameCount bg dm = Return (None, Some e) /\ config_error e.
Proof.
  intros Hbad. unfold New, config_error.
  destruct ((dm =? NoDithering) && negb (Z.rem hh 2 =? 0)) eqn:E1; [eauto|].
  destruct ((hh <? 2) || (ww <? 2)) eqn:E2; [eauto|].
  exfalso. apply orb_false_iff in E2 as [E2 E3]. apply Z.ltb_ge in E2, E3.
  destruct Hbad as [[-> Hodd] | Hsmall]; [|lia].
  rewrite Z.eqb_refl in E1. simpl in E1.
  apply negb_false_iff, Z.eqb_eq in E1. contradiction.
Qed.

Lemma create_rejects (g : gifProxy) (bg : Color) (dm : DitheringMode)
    (img0 : Image) (rest : list Image) :
  gp_image g = img0 :: rest ->
  invalid_bounds dm (maxY img0) (maxX img0) ->
  exists e, create g bg dm = Return (None, Some e) /\ config_error e.
Proof.
  intros Himg Hbad. unfold createANSImage. rewrite Himg.
  destruct (New_rejects (maxY img0) (maxX img0)
              (Z.of_nat (length (img0 :: rest))) bg dm Hbad) as (e & HN & He).
  exists e. split; [|exact He].
  change (index (img0 :: rest) 0) with (Return (A := Image) img0).
  cbn [mbind outcome_bind]. rewrite HN. reflexivity.
Qed.

Lemma scale_of_known (sm : ScaleMode) (img : Image) (x y : Z) :
  known sm ->
  scale Resize Fill Fit sm img x y = Return (scale_known Resize Fill Fit sm img x y).
Proof. intros [-> | [-> | ->]]; reflexivity. Qed.

Lemma scale_of_unknown (sm : ScaleMode) (img : Image) (x y : Z) :
  ~ known sm ->
  scale Resize Fill Fit sm img x y = Panic (PanicError errUnknownScaleMode).
Proof.
  intros Hun. unfold scale, known in *.
  destruct (Z.eqb_spec sm ScaleModeResize); [tauto|].
  destruct (Z.eqb_spec sm ScaleModeFill); [tauto|].
  destruct (Z.eqb_spec sm ScaleModeFit); [tauto|]. reflexivity.
Qed.

Lemma scaled_fold (gifImage : GIF) (y x : Z) (sm : ScaleMode) (l : list Image) :
  known sm ->
  forall k img pimage pdelay,
    0 <= k ->
    k + Z.of_nat (length l) <= Z.of_nat (length (gif_Delay gifImage)) ->
    length pdelay = length (gif_Delay gifImage) ->
    exists img' pdelay',
      fold_outcome (scaled_body drawOver Resize Fill Fit gifImage y x sm)
        (img, pimage, pdelay) (enumerate_from k l)
      = Return (img',
                pimage ++ scaled_frames drawOver Resize Fill Fit sm x y img l,
                pdelay').
Proof.
  intros Hsm. induction l as [|a l IH]; intros k img pimage pdelay Hk Hlen Hpd.
  - exists img, pdelay. simpl. rewrite app_nil_r. reflexivity.
  - cbn [enumerate_from fold_outcome scaled_body length] in *.
    destruct (index_in_range (gif_Delay gifImage) k) as [d ->]; [lia|].
    cbn [mbind outcome_bind].
    rewrite store_in_range by lia. cbn [mbind outcome_bind].
    rewrite scale_of_known by exact Hsm. cbn [mbind outcome_bind].
    destruct (IH (k + 1) (drawOver img a)
                (pimage ++ [scale_known Resize Fill Fit sm (drawOver img a) x y])
                (<[Z.to_nat k := d]> pdelay)) as (img' & pdelay' & E).
    + lia.
    + lia.
    + rewrite length_insert. exact Hpd.
    + exists img', pdelay'. rewrite E. rewrite <- app_assoc. reflexivity.
Qed.

(** C3, as the code has it.  [New] returns [ErrHeightNonMoT] or
    [ErrInvalidBoundsMoT] for an odd height without dithering and for a
    height or width below 2; [createANSImage] calls it once, before its
    frame loop, so it returns that error whatever the frames and delays
    are, and so does [NewScaledFromReader] for the bounds of the first
    scaled frame.  An unknown scale mode is not returned as an error:
    [NewScaledFromReader] panics with [errUnknownScaleMode] while it scales
    the first frame. *)
Theorem configuration_errors (bg : Color) (dm : DitheringMode) :
  (forall hh ww frameCount, invalid_bounds dm hh ww ->
     exists e, New hh ww frameCount bg dm = Return (None, Some e) /\
               config_error e) /\
  (forall g img0 rest,
     gp_image g = img0 :: rest ->
     invalid_bounds dm (maxY img0) (maxX img0) ->
     exists e, create g bg dm = Return (None, Some e) /\ config_error e) /\
  (forall reader g first rest y x sm,
     DecodeAll reader = inl g ->
     gif_Image g = first :: rest ->
     (length (gif_Image g) <= length (gif_Delay g))%nat ->
     known sm ->
     invalid_bounds dm
       (maxY (scale_known Resize Fill Fit sm (drawOver (NewRGBA first) first) x y))
       (maxX (scale_known Resize Fill Fit sm (drawOver (NewRGBA first) first) x y)) ->
     exists e, scaledFromReader reader y x bg sm dm = Return (None, Some e) /\
               config_error e) /\
  (forall reader g first rest d ds y x sm,
     DecodeAll reader = inl g ->
     gif_Image g = first :: rest ->
     gif_Delay g = d :: ds ->
     ~ known sm ->
     scaledFromReader reader y x bg sm dm
     = Panic (PanicError errUnknownScaleMode)).
Proof.
  split; [|split; [|split]].
  - intros hh ww fc Hbad. apply New_rejects; exact Hbad.
  - intros g img0 rest Himg Hbad. eapply create_rejects; eauto.
  - intros reader g first rest y x sm HD Himg Hlen Hsm Hbad.
    unfold NewScaledFromReader. rewrite HD, Himg.
    change (index (first :: rest) 0) with (Return (A := Image) first).
    cbn [mbind outcome_bind]. unfold enumerate.
    destruct (scaled_fold g y x sm (first :: rest) Hsm 0 (NewRGBA first) []
                (replicate (length (gif_Delay g)) 0)) as (img' & pdelay' & E).
    + lia.
    + rewrite Himg in Hlen. lia.
    + apply length_replicate.
    + rewrite E. cbn [mbind outcome_bind app scaled_frames].
      eapply create_rejects; [reflexivity | exact Hbad].
  - intros reader g first rest d ds y x sm HD Himg Hdel Hun.
    unfold NewScaledFromReader. rewrite HD, Himg.
    change (index (first :: rest) 0) with (Return (A := Image) first).
    cbn [mbind outcome_bind]. unfold enumerate.
    cbn [enumerate_from fold_outcome scaled_body]. rewrite Hdel.
    change (index (d :: ds) 0) with (Return (A := Z) d).
    cbn [mbind outcome_bind length replicate].
    change (store (0 :: replicate (length ds) 0) 0 d)
      with (Return (A := list Z) (d :: replicate (length ds) 0)).
    cbn [mbind outcome_bind].
    rewrite scale_of_unknown by exact Hun. reflexivity.
Qed.

End ConstructionProperties.

Lemma ex_DecodeAll_frames (r : option GIF) (g : GIF) :
  ex_DecodeAll r = inl g -> gif_Image g <> [].
Proof.
  unfold ex_DecodeAll. destruct r as [g'|]; [|discriminate].
  destruct (gif_Image g') eqn:E; [discriminate|].
  intros Hx. injection Hx as <-. rewrite E. discriminate.
Qed.

Lemma decode_error_returned_witness :
  exists e,
    ex_DecodeAll (Some (mkGIF [] [])) = inr e /\
    ex_NewFromReader (Some (mkGIF [] [])) black NoDithering
    = Return (None, Some e) /\
    ex_NewScaledFromReader (Some (mkGIF [] [])) 48 80 black ScaleModeFit NoDithering
    = Return (None, Some e).
Proof.
  apply (decode_error_returned ex_drawOverUniform ex_rgba colorful_MakeColor
           colorful_V ex_NewRGBA ex_drawOver ex_scale ex_scale ex_scale
           (option GIF) ex_DecodeAll ex_DecodeAll_frames (Some (mkGIF [] []))).
  intros g Hg. discriminate Hg.
Defined.

Lemma configuration_errors_witness :
  (exists e, New 3 2 1 black NoDithering = Return (None, Some e) /\
             config_error e) /\
  (exists e, ex_NewScaledFromReader (Some gif1) 3 4 black ScaleModeFit NoDithering
             = Return (None, Some e) /\ config_error e) /\
  ex_NewScaledFromReader (Some gif1) 48 80 black 7 NoDithering
  = Panic (PanicError errUnknownScaleMode).
Proof.
  pose proof (configuration_errors ex_drawOverUniform ex_rgba colorful_MakeColor
                colorful_V ex_NewRGBA ex_drawOver ex_scale ex_scale ex_scale
                (option GIF) ex_DecodeAll black NoDithering)
    as (HNew & _ & Hscaled & Hmode).
  split; [|split].
  - apply HNew. left. split; [reflexivity | vm_compute; discriminate].
  - apply (Hscaled (Some gif1) gif1 (uniform_image 4 4 (mkRGBA 100 150 200 255)) []).
    + reflexivity.
    + reflexivity.
    + simpl. lia.
    + right. right. reflexivity.
    + left. split; [reflexivity | vm_compute; discriminate].
  - apply (Hmode (Some gif1) gif1 (uniform_image 4 4 (mkRGBA 100 150 200 255)) [] 10 []).
    + reflexivity.
    + reflexivity.
    + reflexivity.
    + unfold known. vm_compute. intuition discriminate.
Defined.

(** C3 as stated fails: with the unknown scale mode 3 and a GIF of one
    frame, [NewScaledFromReader] does not return an error, it panics. *)
Lemma unknown_scale_mode_panics :
  ex_DecodeAll (Some gif1) = inl gif1 /\
  ex_NewScaledFromReader (Some gif1) 48 80 black 3 NoDithering
  = Panic (PanicError errUnknownScaleMode).
Proof. split; reflexivity. Qed.

(** ** Rendering a frame: the workers *)

Lemma for_loop_total {S : Type} (n : nat) (x0 : Z) (body : Z -> S -> outcome S)
    (s : S) :
  (forall x s', x0 <= x < x0 + Z.of_nat n -> exists s'', body x s' = Return s'') ->
  exists s', for_loop n x0 body s = Return s'.
Proof.
  revert x0 s. induction n as [|n IH]; intros x0 s Hbody; [simpl; eauto|].
  cbn [for_loop]. destruct (Hbody x0 s) as [s1 ->]; [lia|]. simpl.
  apply IH. intros x s' Hx. apply Hbody. lia.
Qed.

Lemma wf_cell_total (ai : ANSImage) (f y x : Z) :
  wf ai -> 0 <= f < FrameCount ai -> 0 <= y < h ai -> 0 <= x < w ai ->
  exists p, cell ai f y x = Return p.
Proof.
  intros Hwf Hf Hy Hx.
  destruct (wf_cell ai f y x Hwf Hf Hy Hx) as (fr & row & p & E1 & E2 & E3 & _).
  exists p. apply cell_Return. exists fr, row. repeat split; auto; lia.
Qed.

Lemma pair_worker_total (ai : ANSImage) (f : Z) (disableBgColor : bool) (r y : Z) :
  wf ai -> dithering ai = NoDithering -> 0 <= f < FrameCount ai ->
  0 <= y -> y + 1 < h ai ->
  exists d, pair_worker ai f disableBgColor r y = Return d /\ row d = r.
Proof.
  intros Hwf Hmode Hf Hy Hy1. unfold pair_worker.
  destruct (for_loop_total (Z.to_nat (w ai)) 0
              (fun x str =>
                 pu ← cell ai f y x;
                 su ← ANSIpixel_RenderExt ai pu disableBgColor;
                 pl ← cell ai f (y + 1) x;
                 sl ← ANSIpixel_RenderExt ai pl disableBgColor;
                 Return ((str +++ su) +++ sl)) EmptyString) as [str ->].
  - intros x s' Hx.
    destruct (wf_cell_total ai f y x Hwf Hf) as [pu ->]; [lia | lia |].
    destruct (wf_cell_total ai f (y + 1) x Hwf Hf) as [pl ->]; [lia | lia |].
    unfold ANSIpixel_RenderExt. rewrite Hmode, Z.eqb_refl. simpl. eauto.
  - simpl. eauto.
Qed.

Lemma row_worker_total (ai : ANSImage) (f : Z) (disableBgColor : bool) (y : Z) :
  wf ai ->
  dithering ai = DitheringWithBlocks \/ dithering ai = DitheringWithChars ->
  0 <= f < FrameCount ai -> 0 <= y < h ai ->
  exists d, row_worker ai f disableBgColor y = Return d /\ row d = y.
Proof.
  intros Hwf Hmode Hf Hy. unfold row_worker.
  destruct (for_loop_total (Z.to_nat (w ai)) 0
              (fun x str =>
                 p ← cell ai f y x;
                 s ← ANSIpixel_RenderExt ai p disableBgColor;
                 Return (str +++ s)) EmptyString) as [str ->].
  - intros x s' Hx.
    destruct (wf_cell_total ai f y x Hwf Hf) as [p ->]; [lia | lia |].
    unfold ANSIpixel_RenderExt. destruct Hmode as [-> | ->]; simpl; eauto.
  - simpl. eauto.
Qed.

(** ** Rendering a frame: one window *)

Lemma each_sent (work : Z -> outcome renderData) (l : list Z) :
  (forall r, In r l -> exists d, work r = Return d) ->
  each work l = Return (map (sent_of work) l).
Proof.
  induction l as [|r l IH]; intros Hall; [reflexivity|].
  cbn [each map]. unfold sent_of at 1.
  destruct (Hall r) as [d ->]; [left; reflexivity|]. simpl.
  rewrite IH by (intros; apply Hall; right; assumption). reflexivity.
Qed.

Lemma named_or_not (l : list renderData) (i : Z) :
  (exists d, In d l /\ row d = i) \/ (forall d, In d l -> row d <> i).
Proof.
  induction l as [|d l [(d' & Hin & Hd') | Hno]].
  - right. intros d [].
  - left. exists d'. split; [right; exact Hin | exact Hd'].
  - destruct (Z.eq_dec (row d) i) as [Heq | Hne].
    + left. exists d. split; [left; reflexivity | exact Heq].
    + right. intros d' [<- | Hin]; [exact Hne | apply Hno; exact Hin].
Qed.

(** Storing results of the workers, in any order: a slot some result names
    holds that worker's text, the other slots are untouched. *)
Lemma collect_fold (text : Z -> string) (l : list renderData) :
  forall rows : list string,
    (forall d, In d l ->
       0 <= row d < Z.of_nat (length rows) /\ render d = text (row d)) ->
    exists rows',
      fold_outcome collect rows l = Return rows' /\
      length rows' = length rows /\
      forall i : nat,
        ((exists d, In d l /\ row d = Z.of_nat i) ->
         (i < length rows)%nat /\ rows' !! i = Some (text (Z.of_nat i))) /\
        ((forall d, In d l -> row d <> Z.of_nat i) -> rows' !! i = rows !! i).
Proof.
  induction l as [|d l IH]; intros rows Hall.
  - exists rows. split; [reflexivity|]. split; [reflexivity|].
    intros i. split; [intros (d & [] & _) | reflexivity].
  - destruct (Hall d (or_introl eq_refl)) as [Hrow Htext].
    cbn [fold_outcome]. change (collect rows d) with (store rows (row d) (render d)).
    rewrite store_in_range by exact Hrow.
    cbn [mbind outcome_bind].
    destruct (IH (<[Z.to_nat (row d) := render d]> rows)) as (rows' & E & Hlen & Hslots).
    { intros d' Hd'. rewrite length_insert. apply Hall. right. exact Hd'. }
    rewrite length_insert in Hlen.
    exists rows'. split; [exact E|]. split; [exact Hlen|].
    intros i. destruct (Hslots i) as [Hnamed Hother]. split.
    + intros (d' & Hin & Hi).
      assert (Hlt : (i < length rows)%nat).
      { destruct (Hall d' Hin) as [Hr _]. lia. }
      split; [exact Hlt|].
      destruct (named_or_not l (Z.of_nat i)) as [Hex | Hno].
      * destruct (Hnamed Hex) as [_ ->]. reflexivity.
      * rewrite (Hother Hno).
        destruct Hin as [<- | Hin]; [|exfalso; eapply Hno; eauto].
        rewrite <- Hi, Htext.
        replace i with (Z.to_nat (row d)) at 1 by lia.
        rewrite list_lookup_insert_eq by lia. reflexivity.
    + intros Hno. rewrite Hother by (intros d' Hd'; apply Hno; right; exact Hd').
      apply list_lookup_insert_ne.
      specialize (Hno d (or_introl eq_refl)). lia.
Qed.

Lemma window_from_ext (more more' : Z -> bool) (fuel : nat) (mp y n r : Z) :
  (forall r, more r = more' r) ->
  window_from fuel mp y more n r = window_from fuel mp y more' n r.
Proof.
  intros Hext. revert n r. induction fuel as [|k IH]; intros n r; [reflexivity|].
  cbn [window_from]. rewrite Hext, IH. reflexivity.
Qed.

(** Once [r] is [y + n], the loop header counts [r] up from there. *)
Lemma window_from_regular (bound mp y : Z) (fuel : nat) (n r : Z) :
  In r (window_from fuel mp y (fun r => r <? bound) n (y + n)) <->
  y + n <= r /\ r <= y + mp /\ r < bound /\ r < y + n + Z.of_nat fuel.
Proof.
  revert n. induction fuel as [|k IH]; intros n.
  - simpl. lia.
  - cbn [window_from].
    destruct (Z.leb_spec n mp); destruct (Z.ltb_spec (y + n) bound); simpl;
      try lia.
    replace (y + n + 1) with (y + (n + 1)) by lia. rewrite IH. lia.
Qed.

(** The rows of the window at [y], for either branch: [c] is 1 without
    dithering, where the first row asked for is [y + 1], and 0 with it. *)
Lemma window_elems (bound mp y c r : Z) (more : Z -> bool) :
  (forall r, more r = (r <? bound)) -> 1 <= mp -> c = 0 \/ c = 1 ->
  In r (window mp y more (y + c)) <-> y + c <= r <= y + mp /\ r < bound.
Proof.
  intros Hmore Hmp Hc. unfold window.
  rewrite (window_from_ext more (fun r => r <? bound)) by exact Hmore.
  replace (Z.to_nat (mp + 1)) with (S (Z.to_nat mp)) by lia.
  cbn [window_from].
  destruct (Z.leb_spec 0 mp); [|lia].
  destruct (Z.ltb_spec (y + c) bound); simpl; [|lia].
  replace (y + 0 + 1) with (y + 1) by lia.
  rewrite (window_from_regular bound mp y (Z.to_nat mp) 1 r). lia.
Qed.

(** ** Rendering a frame: all windows *)

Section Windows.

Variable sched : schedule.
Variable ai : ANSImage.
Variable work : Z -> outcome renderData.
Variable more : Z -> bool.
Variable first : Z -> Z.
Variables c bound : Z.
Variable rows0 : list string.

Hypothesis Hfair : fair sched.
Hypothesis Hprocs : 1 <= maxprocs ai.
Hypothesis Hc : c = 0 \/ c = 1.
Hypothesis Hfirst : forall y, first y = y + c.
Hypothesis Hmore : forall r, more r = (r <? bound).
Hypothesis Hbound_h : bound <= h ai.
Hypothesis Hbound_rows : bound <= Z.of_nat (length rows0).
Hypothesis Hwork : forall r, c <= r < bound -> exists d, work r = Return d /\ row d = r.

Local Abbreviation rows_at := (rows_at work c bound rows0).
Local Abbreviation rows_done := (rows_done work c bound rows0).

Lemma sent_of_row (r : Z) :
  c <= r < bound ->
  row (sent_of work r) = r /\ work r = Return (sent_of work r).
Proof.
  intros Hr. unfold sent_of. destruct (Hwork r Hr) as (d & -> & Hd). auto.
Qed.

Lemma window_step (y : Z) (rows : list string) :
  0 <= y -> rows_at y rows ->
  exists rows',
    (sent ← each work (window (maxprocs ai) y more (first y));
     fold_outcome collect rows (sched sent)) = Return rows' /\
    rows_at (y + maxprocs ai) rows'.
Proof.
  intros Hy [Hlen Hrows]. rewrite Hfirst.
  set (W := window (maxprocs ai) y more (y + c)).
  assert (HW : forall r, In r W <-> y + c <= r <= y + maxprocs ai /\ r < bound)
    by (intros r; apply window_elems; assumption).
  assert (HWr : forall r, In r W -> c <= r < bound)
    by (intros r Hr; apply HW in Hr; lia).
  rewrite each_sent by (intros r Hr; destruct (Hwork r (HWr r Hr)) as (d & -> & _); eauto).
  cbn [mbind outcome_bind].
  assert (Hin : forall d, In d (sched (map (sent_of work) W)) <->
                          exists r, In r W /\ d = sent_of work r).
  { intros d. split.
    - intros Hd. apply (Permutation_in d (Permutation_sym (Hfair _))) in Hd.
      apply in_map_iff in Hd as (r & <- & Hr). eauto.
    - intros (r & Hr & ->). apply (Permutation_in _ (Hfair _)).
      apply in_map. exact Hr. }
  destruct (collect_fold (text_of work) (sched (map (sent_of work) W)) rows)
    as (rows' & E & Hlen' & Hslots).
  { intros d Hd. apply Hin in Hd as (r & Hr & ->).
    destruct (sent_of_row r (HWr r Hr)) as [Hrow _].
    rewrite Hrow. split; [pose proof (HWr r Hr); lia | reflexivity]. }
  exists rows'. split; [exact E|]. split; [congruence|].
  intros i. destruct (Hslots i) as [Hnamed Hother]. destruct (Hrows i) as [Hkeep Hsure].
  destruct (named_or_not (sched (map (sent_of work) W)) (Z.of_nat i))
    as [Hex | Hno].
  - destruct (Hnamed Hex) as [_ Hi].
    destruct Hex as (d & Hd & Hdi). apply Hin in Hd as (r & Hr & ->).
    destruct (sent_of_row r (HWr r Hr)) as [Hrow _]. rewrite Hrow in Hdi. subst r.
    split; [right; split; [apply HWr; exact Hr | exact Hi] | intros _ _; exact Hi].
  - rewrite (Hother Hno). split; [exact Hkeep|].
    intros Hi Hlt. apply Hsure; [exact Hi|].
    destruct (Z.lt_ge_cases (Z.of_nat i) (y + c)) as [Hdone | Hnow]; [exact Hdone|].
    exfalso. apply (Hno (sent_of work (Z.of_nat i))).
    + apply Hin. exists (Z.of_nat i). split; [apply HW; lia | reflexivity].
    + apply sent_of_row. exact Hi.
Qed.

Lemma windows_rows (fuel : nat) :
  forall y rows,
    0 <= y -> h ai - y <= Z.of_nat fuel -> rows_at y rows ->
    exists rows',
      windows fuel sched ai work more first y rows = Return rows' /\
      rows_done rows'.
Proof.
  induction fuel as [|k IH]; intros y rows Hy Hfuel Hat.
  - cbn [windows]. destruct (Z.ltb_spec y (h ai)); [lia|].
    exists rows. split; [reflexivity|].
    destruct Hat as [Hlen Hrows]. split; [exact Hlen|].
    intros i. destruct (Hrows i) as [Hkeep Hsure]. split.
    + intros Hi. apply Hsure; [exact Hi | lia].
    + intros Hi. destruct Hkeep as [Heq | [Hi' _]]; [exact Heq | contradiction].
  - cbn [windows]. destruct (Z.ltb_spec y (h ai)).
    + destruct (Z.ltb_spec (maxprocs ai) 0); [lia|].
      destruct (window_step y rows Hy Hat) as (rows1 & E & Hat1).
      destruct (each work (window (maxprocs ai) y more (first y))) as [sent| |];
        try discriminate.
      cbn [mbind outcome_bind] in E |- *. rewrite E. cbn [mbind outcome_bind].
      apply IH; [lia | lia | exact Hat1].
    + exists rows. split; [reflexivity|].
      destruct Hat as [Hlen Hrows]. split; [exact Hlen|].
      intros i. destruct (Hrows i) as [Hkeep Hsure]. split.
      * intros Hi. apply Hsure; [exact Hi | lia].
      * intros Hi. destruct Hkeep as [Heq | [Hi' _]]; [exact Heq | contradiction].
Qed.

End Windows.

(** ** Rendering a frame: the two branches *)

Lemma rows_at_start (work : Z -> outcome renderData) (c bound : Z)
    (rows0 : list string) :
  0 <= c -> rows_at work c bound rows0 0 rows0.
Proof.
  intros Hc. split; [reflexivity|]. intros i. split; [left; reflexivity | lia].
Qed.

Lemma pair_more (hh r : Z) : (2 * r + 1 <? hh) = (r <? hh / 2).
Proof.
  pose proof (Z.div_mod hh 2 ltac:(lia)). pose proof (Z.mod_pos_bound hh 2 ltac:(lia)).
  destruct (Z.ltb_spec (2 * r + 1) hh); destruct (Z.ltb_spec r (hh / 2)); lia.
Qed.

Lemma row_more (hh r : Z) : (r + 1 <? hh) = (r <? hh - 1).
Proof. destruct (Z.ltb_spec (r + 1) hh); destruct (Z.ltb_spec r (hh - 1)); lia. Qed.

(** Without dithering, for any fair schedule and enough fuel, [RenderExt]
    returns the rows joined, where row [r] of [h/2] holds its worker's
    text for [1 <= r] and row 0 is as [make] left it. *)
Lemma RenderExt_pairs (fuel : nat) (sched : schedule) (ai : ANSImage) (f : Z)
    (disableBgColor : bool) :
  wf ai -> dithering ai = NoDithering -> 1 <= maxprocs ai ->
  0 <= f < FrameCount ai -> 0 <= h ai -> fair sched -> h ai <= Z.of_nat fuel ->
  exists rows,
    ANSImage_RenderExt fuel sched ai f disableBgColor = Return (join rows) /\
    rows_done (pair_work ai f disableBgColor) 1 (h ai / 2)
      (replicate (Z.to_nat (h ai / 2)) EmptyString) rows.
Proof.
  intros Hwf Hmode Hprocs Hf Hh Hfair Hfuel.
  pose proof (Z.div_mod (h ai) 2 ltac:(lia)) as Hdm.
  pose proof (Z.mod_pos_bound (h ai) 2 ltac:(lia)) as Hmod.
  unfold ANSImage_RenderExt. rewrite Hmode, Z.eqb_refl.
  rewrite Z.quot_div_nonneg by lia. unfold make_rows.
  destruct (Z.ltb_spec (h ai / 2) 0); [lia|]. cbn [mbind outcome_bind].
  destruct (windows_rows sched ai (pair_work ai f disableBgColor)
              (fun r => 2 * r + 1 <? h ai) (fun y => y + 1) 1 (h ai / 2)
              (replicate (Z.to_nat (h ai / 2)) EmptyString)
              Hfair Hprocs (or_intror eq_refl) (fun y => eq_refl)
              (pair_more (h ai)))
    with (fuel := fuel) (y := 0) (rows := replicate (Z.to_nat (h ai / 2)) EmptyString)
    as (rows & E & Hdone).
  - lia.
  - rewrite length_replicate. lia.
  - intros r Hr. unfold pair_work.
    apply pair_worker_total; auto; lia.
  - lia.
  - lia.
  - apply rows_at_start. lia.
  - exists rows. split; [|exact Hdone].
    unfold pair_work in E. rewrite E. reflexivity.
Qed.

(** With dithering, row [r] of [h] holds its worker's text for
    [r < h - 1] and row [h - 1] is as [make] left it. *)
Lemma RenderExt_rows (fuel : nat) (sched : schedule) (ai : ANSImage) (f : Z)
    (disableBgColor : bool) :
  wf ai ->
  dithering ai = DitheringWithBlocks \/ dithering ai = DitheringWithChars ->
  1 <= maxprocs ai ->
  0 <= f < FrameCount ai -> 0 <= h ai -> fair sched -> h ai <= Z.of_nat fuel ->
  exists rows,
    ANSImage_RenderExt fuel sched ai f disableBgColor = Return (join rows) /\
    rows_done (row_work ai f disableBgColor) 0 (h ai - 1)
      (replicate (Z.to_nat (h ai)) EmptyString) rows.
Proof.
  intros Hwf Hmode Hprocs Hf Hh Hfair Hfuel.
  unfold ANSImage_RenderExt.
  replace (dithering ai =? NoDithering) with false
    by (destruct Hmode as [-> | ->]; reflexivity).
  unfold make_rows.
  destruct (Z.ltb_spec (h ai) 0); [lia|]. cbn [mbind outcome_bind].
  destruct (windows_rows sched ai (row_work ai f disableBgColor)
              (fun r => r + 1 <? h ai) (fun y => y) 0 (h ai - 1)
              (replicate (Z.to_nat (h ai)) EmptyString)
              Hfair Hprocs (or_introl eq_refl) (fun y => eq_sym (Z.add_0_r y))
              (row_more (h ai)))
    with (fuel := fuel) (y := 0) (rows := replicate (Z.to_nat (h ai)) EmptyString)
    as (rows & E & Hdone).
  - lia.
  - rewrite length_replicate. lia.
  - intros r Hr. unfold row_work.
    apply row_worker_total; auto; lia.
  - lia.
  - lia.
  - apply rows_at_start. lia.
  - exists rows. split; [|exact Hdone].
    unfold row_work in E. rewrite E. reflexivity.
Qed.

Lemma lookup_map {A B : Type} (g : A -> B) (l : list A) (i : nat) :
  map g l !! i = g <$> l !! i.
Proof.
  revert i. induction l as [|a l IH]; intros [|i]; simpl; auto.
Qed.

Lemma join_skip (rows : list string) : join (EmptyString :: rows) = join rows.
Proof. reflexivity. Qed.

Lemma join_last_empty (rows : list string) :
  join (rows ++ [EmptyString]) = join rows.
Proof.
  induction rows as [|a rows IH]; [reflexivity|].
  cbn [app join fold_right] in *. unfold join in IH. rewrite IH. reflexivity.
Qed.

(** The rows of the branch without dithering, as a list: slot 0 is empty,
    the slots after it hold the texts of rows 1, 2, ... *)
Lemma rows_done_pairs (work : Z -> outcome renderData) (b : Z)
    (rows : list string) :
  0 < b ->
  rows_done work 1 b (replicate (Z.to_nat b) EmptyString) rows ->
  rows = EmptyString :: map (text_of work) (seqZ 1 (b - 1)).
Proof.
  intros Hb [Hlen Hslots]. apply list_eq. intros i.
  destruct (Hslots i) as [Hin Hout]. destruct i as [|j].
  - rewrite Hout by lia. apply lookup_replicate_2. lia.
  - rewrite lookup_cons, lookup_map.
    destruct (Z.lt_ge_cases (Z.of_nat (S j)) b) as [Hlt | Hge].
    + rewrite Hin by lia. rewrite lookup_seqZ_lt by lia. simpl.
      do 2 f_equal. lia.
    + rewrite Hout by lia. rewrite lookup_seqZ_ge by lia.
      apply lookup_replicate_None. lia.
Qed.

(** The rows of the dithering branch: the texts of rows 0, 1, ... and an
    empty last slot. *)
Lemma rows_done_rows (work : Z -> outcome renderData) (hh : Z)
    (rows : list string) :
  0 < hh ->
  rows_done work 0 (hh - 1) (replicate (Z.to_nat hh) EmptyString) rows ->
  rows = map (text_of work) (seqZ 0 (hh - 1)) ++ [EmptyString].
Proof.
  intros Hh [Hlen Hslots]. apply list_eq. intros i.
  destruct (Hslots i) as [Hin Hout].
  destruct (Z.lt_ge_cases (Z.of_nat i) (hh - 1)) as [Hlt | Hge].
  - rewrite Hin by lia.
    rewrite lookup_app_l by (rewrite length_map, length_seqZ; lia).
    rewrite lookup_map, lookup_seqZ_lt by lia. reflexivity.
  - rewrite Hout by lia.
    rewrite lookup_app_r by (rewrite length_map, length_seqZ; lia).
    rewrite length_map, length_seqZ.
    destruct (Z.eq_dec (Z.of_nat i) (hh - 1)) as [Heq | Hne].
    + replace (i - Z.to_nat (hh - 1))%nat with 0%nat by lia.
      apply lookup_replicate_2. lia.
    + rewrite (proj1 (lookup_replicate_None _ _ _)) by lia.
      symmetry. apply lookup_ge_None_2. simpl. lia.
Qed.

(** What [RenderExt] returns without dithering, for every fair schedule:
    the texts of the terminal rows 1 to [h/2 - 1] in ascending order, each
    once.  Terminal row 0 is not in it. *)
Lemma RenderExt_pairs_text (fuel : nat) (sched : schedule) (ai : ANSImage)
    (f : Z) (disableBgColor : bool) :
  wf ai -> dithering ai = NoDithering -> 1 <= maxprocs ai ->
  0 <= f < FrameCount ai -> 2 <= h ai -> fair sched -> h ai <= Z.of_nat fuel ->
  ANSImage_RenderExt fuel sched ai f disableBgColor
  = Return (join (map (text_of (pair_work ai f disableBgColor))
                      (seqZ 1 (h ai / 2 - 1)))).
Proof.
  intros Hwf Hmode Hprocs Hf Hh Hfair Hfuel.
  destruct (RenderExt_pairs fuel sched ai f disableBgColor Hwf Hmode Hprocs Hf
              ltac:(lia) Hfair Hfuel) as (rows & -> & Hdone).
  apply rows_done_pairs in Hdone.
  - rewrite Hdone, join_skip. reflexivity.
  - pose proof (Z.div_mod (h ai) 2 ltac:(lia)).
    pose proof (Z.mod_pos_bound (h ai) 2 ltac:(lia)). lia.
Qed.

(** What [RenderExt] returns with dithering: the texts of the rows 0 to
    [h - 2] in ascending order, each once.  The last row is not in it. *)
Lemma RenderExt_rows_text (fuel : nat) (sched : schedule) (ai : ANSImage)
    (f : Z) (disableBgColor : bool) :
  wf ai ->
  dithering ai = DitheringWithBlocks \/ dithering ai = DitheringWithChars ->
  1 <= maxprocs ai ->
  0 <= f < FrameCount ai -> 1 <= h ai -> fair sched -> h ai <= Z.of_nat fuel ->
  ANSImage_RenderExt fuel sched ai f disableBgColor
  = Return (join (map (text_of (row_work ai f disableBgColor))
                      (seqZ 0 (h ai - 1)))).
Proof.
  intros Hwf Hmode Hprocs Hf Hh Hfair Hfuel.
  destruct (RenderExt_rows fuel sched ai f disableBgColor Hwf Hmode Hprocs Hf
              ltac:(lia) Hfair Hfuel) as (rows & -> & Hdone).
  apply rows_done_rows in Hdone; [|lia].
  rewrite Hdone, join_last_empty. reflexivity.
Qed.

Lemma cat_assoc (a b c : string) : (a +++ b) +++ c = a +++ (b +++ c).
Proof. induction a as [|ch a IH]; simpl; [reflexivity|]. unfold cat in *. simpl. rewrite IH. reflexivity. Qed.

Lemma cat_empty_r (a : string) : a +++ EmptyString = a.
Proof. induction a as [|ch a IH]; [reflexivity|]. unfold cat in *. simpl. rewrite IH. reflexivity. Qed.

Lemma wfb_wf (ai : ANSImage) : wfb ai = true -> wf ai.
Proof.
  unfold wfb, wf, wf_frame. intros Hb.
  apply andb_true_iff in Hb as [Hfr Hd]. split.
  - apply Forall_forall. intros fr Hin.
    rewrite forallb_forall in Hfr.
    specialize (Hfr fr (proj1 (list_elem_of_In _ _) Hin)).
    apply andb_true_iff in Hfr as [Hlen Hrows]. split.
    + apply Nat.eqb_eq. exact Hlen.
    + apply Forall_forall. intros row Hrow.
      rewrite forallb_forall in Hrows.
      apply Nat.eqb_eq. apply Hrows. apply list_elem_of_In. exact Hrow.
  - apply Nat.eqb_eq. exact Hd.
Qed.

Lemma img42_wf : wf img42.
Proof. apply wfb_wf. vm_compute. reflexivity. Qed.

Lemma img22b_wf : wf img22b.
Proof. apply wfb_wf. vm_compute. reflexivity. Qed.

Lemma img42_fields :
  dithering img42 = NoDithering /\ maxprocs img42 = 1 /\
  FrameCount img42 = 1 /\ h img42 = 4.
Proof. vm_compute. repeat split; reflexivity. Qed.

Lemma img22b_fields :
  dithering img22b = DitheringWithBlocks /\ maxprocs img22b = 1 /\
  FrameCount img22b = 1 /\ h img22b = 2.
Proof. vm_compute. repeat split; reflexivity. Qed.

(** An image of four rows without dithering renders as terminal row 1. *)
Lemma pairs_of_four (fuel : nat) (sched : schedule) (ai : ANSImage) (f : Z)
    (disableBgColor : bool) :
  wf ai -> dithering ai = NoDithering -> 1 <= maxprocs ai ->
  0 <= f < FrameCount ai -> h ai = 4 -> fair sched -> (4 <= fuel)%nat ->
  ANSImage_RenderExt fuel sched ai f disableBgColor
  = Return (text_of (pair_work ai f disableBgColor) 1).
Proof.
  intros Hwf Hmode Hprocs Hf Hh Hfair Hfuel.
  rewrite (RenderExt_pairs_text fuel sched ai f disableBgColor Hwf Hmode
             Hprocs Hf) by (try assumption; lia).
  rewrite Hh. change (seqZ 1 (4 / 2 - 1)) with [1].
  cbn [map join fold_right]. rewrite cat_empty_r. reflexivity.
Qed.

(** An image of two rows with dithering renders as row 0. *)
Lemma rows_of_two (fuel : nat) (sched : schedule) (ai : ANSImage) (f : Z)
    (disableBgColor : bool) :
  wf ai ->
  dithering ai = DitheringWithBlocks \/ dithering ai = DitheringWithChars ->
  1 <= maxprocs ai ->
  0 <= f < FrameCount ai -> h ai = 2 -> fair sched -> (2 <= fuel)%nat ->
  ANSImage_RenderExt fuel sched ai f disableBgColor
  = Return (text_of (row_work ai f disableBgColor) 0).
Proof.
  intros Hwf Hmode Hprocs Hf Hh Hfair Hfuel.
  rewrite (RenderExt_rows_text fuel sched ai f disableBgColor Hwf Hmode
             Hprocs Hf) by (try assumption; lia).
  rewrite Hh. change (seqZ 0 (2 - 1)) with [0].
  cbn [map join fold_right]. rewrite cat_empty_r. reflexivity.
Qed.

(** C1 fails on the code.  An image of four rows without dithering has
    two terminal rows; for every fair schedule [RenderExt] returns the
    text of terminal row 1 alone, because the first row a window asks for
    is [y + 1] and no window asks for row 0.  An image of two rows in block
    mode renders as the text of row 0 alone, because the loop header stops
    at [r + 1 < h] and no window asks for the last row.  Neither is the
    text of all rows. *)
Theorem render_skips_a_row (fuel : nat) (sched : schedule)
    (Hfair : fair sched) (Hfuel : (4 <= fuel)%nat) :
  ANSImage_RenderExt fuel sched img42 0 false
  = Return (text_of (pair_work img42 0 false) 1) /\
  text_of (pair_work img42 0 false) 1
  = spec_bg 5 5 5 +++ spec_fg 7 7 7 +++ lowerHalfBlock
    +++ spec_bg 6 6 6 +++ spec_fg 8 8 8 +++ lowerHalfBlock
    +++ spec_reset_newline /\
  all_rows img42 0 false
  = text_of (pair_work img42 0 false) 0 +++ text_of (pair_work img42 0 false) 1 /\
  text_of (pair_work img42 0 false) 1 <> all_rows img42 0 false /\
  ANSImage_RenderExt fuel sched img22b 0 false
  = Return (text_of (row_work img22b 0 false) 0) /\
  all_rows img22b 0 false
  = text_of (row_work img22b 0 false) 0 +++ text_of (row_work img22b 0 false) 1 /\
  text_of (row_work img22b 0 false) 0 <> all_rows img22b 0 false.
Proof.
  destruct img42_fields as (Hd4 & Hmp4 & HFC4 & Hh4).
  destruct img22b_fields as (Hd2 & Hmp2 & HFC2 & Hh2).
  split; [|split; [|split; [|split; [|split; [|split]]]]].
  - apply pairs_of_four; try assumption.
    + exact img42_wf.
    + rewrite Hmp4. lia.
    + rewrite HFC4. lia.
  - vm_compute. reflexivity.
  - vm_compute. reflexivity.
  - vm_compute. discriminate.
  - apply rows_of_two; try assumption.
    + exact img22b_wf.
    + left. exact Hd2.
    + rewrite Hmp2. lia.
    + rewrite HFC2. lia.
    + lia.
  - vm_compute. reflexivity.
  - vm_compute. discriminate.
Qed.

Lemma last_first_fair : fair last_first.
Proof. intros l. apply Permutation_rev. Qed.

Lemma render_skips_a_row_witness :
  ANSImage_RenderExt 4 last_first img42 0 false
  = Return (text_of (pair_work img42 0 false) 1) /\
  ANSImage_RenderExt 4 last_first img22b 0 false
  = Return (text_of (row_work img22b 0 false) 0).
Proof.
  pose proof (render_skips_a_row 4 last_first last_first_fair (le_n 4))
    as (Hpairs & _ & _ & _ & Hrows & _).
  split; [exact Hpairs | exact Hrows].
Defined.

(** ** The region a frame is quantized over *)

(** Without dithering the truncation changes nothing the second time. *)
Lemma truncate_even_again (yMax xMax : Z) :
  truncate NoDithering (yMax - Z.rem yMax 2) xMax = (yMax - Z.rem yMax 2, xMax).
Proof.
  unfold truncate. simpl. f_equal.
  pose proof (Z.quot_rem' yMax 2) as Hq.
  replace (yMax - Z.rem yMax 2) with (Z.quot yMax 2 * 2) by lia.
  rewrite Z.rem_mul by lia. lia.
Qed.

(** With dithering it divides again: the second frame is quantized over
    [yMax / 64] by [xMax / 16] cells. *)
Lemma truncate_blocks_again (dm : DitheringMode) (yMax xMax : Z) :
  dm <> NoDithering ->
  (let '(y1, x1) := truncate dm yMax xMax in truncate dm y1 x1)
  = (Z.quot yMax 64, Z.quot xMax 16).
Proof.
  intros Hdm. unfold truncate.
  destruct (Z.eqb_spec dm NoDithering); [contradiction|].
  unfold BlockSizeY, BlockSizeX. rewrite !Z.quot_quot by lia. reflexivity.
Qed.

(** C2 fails on the code.  The truncation sits inside the frame loop and
    works on variables that outlive an iteration, so with dithering each
    frame divides the bounds of the frame before it.  For two equal frames
    of 8 by 16 pixels in block mode the first frame is quantized over 2 by
    2 cells and the second over none: its cells keep the zeros of [New]. *)
Theorem quantization_region_shrinks :
  exists ai,
    ex_createANSImage proxy2 black DitheringWithBlocks = Return (Some ai, None) /\
    truncate DitheringWithBlocks 16 8 = (2, 2) /\
    truncate DitheringWithBlocks 2 2 = (0, 0) /\
    cell ai 0 0 0 = Return (mkANSIpixel 200 100 150 200 false) /\
    cell ai 0 1 1 = Return (mkANSIpixel 200 100 150 200 false) /\
    cell ai 1 0 0 = Return (mkANSIpixel 0 0 0 0 false) /\
    cell ai 1 1 1 = Return (mkANSIpixel 0 0 0 0 false).
Proof.
  assert (Heval :
    let r := ex_createANSImage proxy2 black DitheringWithBlocks in
    r = Return (Some (built r), None) /\
    truncate DitheringWithBlocks 16 8 = (2, 2) /\
    truncate DitheringWithBlocks 2 2 = (0, 0) /\
    cell (built r) 0 0 0 = Return (mkANSIpixel 200 100 150 200 false) /\
    cell (built r) 0 1 1 = Return (mkANSIpixel 200 100 150 200 false) /\
    cell (built r) 1 0 0 = Return (mkANSIpixel 0 0 0 0 false) /\
    cell (built r) 1 1 1 = Return (mkANSIpixel 0 0 0 0 false))
    by (vm_compute; repeat split; reflexivity).
  exists (built (ex_createANSImage proxy2 black DitheringWithBlocks)).
  exact Heval.
Qed.

(** * Properties beyond the claims *)

(** ** [New] *)

Lemma New_cell (hh ww frameCount : Z) (bg : Color) (dm : DitheringMode)
    (ai : ANSImage) (f y x : Z) :
  New hh ww frameCount bg dm = Return (Some ai, None) ->
  0 <= f < frameCount -> 0 <= y < hh -> 0 <= x < ww ->
  cell ai f y x = Return (zero_cell dm y).
Proof.
  intros HN Hf Hy Hx. apply New_Return in HN as (_ & _ & _ & _ & ->).
  apply cell_Return.
  exists (newFrame hh ww dm),
         (replicate (Z.to_nat ww) (mkANSIpixel 0 0 0 0 (role dm y))).
  repeat split; try lia.
  - simpl. apply lookup_replicate_2. lia.
  - unfold newFrame. rewrite lookup_map.
    rewrite (lookup_seq_lt 0 (Z.to_nat hh) (Z.to_nat y)) by lia. simpl.
    rewrite Z2Nat.id by lia. reflexivity.
  - apply lookup_replicate_2. lia.
Qed.

(** [New] returns an image exactly for bounds of at least 2 by 2 with an
    even height when dithering is off (and a frame count that is not
    negative); it accepts every dithering mode, known or not.  The image
    has [frameCount] frames, the height and width asked for, one worker
    at a time, every delay 0 and every cell black with brightness 0 and
    the role flag of its row. *)
Theorem New_postcondition (hh ww frameCount : Z) (bg : Color)
    (dm : DitheringMode) :
  ((exists ai, New hh ww frameCount bg dm = Return (Some ai, None)) <->
   ((dm = NoDithering -> Z.rem hh 2 = 0) /\ 2 <= hh /\ 2 <= ww /\
    0 <= frameCount)) /\
  (forall ai, New hh ww frameCount bg dm = Return (Some ai, None) ->
     FrameCount ai = frameCount /\ Height ai = hh /\ Width ai = ww /\
     GetMaxProcs ai = 1 /\ dithering ai = dm /\
     forall f, 0 <= f < frameCount ->
       FrameDelay ai f = Return 0 /\
       forall y x, 0 <= y < hh -> 0 <= x < ww ->
         GetAt ai f y x = Return (Some (zero_cell dm y), None)).
Proof.
  split.
  - split.
    + intros [ai HN]. apply New_Return in HN. tauto.
    + intros (Heven & Hh & Hw & Hfc). unfold New.
      replace ((dm =? NoDithering) && negb (Z.rem hh 2 =? 0)) with false.
      * replace ((hh <? 2) || (ww <? 2)) with false
          by (symmetry; apply orb_false_iff; split; apply Z.ltb_ge; lia).
        destruct (Z.ltb_spec frameCount 0); [lia|]. eauto.
      * symmetry. destruct (Z.eqb_spec dm NoDithering) as [Hd|]; [|reflexivity].
        simpl. rewrite (Heven Hd). reflexivity.
  - intros ai HN. pose proof HN as HN'.
    apply New_Return in HN' as (Hh & Hw & Hfc & _ & Hai).
    assert (HFC : FrameCount ai = frameCount)
      by (rewrite Hai; unfold FrameCount; simpl; rewrite length_replicate; lia).
    split; [exact HFC|]. rewrite Hai at 1 2 3 4. repeat (split; [reflexivity|]).
    intros f Hf. split.
    + rewrite Hai. unfold FrameDelay. simpl. apply index_Return.
      split; [lia | apply lookup_replicate_2; lia].
    + intros y x Hy Hx.
      assert (Hhw : h ai = hh /\ w ai = ww) by (rewrite Hai; auto).
      rewrite GetAt_inside by lia.
      rewrite (New_cell hh ww frameCount bg dm ai f y x HN Hf Hy Hx).
      reflexivity.
Qed.

Lemma New_postcondition_witness :
  (exists ai, New 4 2 3 black 7 = Return (Some ai, None)) /\
  FrameCount (built (New 4 2 3 black 7)) = 3 /\
  GetAt (built (New 4 2 3 black 7)) 2 3 1
  = Return (Some (zero_cell 7 3), None).
Proof.
  pose proof (New_postcondition 4 2 3 black 7) as [Hiff Hpost].
  assert (Hex : exists ai, New 4 2 3 black 7 = Return (Some ai, None)).
  { apply (proj2 Hiff). repeat split; lia. }
  split; [exact Hex|].
  destruct (Hpost (built (New 4 2 3 black 7)) eq_refl)
    as (HFC & _ & _ & _ & _ & Hcells).
  split; [exact HFC|].
  apply (proj2 (Hcells 2 ltac:(lia)) 3 1); lia.
Defined.

(** ** Two images with the same cells are the same image *)

Lemma image_ext (a b : ANSImage) :
  wf a -> wf b ->
  h a = h b -> w a = w b -> maxprocs a = maxprocs b ->
  bgR a = bgR b -> bgG a = bgG b -> bgB a = bgB b ->
  dithering a = dithering b -> delay a = delay b ->
  FrameCount a = FrameCount b ->
  (forall f y x, 0 <= f < FrameCount a -> 0 <= y < h a -> 0 <= x < w a ->
     cell a f y x = cell b f y x) ->
  a = b.
Proof.
  intros Hwa Hwb Hh Hw Hmp HR HG HB Hd Hdel HFC Hcells.
  assert (Hfr : frame a = frame b).
  { apply list_eq. intros i.
    destruct (Nat.lt_ge_cases i (length (frame a))) as [Hlt | Hge].
    - assert (Hf : 0 <= Z.of_nat i < FrameCount a) by (unfold FrameCount; lia).
      destruct (lookup_lt_is_Some_2 (frame a) i Hlt) as [fa Efa].
      destruct (lookup_lt_is_Some_2 (frame b) i) as [fb Efb];
        [unfold FrameCount in HFC; lia|].
      rewrite Efa, Efb. f_equal.
      destruct (proj1 (Forall_lookup _ _) (proj1 Hwa) _ _ Efa) as [Hla Hra].
      destruct (proj1 (Forall_lookup _ _) (proj1 Hwb) _ _ Efb) as [Hlb Hrb].
      apply list_eq. intros j.
      destruct (Nat.lt_ge_cases j (length fa)) as [Hjlt | Hjge].
      + destruct (lookup_lt_is_Some_2 fa j Hjlt) as [ra Era].
        destruct (lookup_lt_is_Some_2 fb j) as [rb Erb]; [lia|].
        rewrite Era, Erb. f_equal.
        pose proof (proj1 (Forall_lookup _ _) Hra _ _ Era) as Hwra.
        pose proof (proj1 (Forall_lookup _ _) Hrb _ _ Erb) as Hwrb.
        simpl in Hwra, Hwrb.
        apply list_eq. intros k.
        destruct (Nat.lt_ge_cases k (length ra)) as [Hklt | Hkge].
        * destruct (lookup_lt_is_Some_2 ra k Hklt) as [pa Epa].
          destruct (lookup_lt_is_Some_2 rb k) as [pb Epb]; [lia|].
          rewrite Epa, Epb. f_equal.
          assert (Ha : cell a (Z.of_nat i) (Z.of_nat j) (Z.of_nat k) = Return pa).
          { apply cell_Return. exists fa, ra. rewrite !Nat2Z.id.
            repeat split; auto; lia. }
          assert (Hb : cell b (Z.of_nat i) (Z.of_nat j) (Z.of_nat k) = Return pb).
          { apply cell_Return. exists fb, rb. rewrite !Nat2Z.id.
            repeat split; auto; lia. }
          rewrite Hcells in Ha by lia. congruence.
        * rewrite !lookup_ge_None_2 by lia. reflexivity.
      + rewrite !lookup_ge_None_2 by lia. reflexivity.
    - rewrite !lookup_ge_None_2 by (unfold FrameCount in HFC; lia). reflexivity. }
  destruct a, b. simpl in *. congruence.
Qed.

(** ** How writes compose *)

Lemma SetAt2_inside (ai : ANSImage)
    (f1 y1 x1 r1 g1 b1 br1 f2 y2 x2 r2 g2 b2 br2 : Z) :
  wf ai ->
  0 <= f1 < FrameCount ai -> 0 <= y1 < h ai -> 0 <= x1 < w ai ->
  0 <= f2 < FrameCount ai -> 0 <= y2 < h ai -> 0 <= x2 < w ai ->
  exists a,
    SetAt2 ai f1 y1 x1 r1 g1 b1 br1 f2 y2 x2 r2 g2 b2 br2 = Some a /\
    wf a /\ h a = h ai /\ w a = w ai /\ dithering a = dithering ai /\
    maxprocs a = maxprocs ai /\ delay a = delay ai /\
    bgR a = bgR ai /\ bgG a = bgG ai /\ bgB a = bgB ai /\
    FrameCount a = FrameCount ai /\
    forall f y x,
      cell a f y x =
      if (f =? f2) && (y =? y2) && (x =? x2)
      then Return (mkANSIpixel br2 r2 g2 b2 (role (dithering ai) y2))
      else if (f =? f1) && (y =? y1) && (x =? x1)
      then Return (mkANSIpixel br1 r1 g1 b1 (role (dithering ai) y1))
      else cell ai f y x.
Proof.
  intros Hwf Hf1 Hy1 Hx1 Hf2 Hy2 Hx2.
  destruct (SetAt_inside ai f1 y1 x1 r1 g1 b1 br1 Hwf Hf1 Hy1 Hx1)
    as (a1 & E1 & Hwf1 & Hh1 & Hw1 & Hd1 & Hm1 & Hdl1 & HR1 & HG1 & HB1 & HF1 & Hc1).
  destruct (SetAt_inside a1 f2 y2 x2 r2 g2 b2 br2 Hwf1) as
    (a & E2 & Hwfa & Hha & Hwa & Hda & Hma & Hdla & HRa & HGa & HBa & HFa & Hca);
    try lia.
  exists a. unfold SetAt2. rewrite E1, E2.
  split; [reflexivity|]. split; [exact Hwfa|].
  repeat (split; [congruence|]).
  intros f y x. rewrite Hca, Hc1, Hd1. reflexivity.
Qed.

(** Two writes to different cells commute: either order gives the same
    image. *)
Theorem SetAt_commute (ai : ANSImage) (Hreach : reachable ai)
    (f1 y1 x1 r1 g1 b1 br1 f2 y2 x2 r2 g2 b2 br2 : Z)
    (Hf1 : 0 <= f1 < FrameCount ai) (Hy1 : 0 <= y1 < h ai) (Hx1 : 0 <= x1 < w ai)
    (Hf2 : 0 <= f2 < FrameCount ai) (Hy2 : 0 <= y2 < h ai) (Hx2 : 0 <= x2 < w ai)
    (Hdiff : (f1, y1, x1) <> (f2, y2, x2)) :
  exists a,
    SetAt2 ai f1 y1 x1 r1 g1 b1 br1 f2 y2 x2 r2 g2 b2 br2 = Some a /\
    SetAt2 ai f2 y2 x2 r2 g2 b2 br2 f1 y1 x1 r1 g1 b1 br1 = Some a.
Proof.
  pose proof (reachable_wf ai Hreach) as Hwf.
  destruct (SetAt2_inside ai f1 y1 x1 r1 g1 b1 br1 f2 y2 x2 r2 g2 b2 br2 Hwf
              Hf1 Hy1 Hx1 Hf2 Hy2 Hx2)
    as (a & Ea & Hwfa & Hha & Hwa & Hda & Hma & Hdla & HRa & HGa & HBa & HFa & Hca).
  destruct (SetAt2_inside ai f2 y2 x2 r2 g2 b2 br2 f1 y1 x1 r1 g1 b1 br1 Hwf
              Hf2 Hy2 Hx2 Hf1 Hy1 Hx1)
    as (b & Eb & Hwfb & Hhb & Hwb & Hdb & Hmb & Hdlb & HRb & HGb & HBb & HFb & Hcb).
  exists a. split; [exact Ea|]. rewrite Eb. f_equal. symmetry.
  apply image_ext; try congruence.
  intros f y x _ _ _. rewrite Hca, Hcb.
  destruct (Z.eqb_spec f f2); destruct (Z.eqb_spec y y2);
    destruct (Z.eqb_spec x x2); destruct (Z.eqb_spec f f1);
    destruct (Z.eqb_spec y y1); destruct (Z.eqb_spec x x1);
    simpl; try reflexivity.
  exfalso. apply Hdiff. congruence.
Qed.

Lemma SetAt_commute_witness :
  exists a,
    SetAt2 img22 0 0 0 1 2 3 4 0 1 1 5 6 7 8 = Some a /\
    SetAt2 img22 0 1 1 5 6 7 8 0 0 0 1 2 3 4 = Some a.
Proof.
  assert (Hr : reachable img22)
    by (eapply (reach_New 2 2 1 black NoDithering); reflexivity).
  apply (SetAt_commute img22 Hr 0 0 0 1 2 3 4 0 1 1 5 6 7 8);
    vm_compute; intuition discriminate.
Defined.

(** A second write to the same cell replaces the first: the image is the
    one the second write alone gives. *)
Theorem SetAt_overwrite (ai : ANSImage) (Hreach : reachable ai)
    (f y x r1 g1 b1 br1 r2 g2 b2 br2 : Z)
    (Hf : 0 <= f < FrameCount ai) (Hy : 0 <= y < h ai) (Hx : 0 <= x < w ai) :
  exists a,
    SetAt2 ai f y x r1 g1 b1 br1 f y x r2 g2 b2 br2 = Some a /\
    SetAt ai f y x r2 g2 b2 br2 = Return (a, None).
Proof.
  pose proof (reachable_wf ai Hreach) as Hwf.
  destruct (SetAt2_inside ai f y x r1 g1 b1 br1 f y x r2 g2 b2 br2 Hwf
              Hf Hy Hx Hf Hy Hx)
    as (a & Ea & Hwfa & Hha & Hwa & Hda & Hma & Hdla & HRa & HGa & HBa & HFa & Hca).
  destruct (SetAt_inside ai f y x r2 g2 b2 br2 Hwf Hf Hy Hx)
    as (b & Eb & Hwfb & Hhb & Hwb & Hdb & Hmb & Hdlb & HRb & HGb & HBb & HFb & Hcb).
  exists a. split; [exact Ea|]. rewrite Eb. do 2 f_equal. symmetry.
  apply image_ext; try congruence.
  intros f' y' x' _ _ _. rewrite Hca, Hcb.
  destruct ((f' =? f) && (y' =? y) && (x' =? x)); reflexivity.
Qed.

Lemma SetAt_overwrite_witness :
  exists a,
    SetAt2 img22 0 1 1 1 2 3 4 0 1 1 5 6 7 8 = Some a /\
    SetAt img22 0 1 1 5 6 7 8 = Return (a, None).
Proof.
  assert (Hr : reachable img22)
    by (eapply (reach_New 2 2 1 black NoDithering); reflexivity).
  apply (SetAt_overwrite img22 Hr 0 1 1 1 2 3 4 5 6 7 8);
    vm_compute; intuition discriminate.
Defined.

(** ** The text of a rendered frame *)

(** A loop that appends one piece per iteration appends the pieces
    joined. *)
Lemma for_loop_cat (piece : Z -> string) (body : Z -> string -> outcome string)
    (n : nat) :
  forall x0 s,
    (forall x str, x0 <= x < x0 + Z.of_nat n ->
       body x str = Return (str +++ piece x)) ->
    for_loop n x0 body s = Return (s +++ join (map piece (seqZ x0 (Z.of_nat n)))).
Proof.
  induction n as [|n IH]; intros x0 s Hbody.
  - simpl. rewrite cat_empty_r. reflexivity.
  - cbn [for_loop]. rewrite Hbody by lia. cbn [mbind outcome_bind].
    rewrite IH by (intros; apply Hbody; lia).
    rewrite (seqZ_cons x0 (Z.of_nat (S n))) by lia.
    cbn [map join fold_right]. rewrite cat_assoc.
    replace (Z.succ x0) with (x0 + 1) by lia.
    replace (Z.pred (Z.of_nat (S n))) with (Z.of_nat n) by lia.
    reflexivity.
Qed.

Lemma seqZ_to_nat (m n : Z) : seqZ m (Z.of_nat (Z.to_nat n)) = seqZ m n.
Proof. unfold seqZ. rewrite Nat2Z.id. reflexivity. Qed.

Lemma pixel_at_cell (ai : ANSImage) (f y x : Z) :
  wf ai -> 0 <= f < FrameCount ai -> 0 <= y < h ai -> 0 <= x < w ai ->
  cell ai f y x = Return (pixel_at ai f y x).
Proof.
  intros Hwf Hf Hy Hx. unfold pixel_at.
  destruct (wf_cell_total ai f y x Hwf Hf Hy Hx) as [p ->]. reflexivity.
Qed.

Lemma pair_worker_text (ai : ANSImage) (f : Z) (disableBgColor : bool) (r : Z) :
  reachable ai -> dithering ai = NoDithering -> 0 <= f < FrameCount ai ->
  0 <= r -> 2 * r + 1 < h ai ->
  pair_worker ai f disableBgColor r (2 * r)
  = Return (mkRenderData r (pair_text ai f r)).
Proof.
  intros Hreach Hmode Hf Hr Hh.
  pose proof (reachable_wf ai Hreach) as Hwf.
  pose proof (reachable_roles ai Hreach) as Hroles.
  unfold pair_worker, pair_text.
  rewrite (for_loop_cat
             (fun x =>
                let u := pixel_at ai f (2 * r) x in
                let l := pixel_at ai f (2 * r + 1) x in
                sgr_bg (R u) (G u) (B u)
                  +++ sgr_fg (R l) (G l) (B l) +++ lowerHalfBlock)).
  - cbn [mbind outcome_bind]. rewrite seqZ_to_nat. reflexivity.
  - intros x str Hx.
    assert (Hx' : 0 <= x < w ai) by lia.
    pose proof (pixel_at_cell ai f (2 * r) x Hwf Hf ltac:(lia) Hx') as Eu.
    pose proof (pixel_at_cell ai f (2 * r + 1) x Hwf Hf ltac:(lia) Hx') as El.
    rewrite Eu. cbn [mbind outcome_bind].
    unfold ANSIpixel_RenderExt at 1. rewrite Hmode, Z.eqb_refl.
    cbn [mbind outcome_bind]. rewrite El. cbn [mbind outcome_bind].
    unfold ANSIpixel_RenderExt. rewrite Hmode, Z.eqb_refl.
    cbn [mbind outcome_bind].
    rewrite (Hroles f (2 * r) x _ Eu), (Hroles f (2 * r + 1) x _ El), Hmode.
    unfold role. rewrite Z.eqb_refl.
    rewrite !rem2_even by lia.
    replace (Z.even (2 * r)) with true by (symmetry; apply Z.even_spec; exists r; lia).
    replace (Z.even (2 * r + 1)) with false
      by (symmetry; replace (2 * r + 1) with (1 + 2 * r) by lia;
          rewrite Z.even_add_mul_2; reflexivity).
    cbn [andb]. rewrite !cat_assoc. reflexivity.
Qed.

Lemma row_worker_text (ai : ANSImage) (f : Z) (disableBgColor : bool) (y : Z) :
  wf ai ->
  dithering ai = DitheringWithBlocks \/ dithering ai = DitheringWithChars ->
  0 <= f < FrameCount ai -> 0 <= y < h ai ->
  row_worker ai f disableBgColor y
  = Return (mkRenderData y (dither_text ai f disableBgColor y)).
Proof.
  intros Hwf Hmode Hf Hy. unfold row_worker, dither_text.
  rewrite (for_loop_cat
             (fun x =>
                let p := pixel_at ai f y x in
                (if disableBgColor then EmptyString
                 else sgr_bg (bgR ai) (bgG ai) (bgB ai))
                  +++ sgr_fg (R p) (G p) (B p)
                  +++ (if dithering ai =? DitheringWithBlocks
                       then block_glyph (Brightness p)
                       else char_glyph (Brightness p)))).
  - cbn [mbind outcome_bind]. rewrite seqZ_to_nat. reflexivity.
  - intros x str Hx.
    rewrite (pixel_at_cell ai f y x Hwf Hf Hy ltac:(lia)).
    cbn [mbind outcome_bind]. unfold ANSIpixel_RenderExt.
    destruct Hmode as [-> | ->]; reflexivity.
Qed.

(** The whole text of a frame without dithering, for every fair schedule,
    every number of workers from 1 up and enough fuel: the terminal rows 1
    to [h/2 - 1] in ascending order, each row being, column by column, the
    background escape of the upper cell, the foreground escape of the
    lower cell and the half block, closed by the reset and a newline. *)
Theorem render_text_pairs (fuel : nat) (sched : schedule) (ai : ANSImage)
    (f : Z) (disableBgColor : bool)
    (Hreach : reachable ai) (Hmode : dithering ai = NoDithering)
    (Hprocs : 1 <= maxprocs ai) (Hf : 0 <= f < FrameCount ai)
    (Hh : 2 <= h ai) (Hfair : fair sched) (Hfuel : h ai <= Z.of_nat fuel) :
  ANSImage_RenderExt fuel sched ai f disableBgColor
  = Return (join (map (pair_text ai f) (seqZ 1 (h ai / 2 - 1)))).
Proof.
  rewrite (RenderExt_pairs_text fuel sched ai f disableBgColor
             (reachable_wf ai Hreach) Hmode Hprocs Hf Hh Hfair Hfuel).
  do 2 f_equal. apply map_ext_in. intros r Hr.
  apply list_elem_of_In, elem_of_seqZ in Hr.
  pose proof (Z.div_mod (h ai) 2 ltac:(lia)).
  pose proof (Z.mod_pos_bound (h ai) 2 ltac:(lia)).
  unfold text_of, sent_of, pair_work.
  rewrite (pair_worker_text ai f disableBgColor r Hreach Hmode Hf) by lia.
  reflexivity.
Qed.

Lemma reachable_written (ai : ANSImage) (f y x r g b brightness : Z) :
  reachable ai -> reachable (written ai (SetAt ai f y x r g b brightness)).
Proof.
  intros Hr. unfold written.
  destruct (SetAt ai f y x r g b brightness) as [[ai' e]| |] eqn:E;
    [|exact Hr|exact Hr].
  eapply reach_SetAt; eauto.
Qed.

Lemma img42_reachable : reachable img42.
Proof.
  unfold img42. repeat apply reachable_written.
  eapply (reach_New 4 2 1 black NoDithering). reflexivity.
Qed.

Lemma render_text_pairs_witness :
  ANSImage_RenderExt 4 last_first img42 0 true
  = Return (join (map (pair_text img42 0) (seqZ 1 (h img42 / 2 - 1)))).
Proof.
  apply (render_text_pairs 4 last_first img42 0 true).
  - exact img42_reachable.
  - reflexivity.
  - vm_compute. discriminate.
  - vm_compute. intuition discriminate.
  - vm_compute. discriminate.
  - exact last_first_fair.
  - vm_compute. discriminate.
Defined.

(** The whole text of a frame with dithering: the rows 0 to [h - 2] in
    ascending order, each row being, column by column, the background
    escape of the image (unless suppressed), the foreground escape of the
    cell and the glyph of its brightness, closed by the reset and a
    newline. *)
Theorem render_text_rows (fuel : nat) (sched : schedule) (ai : ANSImage)
    (f : Z) (disableBgColor : bool)
    (Hreach : reachable ai)
    (Hmode : dithering ai = DitheringWithBlocks \/
             dithering ai = DitheringWithChars)
    (Hprocs : 1 <= maxprocs ai) (Hf : 0 <= f < FrameCount ai)
    (Hh : 1 <= h ai) (Hfair : fair sched) (Hfuel : h ai <= Z.of_nat fuel) :
  ANSImage_RenderExt fuel sched ai f disableBgColor
  = Return (join (map (dither_text ai f disableBgColor) (seqZ 0 (h ai - 1)))).
Proof.
  pose proof (reachable_wf ai Hreach) as Hwf.
  rewrite (RenderExt_rows_text fuel sched ai f disableBgColor
             Hwf Hmode Hprocs Hf Hh Hfair Hfuel).
  do 2 f_equal. apply map_ext_in. intros r Hr.
  apply list_elem_of_In, elem_of_seqZ in Hr.
  unfold text_of, sent_of, row_work.
  rewrite (row_worker_text ai f disableBgColor r Hwf Hmode Hf) by lia.
  reflexivity.
Qed.

Lemma img22b_reachable : reachable img22b.
Proof.
  unfold img22b. repeat apply reachable_written.
  eapply (reach_New 2 2 1 black DitheringWithBlocks). reflexivity.
Qed.

Lemma render_text_rows_witness :
  ANSImage_RenderExt 2 last_first img22b 0 false
  = Return (join (map (dither_text img22b 0 false) (seqZ 0 (h img22b - 1)))).
Proof.
  apply (render_text_rows 2 last_first img22b 0 false).
  - exact img22b_reachable.
  - left. reflexivity.
  - vm_compute. discriminate.
  - vm_compute. intuition discriminate.
  - vm_compute. discriminate.
  - exact last_first_fair.
  - vm_compute. discriminate.
Defined.

(** The text of a frame does not depend on the order in which the workers
    finish, on the number of workers set with [SetMaxProcs] (from 1 up),
    or on the fuel once it is enough. *)
Theorem render_deterministic (ai : ANSImage) (f : Z) (disableBgColor : bool)
    (fuel1 fuel2 : nat) (sched1 sched2 : schedule) (max1 max2 : Z)
    (Hreach : reachable ai)
    (Hmode : dithering ai = NoDithering \/
             dithering ai = DitheringWithBlocks \/
             dithering ai = DitheringWithChars)
    (Hf : 0 <= f < FrameCount ai) (Hh : 2 <= h ai)
    (Hfair1 : fair sched1) (Hfair2 : fair sched2)
    (Hmax1 : 1 <= max1) (Hmax2 : 1 <= max2)
    (Hfuel1 : h ai <= Z.of_nat fuel1) (Hfuel2 : h ai <= Z.of_nat fuel2) :
  ANSImage_RenderExt fuel1 sched1 (SetMaxProcs ai max1) f disableBgColor
  = ANSImage_RenderExt fuel2 sched2 (SetMaxProcs ai max2) f disableBgColor.
Proof.
  pose proof (reach_SetMaxProcs ai max1 Hreach) as Hr1.
  pose proof (reach_SetMaxProcs ai max2 Hreach) as Hr2.
  destruct Hmode as [Hmode | Hmode].
  - rewrite (render_text_pairs fuel1 sched1 (SetMaxProcs ai max1) f
               disableBgColor Hr1 Hmode Hmax1 Hf Hh Hfair1 Hfuel1).
    rewrite (render_text_pairs fuel2 sched2 (SetMaxProcs ai max2) f
               disableBgColor Hr2 Hmode Hmax2 Hf Hh Hfair2 Hfuel2).
    reflexivity.
  - rewrite (render_text_rows fuel1 sched1 (SetMaxProcs ai max1) f
               disableBgColor Hr1 Hmode Hmax1 Hf ltac:(simpl; lia) Hfair1 Hfuel1).
    rewrite (render_text_rows fuel2 sched2 (SetMaxProcs ai max2) f
               disableBgColor Hr2 Hmode Hmax2 Hf ltac:(simpl; lia) Hfair2 Hfuel2).
    reflexivity.
Qed.

Lemma render_deterministic_witness :
  ANSImage_RenderExt 4 id (SetMaxProcs img42 1) 0 false
  = ANSImage_RenderExt 9 last_first (SetMaxProcs img42 3) 0 false.
Proof.
  apply (render_deterministic img42 0 false 4 9 id last_first 1 3).
  - exact img42_reachable.
  - left. reflexivity.
  - vm_compute. intuition discriminate.
  - vm_compute. discriminate.
  - intros l. apply Permutation_refl.
  - exact last_first_fair.
  - lia.
  - lia.
  - vm_compute. discriminate.
  - vm_compute. discriminate.
Defined.

(** ** The flag that suppresses the background colour *)

Lemma for_loop_ext {S : Type} (body1 body2 : Z -> S -> outcome S) (n : nat) :
  (forall x s, body1 x s = body2 x s) ->
  forall x0 s, for_loop n x0 body1 s = for_loop n x0 body2 s.
Proof.
  intros Hext. induction n as [|n IH]; intros x0 s; [reflexivity|].
  cbn [for_loop]. rewrite Hext. destruct (body2 x0 s); simpl; auto.
Qed.

Lemma each_ext {A B : Type} (f1 f2 : A -> outcome B) (l : list A) :
  (forall a, f1 a = f2 a) -> each f1 l = each f2 l.
Proof.
  intros Hext. induction l as [|a l IH]; [reflexivity|].
  cbn [each]. rewrite Hext, IH. reflexivity.
Qed.

Lemma windows_ext (work1 work2 : Z -> outcome renderData) (fuel : nat)
    (sched : schedule) (ai : ANSImage) (more : Z -> bool) (first : Z -> Z) :
  (forall r, work1 r = work2 r) ->
  forall y rows,
    windows fuel sched ai work1 more first y rows
    = windows fuel sched ai work2 more first y rows.
Proof.
  intros Hext. induction fuel as [|k IH]; intros y rows; [reflexivity|].
  cbn [windows]. rewrite (each_ext work1 work2) by exact Hext.
  destruct (y <? h ai); [|reflexivity].
  destruct (maxprocs ai <? 0); [reflexivity|].
  destruct (each work2 _) as [sent| |]; simpl; auto.
  destruct (fold_outcome collect rows (sched sent)); simpl; auto.
Qed.

(** Without dithering the flag [disableBgColor] changes nothing: the upper
    cells are background escapes either way.  This holds for every image,
    schedule and fuel. *)
Theorem background_flag_ignored (fuel : nat) (sched : schedule)
    (ai : ANSImage) (f : Z) (Hmode : dithering ai = NoDithering) :
  ANSImage_RenderExt fuel sched ai f true
  = ANSImage_RenderExt fuel sched ai f false.
Proof.
  unfold ANSImage_RenderExt. rewrite Hmode, Z.eqb_refl.
  destruct (make_rows (Z.quot (h ai) 2)) as [rows| |]; simpl; auto.
  rewrite (windows_ext (fun r => pair_worker ai f true r (2 * r))
                       (fun r => pair_worker ai f false r (2 * r)));
    [reflexivity|].
  intros r. unfold pair_worker. f_equal.
  apply for_loop_ext. intros x s.
  unfold ANSIpixel_RenderExt. rewrite Hmode, Z.eqb_refl. reflexivity.
Qed.

Lemma background_flag_ignored_witness :
  ANSImage_RenderExt 4 id img42 0 true = ANSImage_RenderExt 4 id img42 0 false.
Proof. apply (background_flag_ignored 4 id img42 0). reflexivity. Defined.

(** ** Rendering outside its precondition *)

Lemma window_first (mp y r0 : Z) (more : Z -> bool) :
  0 <= mp -> more r0 = true ->
  exists rest, window mp y more r0 = r0 :: rest.
Proof.
  intros Hmp Hmore. unfold window.
  replace (Z.to_nat (mp + 1)) with (S (Z.to_nat mp)) by lia.
  cbn [window_from]. destruct (Z.leb_spec 0 mp); [|lia]. rewrite Hmore.
  simpl. eauto.
Qed.

Lemma windows_first_panic (fuel : nat) (sched : schedule) (ai : ANSImage)
    (work : Z -> outcome renderData) (more : Z -> bool) (first : Z -> Z)
    (rows : list string) (p : panic_value) :
  (1 <= fuel)%nat -> 0 < h ai -> 0 <= maxprocs ai ->
  more (first 0) = true -> work (first 0) = Panic p ->
  windows fuel sched ai work more first 0 rows = Panic p.
Proof.
  intros Hfuel Hh Hmp Hmore Hwork. destruct fuel as [|k]; [lia|].
  cbn [windows]. destruct (Z.ltb_spec 0 (h ai)); [|lia].
  destruct (Z.ltb_spec (maxprocs ai) 0); [lia|].
  destruct (window_first (maxprocs ai) 0 (first 0) more Hmp Hmore) as [rest ->].
  cbn [each]. rewrite Hwork. reflexivity.
Qed.

Lemma for_loop_first_panic {S : Type} (n : nat) (x0 : Z)
    (body : Z -> S -> outcome S) (s : S) (p : panic_value) :
  (1 <= n)%nat -> body x0 s = Panic p -> for_loop n x0 body s = Panic p.
Proof.
  intros Hn Hbody. destruct n as [|n]; [lia|]. cbn [for_loop].
  rewrite Hbody. reflexivity.
Qed.

(** [New] accepts a dithering mode that is none of the three known ones,
    and every [RenderExt] of such an image panics with
    [errUnknownDitheringMode], in the first cell it renders. *)
Theorem render_unknown_mode (hh ww frameCount : Z) (bg : Color)
    (dm : DitheringMode) (ai : ANSImage) (fuel : nat) (sched : schedule)
    (f : Z) (disableBgColor : bool)
    (HNew : New hh ww frameCount bg dm = Return (Some ai, None))
    (Hdm : dm <> NoDithering /\ dm <> DitheringWithBlocks /\
           dm <> DitheringWithChars)
    (Hf : 0 <= f < frameCount) (Hfuel : (1 <= fuel)%nat) :
  ANSImage_RenderExt fuel sched ai f disableBgColor
  = Panic (PanicError errUnknownDitheringMode).
Proof.
  destruct Hdm as (Hd0 & Hd1 & Hd2).
  pose proof (New_cell hh ww frameCount bg dm ai f 0 0 HNew Hf) as Hcell.
  pose proof HNew as HN'.
  apply New_Return in HN' as (Hh & Hw & Hfc & _ & Hai).
  assert (Eh : h ai = hh) by (rewrite Hai; reflexivity).
  assert (Ew : w ai = ww) by (rewrite Hai; reflexivity).
  assert (Emp : maxprocs ai = 1) by (rewrite Hai; reflexivity).
  assert (Ed : dithering ai = dm) by (rewrite Hai; reflexivity).
  unfold ANSImage_RenderExt. rewrite Ed.
  destruct (Z.eqb_spec dm NoDithering); [contradiction|].
  unfold make_rows. destruct (Z.ltb_spec (h ai) 0); [lia|].
  cbn [mbind outcome_bind].
  assert (Hwork : row_worker ai f disableBgColor 0
                  = Panic (PanicError errUnknownDitheringMode)).
  { unfold row_worker.
    rewrite (for_loop_first_panic (Z.to_nat (w ai)) 0 _ _
               (PanicError errUnknownDitheringMode)); [reflexivity | lia |].
    rewrite Hcell by lia. cbn [mbind outcome_bind].
    unfold ANSIpixel_RenderExt. rewrite Ed.
    destruct (Z.eqb_spec dm NoDithering); [contradiction|].
    destruct (Z.eqb_spec dm DitheringWithBlocks); [contradiction|].
    destruct (Z.eqb_spec dm DitheringWithChars); [contradiction|].
    reflexivity. }
  assert (Hmore : (0 + 1 <? h ai) = true) by (apply Z.ltb_lt; lia).
  rewrite (windows_first_panic fuel sched ai
             (fun r => row_worker ai f disableBgColor r)
             (fun r => r + 1 <? h ai) (fun y => y) _ _ Hfuel
             ltac:(lia) ltac:(lia) Hmore Hwork).
  reflexivity.
Qed.

Lemma render_unknown_mode_witness :
  ANSImage_RenderExt 1 id (built (New 2 2 1 black 7)) 0 false
  = Panic (PanicError errUnknownDitheringMode).
Proof.
  apply (render_unknown_mode 2 2 1 black 7 (built (New 2 2 1 black 7)) 1 id 0 false).
  - reflexivity.
  - repeat split; discriminate.
  - lia.
  - lia.
Defined.

(** [RenderExt] does not check the frame index either: with a frame
    outside [0, FrameCount()) the first worker panics (index out of
    range), as soon as there is a row to render. *)
Theorem render_frame_unchecked (ai : ANSImage) (fuel : nat) (sched : schedule)
    (f : Z) (disableBgColor : bool)
    (Hmode : dithering ai = NoDithering \/
             dithering ai = DitheringWithBlocks \/
             dithering ai = DitheringWithChars)
    (Hf : ~ (0 <= f < FrameCount ai))
    (Hh : 4 <= h ai) (Hw : 1 <= w ai) (Hprocs : 0 <= maxprocs ai)
    (Hfuel : (1 <= fuel)%nat) :
  ANSImage_RenderExt fuel sched ai f disableBgColor = Panic IndexOutOfRange.
Proof.
  assert (Hcell : forall y x, cell ai f y x = Panic IndexOutOfRange).
  { intros y x. unfold cell. rewrite index_out_of_range by exact Hf. reflexivity. }
  unfold ANSImage_RenderExt. destruct Hmode as [Hm | Hm].
  - rewrite Hm, Z.eqb_refl. unfold make_rows.
    pose proof (Z.quot_pos (h ai) 2 ltac:(lia) ltac:(lia)).
    destruct (Z.ltb_spec (Z.quot (h ai) 2) 0); [lia|]. cbn [mbind outcome_bind].
    assert (Hwork : pair_worker ai f disableBgColor (0 + 1) (2 * (0 + 1))
                    = Panic IndexOutOfRange).
    { unfold pair_worker.
      rewrite (for_loop_first_panic (Z.to_nat (w ai)) 0 _ _ IndexOutOfRange);
        [reflexivity | lia |].
      rewrite (Hcell (2 * (0 + 1)) 0). reflexivity. }
    assert (Hmore : (2 * (0 + 1) + 1 <? h ai) = true) by (apply Z.ltb_lt; lia).
    rewrite (windows_first_panic fuel sched ai
               (fun r => pair_worker ai f disableBgColor r (2 * r))
               (fun r => 2 * r + 1 <? h ai) (fun y => y + 1) _ _ Hfuel
               ltac:(lia) Hprocs Hmore Hwork).
    reflexivity.
  - replace (dithering ai =? NoDithering) with false
      by (destruct Hm as [-> | ->]; reflexivity).
    unfold make_rows. destruct (Z.ltb_spec (h ai) 0); [lia|].
    cbn [mbind outcome_bind].
    assert (Hwork : row_worker ai f disableBgColor 0 = Panic IndexOutOfRange).
    { unfold row_worker.
      rewrite (for_loop_first_panic (Z.to_nat (w ai)) 0 _ _ IndexOutOfRange);
        [reflexivity | lia |].
      rewrite Hcell. reflexivity. }
    assert (Hmore : (0 + 1 <? h ai) = true) by (apply Z.ltb_lt; lia).
    rewrite (windows_first_panic fuel sched ai
               (fun r => row_worker ai f disableBgColor r)
               (fun r => r + 1 <? h ai) (fun y => y) _ _ Hfuel
               ltac:(lia) Hprocs Hmore Hwork).
    reflexivity.
Qed.

Lemma render_frame_unchecked_witness :
  ANSImage_RenderExt 1 id img42 1 false = Panic IndexOutOfRange.
Proof.
  apply (render_frame_unchecked img42 1 id 1 false).
  - left. reflexivity.
  - vm_compute. intuition discriminate.
  - vm_compute. discriminate.
  - vm_compute. discriminate.
  - vm_compute. discriminate.
  - lia.
Defined.

(** ** The number of workers *)

Lemma window_zero (y r0 : Z) (more : Z -> bool) :
  window 0 y more r0 = if more r0 then [r0] else [].
Proof. unfold window. simpl. destruct (more r0); reflexivity. Qed.

Lemma windows_spin (sched : schedule) (ai : ANSImage)
    (work : Z -> outcome renderData) (more : Z -> bool) (first : Z -> Z)
    (n : nat) (y : Z) :
  fair sched -> maxprocs ai = 0 -> y < h ai ->
  (more (first y) = true ->
   exists d, work (first y) = Return d /\ 0 <= row d < Z.of_nat n) ->
  forall fuel rows,
    length rows = n ->
    windows fuel sched ai work more first y rows = OutOfFuel.
Proof.
  intros Hfair Hmp Hy Hwork. induction fuel as [|k IH]; intros rows Hlen.
  - cbn [windows]. destruct (Z.ltb_spec y (h ai)); [reflexivity | lia].
  - cbn [windows]. destruct (Z.ltb_spec y (h ai)); [|lia].
    rewrite Hmp, window_zero, Z.add_0_r. change (0 <? 0) with false. cbv iota.
    destruct (more (first y)) eqn:Emore.
    + destruct (Hwork eq_refl) as (d & Ed & Hd).
      cbn [each]. rewrite Ed. cbn [mbind outcome_bind].
      rewrite (Permutation_length_1_inv (Hfair [d])).
      cbn [fold_outcome]. unfold collect.
      rewrite store_in_range by lia. cbn [mbind outcome_bind].
      apply IH. rewrite length_insert. exact Hlen.
    + cbn [each mbind outcome_bind].
      rewrite (Permutation_nil (Hfair [])).
      cbn [fold_outcome mbind outcome_bind]. apply IH. exact Hlen.
Qed.

(** [RenderExt] returns only with at least one worker.  After
    [SetMaxProcs(0)] the loop over the windows never advances, so the call
    does not return, whatever the fuel; after [SetMaxProcs] with a
    negative number the call panics when it makes the channel. *)
Theorem render_needs_workers (ai : ANSImage) (f : Z) (disableBgColor : bool)
    (sched : schedule)
    (Hreach : reachable ai)
    (Hmode : dithering ai = NoDithering \/
             dithering ai = DitheringWithBlocks \/
             dithering ai = DitheringWithChars)
    (Hf : 0 <= f < FrameCount ai) (Hh : 1 <= h ai) (Hfair : fair sched) :
  (forall fuel,
     ANSImage_RenderExt fuel sched (SetMaxProcs ai 0) f disableBgColor
     = OutOfFuel) /\
  (forall max fuel, max < 0 -> (1 <= fuel)%nat ->
     ANSImage_RenderExt fuel sched (SetMaxProcs ai max) f disableBgColor
     = Panic MakeChanSizeOutOfRange).
Proof.
  split.
  - intros fuel.
    pose proof (reachable_wf _ (reach_SetMaxProcs ai 0 Hreach)) as Hwf.
    set (ai0 := SetMaxProcs ai 0) in *.
    assert (Eh : h ai0 = h ai) by reflexivity.
    assert (Ed : dithering ai0 = dithering ai) by reflexivity.
    assert (Hf0 : 0 <= f < FrameCount ai0) by exact Hf.
    unfold ANSImage_RenderExt. rewrite Ed. destruct Hmode as [Hm | Hm].
    + rewrite Hm, Z.eqb_refl. rewrite Z.quot_div_nonneg by lia.
      pose proof (Z.div_mod (h ai0) 2 ltac:(lia)) as Hdm.
      pose proof (Z.mod_pos_bound (h ai0) 2 ltac:(lia)) as Hmod.
      unfold make_rows. destruct (Z.ltb_spec (h ai0 / 2) 0); [lia|].
      cbn [mbind outcome_bind].
      rewrite (windows_spin sched ai0 _ _ _ (Z.to_nat (h ai0 / 2)) 0 Hfair
                 eq_refl); [reflexivity | lia | | apply length_replicate].
      intros Hmore. apply Z.ltb_lt in Hmore.
      assert (Hy1 : 2 * (0 + 1) + 1 < h ai0) by lia.
      destruct (pair_worker_total ai0 f disableBgColor (0 + 1) (2 * (0 + 1))
                  Hwf Hm Hf0 ltac:(lia) Hy1) as (d & Hd & Hrow).
      exists d. split; [exact Hd | lia].
    + replace (dithering ai =? NoDithering) with false
        by (destruct Hm as [-> | ->]; reflexivity).
      unfold make_rows. destruct (Z.ltb_spec (h ai0) 0); [lia|].
      cbn [mbind outcome_bind].
      rewrite (windows_spin sched ai0 _ _ _ (Z.to_nat (h ai0)) 0 Hfair
                 eq_refl); [reflexivity | lia | | apply length_replicate].
      intros Hmore. apply Z.ltb_lt in Hmore.
      assert (Hy0 : 0 <= 0 < h ai0) by lia.
      destruct (row_worker_total ai0 f disableBgColor 0 Hwf Hm Hf0 Hy0)
        as (d & Hd & Hrow).
      exists d. split; [exact Hd | lia].
  - intros max fuel Hmax Hfuel. destruct fuel as [|k]; [lia|].
    unfold ANSImage_RenderExt.
    change (dithering (SetMaxProcs ai max)) with (dithering ai).
    change (h (SetMaxProcs ai max)) with (h ai).
    pose proof (Z.quot_pos (h ai) 2 ltac:(lia) ltac:(lia)).
    unfold make_rows.
    destruct (dithering ai =? NoDithering).
    + destruct (Z.ltb_spec (Z.quot (h ai) 2) 0); [lia|].
      cbn [mbind outcome_bind windows].
      change (h (SetMaxProcs ai max)) with (h ai).
      change (maxprocs (SetMaxProcs ai max)) with max.
      destruct (Z.ltb_spec 0 (h ai)); [|lia].
      destruct (Z.ltb_spec max 0); [reflexivity | lia].
    + destruct (Z.ltb_spec (h ai) 0); [lia|].
      cbn [mbind outcome_bind windows].
      change (h (SetMaxProcs ai max)) with (h ai).
      change (maxprocs (SetMaxProcs ai max)) with max.
      destruct (Z.ltb_spec 0 (h ai)); [|lia].
      destruct (Z.ltb_spec max 0); [reflexivity | lia].
Qed.

Lemma render_needs_workers_witness :
  ANSImage_RenderExt 100 id (SetMaxProcs img42 0) 0 false = OutOfFuel /\
  ANSImage_RenderExt 1 id (SetMaxProcs img42 (-1)) 0 false
  = Panic MakeChanSizeOutOfRange.
Proof.
  assert (Hid : fair id) by (intros l; apply Permutation_refl).
  destruct (render_needs_workers img42 0 false id img42_reachable
              (or_introl eq_refl)) as [Hspin Hpanic].
  - vm_compute. intuition discriminate.
  - vm_compute. discriminate.
  - exact Hid.
  - split; [apply Hspin | apply Hpanic; lia].
Defined.

(** ** The playback loop *)

(** For an image with at least one frame the loop of the handler shows
    the frames in order and starts over after the last one: in round [n]
    it is at frame [n mod FrameCount()].  The index it passes is always
    inside [0, FrameCount()), so [FrameDelay] returns in every round. *)
Theorem playback_cycles (ai : ANSImage) (Hreach : reachable ai)
    (Hframes : 1 <= FrameCount ai) (n : nat) :
  cursor ai n = Z.of_nat n mod FrameCount ai /\
  0 <= cursor ai n < FrameCount ai /\
  exists d, FrameDelay ai (cursor ai n) = Return d.
Proof.
  assert (Hmod : cursor ai n = Z.of_nat n mod FrameCount ai).
  { induction n as [|n IH].
    - simpl. rewrite Z.mod_0_l by lia. reflexivity.
    - cbn [cursor]. unfold next_frame. rewrite IH.
      pose proof (Z.mod_pos_bound (Z.of_nat n) (FrameCount ai) ltac:(lia)) as Hb.
      replace (Z.of_nat (S n)) with (Z.of_nat n + 1) by lia.
      assert (E : (Z.of_nat n + 1) mod FrameCount ai
                  = (Z.of_nat n mod FrameCount ai + 1) mod FrameCount ai)
        by (rewrite Z.add_mod_idemp_l by lia; reflexivity).
      rewrite E. clear E IH.
      set (m := Z.of_nat n mod FrameCount ai) in *.
      destruct (Z.leb_spec (FrameCount ai) (m + 1)).
      + replace (m + 1) with (FrameCount ai) by lia.
        rewrite Z.mod_same by lia. reflexivity.
      + rewrite Z.mod_small by lia. reflexivity. }
  pose proof (Z.mod_pos_bound (Z.of_nat n) (FrameCount ai) ltac:(lia)) as Hb.
  split; [exact Hmod|]. split; [rewrite Hmod; exact Hb|].
  apply FrameDelay_total; [apply reachable_wf; exact Hreach | rewrite Hmod; exact Hb].
Qed.

Lemma playback_cycles_witness :
  cursor (built (New 2 2 3 black NoDithering)) 4 = 1 /\
  exists d, FrameDelay (built (New 2 2 3 black NoDithering)) (cursor (built (New 2 2 3 black NoDithering)) 4) = Return d.
Proof.
  assert (Hr : reachable (built (New 2 2 3 black NoDithering)))
    by (eapply (reach_New 2 2 3 black NoDithering); reflexivity).
  destruct (playback_cycles (built (New 2 2 3 black NoDithering)) Hr
              ltac:(vm_compute; discriminate) 4) as (Hc & _ & Hd).
  split; [rewrite Hc; reflexivity | exact Hd].
Defined.

(** ** Building an image without dithering *)

Lemma for_loop_inv {T : Type} (P : Z -> T -> Prop) (body : Z -> T -> outcome T)
    (n : nat) :
  forall x0 s,
    P x0 s ->
    (forall x s, x0 <= x < x0 + Z.of_nat n -> P x s ->
       exists s', body x s = Return s' /\ P (x + 1) s') ->
    exists s', for_loop n x0 body s = Return s' /\ P (x0 + Z.of_nat n) s'.
Proof.
  induction n as [|n IH]; intros x0 s HP Hstep.
  - exists s. split; [reflexivity|]. replace (x0 + Z.of_nat 0) with x0 by lia.
    exact HP.
  - cbn [for_loop]. destruct (Hstep x0 s ltac:(lia) HP) as (s1 & -> & HP1).
    cbn [mbind outcome_bind].
    destruct (IH (x0 + 1) s1 HP1) as (s' & E & HP').
    + intros x s2 Hx. apply Hstep. lia.
    + exists s'. split; [exact E|].
      replace (x0 + Z.of_nat (S n)) with (x0 + 1 + Z.of_nat n) by lia. exact HP'.
Qed.

Lemma same_shape_refl (a : ANSImage) : wf a -> same_shape a a.
Proof. intros Hwf. unfold same_shape. tauto. Qed.

Lemma copied_into_ext (a : ANSImage) (f : Z) (rgbaOut : Image)
    (region region' : Z -> Z -> Prop) (b : ANSImage) :
  (forall y x, region y x <-> region' y x) ->
  copied_into a f rgbaOut region b -> copied_into a f rgbaOut region' b.
Proof.
  intros Hext [Hshape Hcells]. split; [exact Hshape|].
  intros f2 y2 x2. destruct (Hcells f2 y2 x2) as [Hin Hout]. split.
  - intros [Hf Hr]. apply Hin. split; [exact Hf | apply Hext; exact Hr].
  - intros Hn. apply Hout. intros [Hf Hr]. apply Hn.
    split; [exact Hf | apply Hext; exact Hr].
Qed.

(** One [SetAt] of the quantizer adds its cell to the region. *)
Lemma copy_step (a : ANSImage) (f : Z) (rgbaOut : Image)
    (yMin xMin xMax y x : Z) (b : ANSImage) :
  dithering a = NoDithering -> 0 <= f < FrameCount a ->
  0 <= yMin <= y -> y < h a -> 0 <= xMin <= x -> x < xMax -> xMax <= w a ->
  copied_into a f rgbaOut (filled yMin xMin xMax y x) b ->
  exists b',
    checked (SetAt b f y x (pR (At rgbaOut x y)) (pG (At rgbaOut x y))
               (pB (At rgbaOut x y)) 0) = Return (inl b') /\
    copied_into a f rgbaOut (filled yMin xMin xMax y (x + 1)) b'.
Proof.
  intros Hmode Hf Hy Hyh Hx Hxm Hxw [Hshape Hcells].
  destruct Hshape as (Hwf & Hh & Hw & Hd & Hmp & Hdl & HR & HG & HB & HFC).
  destruct (SetAt_inside b f y x (pR (At rgbaOut x y)) (pG (At rgbaOut x y))
              (pB (At rgbaOut x y)) 0 Hwf)
    as (b' & E & Hwf' & Hh' & Hw' & Hd' & Hmp' & Hdl' & HR' & HG' & HB' & HFC' & Hc');
    try lia.
  exists b'. unfold checked. rewrite E. split; [reflexivity|]. split.
  - unfold same_shape. split; [exact Hwf'|]. repeat split; congruence.
  - intros f2 y2 x2. rewrite Hc'. destruct (Hcells f2 y2 x2) as [Hin Hout].
    destruct (Z.eqb_spec f2 f) as [Ef|Ef]; destruct (Z.eqb_spec y2 y) as [Ey|Ey];
      destruct (Z.eqb_spec x2 x) as [Ex|Ex]; cbn [andb]; split;
      unfold filled in *; intros Hcase;
      first [ subst; rewrite Hd, Hmode; reflexivity
            | apply Hin; lia
            | apply Hout; lia
            | exfalso; apply Hcase; lia
            | idtac ].
Qed.

(** The quantizer without dithering, on any region inside the grid: it
    returns the image with exactly the cells of the region of that frame
    copied from the buffer. *)
Lemma quantize_copy (MakeColor : RGBA -> FColor) (Hsv_v : FColor -> f64)
    (a : ANSImage) (f : Z) (rgbaOut : Image) (yMin xMin yMax xMax : Z) :
  wf a -> dithering a = NoDithering -> 0 <= f < FrameCount a ->
  0 <= yMin -> 0 <= xMin -> yMax <= h a -> xMax <= w a ->
  exists b,
    quantize MakeColor Hsv_v NoDithering a f rgbaOut yMin xMin yMax xMax
    = Return (inl b) /\
    copied_into a f rgbaOut
      (fun y x => yMin <= y < yMax /\ xMin <= x < xMax) b.
Proof.
  intros Hwf Hmode Hf HyMin HxMin HyMax HxMax. unfold quantize.
  destruct (for_loop_inv
              (fun y (s : ANSImage + error) =>
                 exists b, s = inl b /\
                   copied_into a f rgbaOut (filled yMin xMin xMax y xMin) b)
              (fun y s =>
                 for_loop (Z.to_nat (xMax - xMin)) xMin
                   (fun x s => guarded s (fun ai =>
                      if NoDithering =? NoDithering then
                        let v := At rgbaOut x y in
                        checked (SetAt ai f y x (pR v) (pG v) (pB v) 0)
                      else
                        '(r, g, b, brightness) ← quantize_block MakeColor Hsv_v rgbaOut y x;
                        checked (SetAt ai f y x r g b brightness)))
                   s)
              (Z.to_nat (yMax - yMin)) yMin (inl a))
    as (s' & E & b & -> & Hb).
  - exists a. split; [reflexivity|]. split; [apply same_shape_refl; exact Hwf|].
    intros f2 y2 x2. unfold filled. split; [intros; exfalso; lia | reflexivity].
  - intros y s Hy (b & -> & Hb).
    destruct (for_loop_inv
                (fun x (s : ANSImage + error) =>
                   exists b, s = inl b /\
                     copied_into a f rgbaOut (filled yMin xMin xMax y x) b)
                (fun x s => guarded s (fun ai =>
                   if NoDithering =? NoDithering then
                     let v := At rgbaOut x y in
                     checked (SetAt ai f y x (pR v) (pG v) (pB v) 0)
                   else
                     '(r, g, b, brightness) ← quantize_block MakeColor Hsv_v rgbaOut y x;
                     checked (SetAt ai f y x r g b brightness)))
                (Z.to_nat (xMax - xMin)) xMin (inl b))
      as (s' & E & b' & -> & Hb').
    + exists b. split; [reflexivity | exact Hb].
    + intros x s Hx (b1 & -> & Hb1). cbn [guarded].
      change (NoDithering =? NoDithering) with true. cbv iota zeta.
      destruct (copy_step a f rgbaOut yMin xMin xMax y x b1 Hmode Hf)
        as (b2 & E2 & Hb2); try lia; [exact Hb1|].
      exists (inl b2). split; [exact E2|]. exists b2. split; [reflexivity | exact Hb2].
    + exists (inl b'). split; [exact E|]. exists b'. split; [reflexivity|].
      eapply copied_into_ext; [|exact Hb'].
      intros y2 x2. unfold filled. lia.
  - exists b. split; [exact E|].
    eapply copied_into_ext; [|exact Hb].
    intros y2 x2. unfold filled. lia.
Qed.

Section FrameLoop.

Variable drawOverUniform : Color -> Image -> Image.
Variable drawSrc : Image -> Image.
Variable MakeColor : RGBA -> FColor.
Variable Hsv_v : FColor -> f64.
Variable g : gifProxy.
Variable bg : Color.
Variable dflt : Image.
Variables yMin xMin yMax xMax : Z.

Hypothesis HyMin : 0 <= yMin.
Hypothesis HxMin : 0 <= xMin.
Hypothesis Heven : Z.rem yMax 2 = 0.
Hypothesis Hdelays : (length (gp_image g) <= length (gp_delay g))%nat.

Local Abbreviation rgba_of := (composite drawOverUniform drawSrc bg).
Local Abbreviation upto :=
  (built_upto rgba_of (gp_image g) dflt (gp_delay g) yMin xMin yMax xMax).

Lemma frame_step (k : Z) (img : Image) (ai : ANSImage) :
  0 <= k < Z.of_nat (length (gp_image g)) ->
  nth (Z.to_nat k) (gp_image g) dflt = img ->
  upto k ai ->
  exists ai',
    frame_body drawOverUniform drawSrc MakeColor Hsv_v g bg NoDithering
      yMin xMin (inl (ai, yMax, xMax)) (k, img)
    = Return (inl (ai', yMax, xMax)) /\
    upto (k + 1) ai'.
Proof.
  intros Hk Himg (Hwf & Hh & Hw & Hd & HFC & Hcells & Hdel).
  cbn [frame_body].
  destruct (index_in_range (gp_delay g) k) as [d Ed]; [lia|].
  rewrite Ed. cbn [mbind outcome_bind].
  assert (Hdn : nth (Z.to_nat k) (gp_delay g) 0 = d).
  { apply index_Return in Ed as [_ Ed]. rewrite nth_lookup, Ed. reflexivity. }
  assert (Hlen : Z.of_nat (length (delay ai)) = Z.of_nat (length (gp_image g))).
  { destruct Hwf as [_ Hl]. rewrite Hl. exact HFC. }
  rewrite store_in_range by lia. cbn [mbind outcome_bind].
  unfold truncate. change (NoDithering =? NoDithering) with true. cbv iota.
  rewrite Heven, Z.sub_0_r.
  set (ai1 := set_delay ai (<[Z.to_nat k := d]> (delay ai))).
  assert (Hwf1 : wf ai1).
  { destruct Hwf as [Hfr Hl]. split; [exact Hfr|].
    unfold ai1. cbn [delay frame set_delay]. rewrite length_insert. exact Hl. }
  destruct (quantize_copy MakeColor Hsv_v ai1 k (rgba_of img) yMin xMin yMax xMax
              Hwf1 Hd) as (b & Eq & Hshape & Hb); try (unfold ai1; simpl; lia);
    try assumption.
  { unfold FrameCount in *. unfold ai1. cbn [frame set_delay]. lia. }
  rewrite Eq. cbn [mbind outcome_bind].
  exists b. split; [reflexivity|].
  destruct Hshape as (Hwfb & Hhb & Hwb & Hdb & Hmb & Hdlb & _ & _ & _ & HFCb).
  split; [exact Hwfb|]. split; [rewrite Hhb; exact Hh|].
  split; [rewrite Hwb; exact Hw|]. split; [rewrite Hdb; exact Hd|].
  split; [rewrite HFCb; exact HFC|]. split.
  - intros f y x Hf Hy Hx. destruct (Hb f y x) as [Hin Hout].
    unfold expected_cell.
    destruct (Z.eq_dec f k) as [-> | Hfk].
    + destruct (Z.leb_spec yMin y); destruct (Z.ltb_spec y yMax);
        destruct (Z.leb_spec xMin x); destruct (Z.ltb_spec x xMax);
        destruct (Z.ltb_spec k (k + 1)); try lia; cbn [andb];
        try (rewrite Hin by lia; rewrite Himg; reflexivity);
        (rewrite Hout by lia;
         change (cell ai1 k y x) with (cell ai k y x);
         rewrite Hcells by lia; unfold expected_cell;
         destruct (Z.ltb_spec k k); [lia | reflexivity]).
    + rewrite Hout by tauto.
      change (cell ai1 f y x) with (cell ai f y x).
      rewrite Hcells by lia. unfold expected_cell.
      destruct (Z.ltb_spec f k); destruct (Z.ltb_spec f (k + 1)); try lia;
        reflexivity.
  - intros f Hf. rewrite Hdlb. unfold ai1. cbn [delay set_delay].
    rewrite index_insert by lia. unfold expected_delay.
    destruct (Z.eqb_spec f k) as [-> | Hfk].
    + destruct (Z.ltb_spec k (k + 1)); [|lia]. rewrite Hdn. reflexivity.
    + rewrite Hdel by lia. unfold expected_delay.
      destruct (Z.ltb_spec f k); destruct (Z.ltb_spec f (k + 1)); try lia;
        reflexivity.
Qed.

Lemma frames_fold (l : list Image) :
  forall k ai,
    0 <= k -> k + Z.of_nat (length l) = Z.of_nat (length (gp_image g)) ->
    (forall j img, l !! j = Some img ->
       nth (Z.to_nat k + j) (gp_image g) dflt = img) ->
    upto k ai ->
    exists ai',
      fold_outcome
        (frame_body drawOverUniform drawSrc MakeColor Hsv_v g bg NoDithering
           yMin xMin)
        (inl (ai, yMax, xMax)) (enumerate_from k l)
      = Return (inl (ai', yMax, xMax)) /\
      upto (Z.of_nat (length (gp_image g))) ai'.
Proof.
  induction l as [|img l IH]; intros k ai Hk Hlen Hnth Hai.
  - exists ai. split; [reflexivity|].
    cbn [length] in Hlen. replace (Z.of_nat (length (gp_image g))) with k by lia.
    exact Hai.
  - cbn [enumerate_from fold_outcome]. cbn [length] in Hlen.
    destruct (frame_step k img ai) as (ai1 & E1 & Hai1); [lia | | exact Hai |].
    { specialize (Hnth 0%nat img eq_refl). rewrite Nat.add_0_r in Hnth. exact Hnth. }
    rewrite E1. cbn [mbind outcome_bind].
    apply IH; [lia | lia | | exact Hai1].
    intros j img' Hj. specialize (Hnth (S j) img' Hj).
    replace (Z.to_nat (k + 1) + j)%nat with (Z.to_nat k + S j)%nat by lia.
    exact Hnth.
Qed.

End FrameLoop.

Section CreateWithoutDithering.

Variable drawOverUniform : Color -> Image -> Image.
Variable drawSrc : Image -> Image.
Variable MakeColor : RGBA -> FColor.
Variable Hsv_v : FColor -> f64.

Local Abbreviation create :=
  (createANSImage drawOverUniform drawSrc MakeColor Hsv_v).
Local Abbreviation rgba_of := (composite drawOverUniform drawSrc).

(** Without dithering, for frames whose bounds start at or after (0, 0)
    and end at an even height of at least 2 and a width of at least 2,
    with a delay for every frame, [createANSImage] returns an image of
    the height and width of the first frame's bounds with one frame per
    source frame; every frame keeps its delay, and every cell inside the
    bounds of the first frame is the pixel of its composited frame at
    that place, with brightness 0, and a cell before the bounds is as
    [New] left it. *)
Theorem createANSImage_copies (g : gifProxy) (bg : Color) (img0 : Image)
    (rest : list Image)
    (Himages : gp_image g = img0 :: rest)
    (Hdelays : (length (gp_image g) <= length (gp_delay g))%nat)
    (HyMin : 0 <= minY img0) (HxMin : 0 <= minX img0)
    (Hh : 2 <= maxY img0) (Heven : Z.rem (maxY img0) 2 = 0)
    (Hw : 2 <= maxX img0) :
  exists ai,
    create g bg NoDithering = Return (Some ai, None) /\
    Height ai = maxY img0 /\ Width ai = maxX img0 /\
    FrameCount ai = Z.of_nat (length (gp_image g)) /\
    forall f, 0 <= f < FrameCount ai ->
      FrameDelay ai f = Return (nth (Z.to_nat f) (gp_delay g) 0) /\
      forall y x, 0 <= y < maxY img0 -> 0 <= x < maxX img0 ->
        GetAt ai f y x
        = Return (Some (if (minY img0 <=? y) && (minX img0 <=? x)
                        then copied (At (rgba_of bg (nth (Z.to_nat f) (gp_image g) img0)) x y) y
                        else zero_cell NoDithering y),
                  None).
Proof.
  set (N := Z.of_nat (length (gp_image g))).
  assert (HN : New (maxY img0) (maxX img0) N bg NoDithering
               = Return (Some (mkANSImage (maxY img0) (maxX img0) 1
                                 (uint8 (cR bg)) (uint8 (cG bg)) (uint8 (cB bg))
                                 NoDithering
                                 (replicate (Z.to_nat N)
                                    (newFrame (maxY img0) (maxX img0) NoDithering))
                                 (replicate (Z.to_nat N) 0)), None)).
  { unfold New. rewrite Z.eqb_refl, Heven. cbn [Z.eqb negb andb].
    replace ((maxY img0 <? 2) || (maxX img0 <? 2)) with false
      by (symmetry; apply orb_false_iff; split; apply Z.ltb_ge; lia).
    destruct (Z.ltb_spec N 0); [unfold N in *; lia | reflexivity]. }
  set (ai0 := mkANSImage _ _ _ _ _ _ _ _ _) in HN.
  assert (H0 : built_upto (rgba_of bg) (gp_image g) img0 (gp_delay g)
                 (minY img0) (minX img0) (maxY img0) (maxX img0) 0 ai0).
  { split; [eapply New_wf; exact HN|].
    repeat (split; [reflexivity|]).
    split; [unfold FrameCount, ai0; cbn [frame]; rewrite length_replicate;
            unfold N; lia|].
    split.
    - intros f y x Hf Hy Hx.
      rewrite (New_cell _ _ _ _ _ _ f y x HN) by (unfold N; lia).
      unfold expected_cell. destruct (Z.ltb_spec f 0); [lia | reflexivity].
    - intros f Hf. unfold ai0. cbn [delay]. unfold expected_delay.
      destruct (Z.ltb_spec f 0); [lia|].
      apply index_Return. split; [lia|]. apply lookup_replicate_2. unfold N. lia. }
  destruct (frames_fold drawOverUniform drawSrc MakeColor Hsv_v g bg img0
              (minY img0) (minX img0) (maxY img0) (maxX img0)
              HyMin HxMin Heven Hdelays (gp_image g) 0 ai0)
    as (ai & Efold & Hwf & Hha & Hwa & Hda & HFC & Hcells & Hdel).
  - lia.
  - lia.
  - intros j img Hj. rewrite Nat.add_0_l, nth_lookup, Hj. reflexivity.
  - exact H0.
  - exists ai. split.
    + unfold createANSImage. rewrite Himages.
      change (index (img0 :: rest) 0) with (Return (A := Image) img0).
      cbn [mbind outcome_bind]. rewrite <- Himages. fold N. rewrite HN.
      cbn [mbind outcome_bind]. unfold enumerate. rewrite Efold. reflexivity.
    + split; [exact Hha|]. split; [exact Hwa|]. split; [exact HFC|].
      intros f Hf. rewrite HFC in Hf. split.
      * unfold FrameDelay. rewrite Hdel by exact Hf. unfold expected_delay.
        destruct (Z.ltb_spec f (Z.of_nat (length (gp_image g)))); [reflexivity | lia].
      * intros y x Hy Hx. rewrite GetAt_inside by lia.
        rewrite Hcells by lia. cbn [mbind outcome_bind]. unfold expected_cell.
        destruct (Z.ltb_spec f (Z.of_nat (length (gp_image g)))); [|lia].
        destruct (Z.ltb_spec y (maxY img0)); [|lia].
        destruct (Z.ltb_spec x (maxX img0)); [|lia].
        cbn [andb]. rewrite !andb_true_r.
        destruct ((minY img0 <=? y) && (minX img0 <=? x)); reflexivity.
Qed.

End CreateWithoutDithering.

Lemma createANSImage_copies_witness :
  exists ai,
    ex_createANSImage proxy1 black NoDithering = Return (Some ai, None) /\
    FrameCount ai = 1 /\
    FrameDelay ai 0 = Return 7 /\
    GetAt ai 0 1 0 = Return (Some (copied (mkRGBA 1 2 3 255) 1), None).
Proof.
  destruct (createANSImage_copies ex_drawOverUniform ex_rgba colorful_MakeColor
              colorful_V proxy1 black (uniform_image 2 2 (mkRGBA 1 2 3 255)) []
              eq_refl (le_n 1))
    as (ai & E & _ & _ & HFC & Hframes); try (simpl; lia); [reflexivity|].
  exists ai. split; [exact E|]. split; [exact HFC|].
  destruct (Hframes 0 ltac:(rewrite HFC; simpl; lia)) as [Hd Hc].
  split; [exact Hd|].
  apply (Hc 1 0); simpl; lia.
Defined.

(** ** Construction from a reader, without dithering *)

Lemma nth_insert_agree (pdelay Delay : list Z) (k d : Z) :
  0 <= k < Z.of_nat (length pdelay) ->
  nth (Z.to_nat k) Delay 0 = d ->
  (forall f, 0 <= f < k ->
     nth (Z.to_nat f) pdelay 0 = nth (Z.to_nat f) Delay 0) ->
  forall f, 0 <= f < k + 1 ->
    nth (Z.to_nat f) (<[Z.to_nat k := d]> pdelay) 0 = nth (Z.to_nat f) Delay 0.
Proof.
  intros Hk Hd Hagree f Hf. rewrite nth_lookup.
  destruct (Z.eq_dec f k) as [-> | Hne].
  - rewrite list_lookup_insert_eq by lia. simpl. symmetry. exact Hd.
  - rewrite list_lookup_insert_ne by lia. rewrite <- nth_lookup.
    apply Hagree. lia.
Qed.

Lemma index_nth (l : list Z) (k d : Z) :
  index l k = Return d -> nth (Z.to_nat k) l 0 = d.
Proof. intros E. apply index_Return in E as [_ E]. rewrite nth_lookup, E. reflexivity. Qed.

Lemma nth_replicate_same {A : Type} (n i : nat) (a : A) :
  nth i (replicate n a) a = a.
Proof. revert i. induction n as [|n IH]; intros [|i]; simpl; auto. Qed.

Section FromReaderWithoutDithering.

Variable drawOverUniform : Color -> Image -> Image.
Variable drawSrc : Image -> Image.
Variable MakeColor : RGBA -> FColor.
Variable Hsv_v : FColor -> f64.
Variable NewRGBA : Image -> Image.
Variable drawOver : Image -> Image -> Image.
Variable Resize : Image -> Z -> Z -> Image.
Variable Fill : Image -> Z -> Z -> Image.
Variable Fit : Image -> Z -> Z -> Image.
Variable Reader : Type.
Variable DecodeAll : Reader -> GIF + error.

Local Abbreviation rgba_of := (composite drawOverUniform drawSrc).

Lemma scaled_frames_length (sm : ScaleMode) (x y : Z) (l : list Image) :
  forall img,
    length (scaled_frames drawOver Resize Fill Fit sm x y img l) = length l.
Proof. induction l as [|a l IH]; intros img; simpl; auto. Qed.

Lemma scaled_fold_delays (gifImage : GIF) (y x : Z) (sm : ScaleMode)
    (l : list Image) :
  known sm ->
  forall k img pimage pdelay,
    0 <= k ->
    k + Z.of_nat (length l) <= Z.of_nat (length (gif_Delay gifImage)) ->
    length pdelay = length (gif_Delay gifImage) ->
    (forall f, 0 <= f < k ->
       nth (Z.to_nat f) pdelay 0 = nth (Z.to_nat f) (gif_Delay gifImage) 0) ->
    exists img' pdelay',
      fold_outcome (scaled_body drawOver Resize Fill Fit gifImage y x sm)
        (img, pimage, pdelay) (enumerate_from k l)
      = Return (img',
                pimage ++ scaled_frames drawOver Resize Fill Fit sm x y img l,
                pdelay') /\
      length pdelay' = length (gif_Delay gifImage) /\
      forall f, 0 <= f < k + Z.of_nat (length l) ->
        nth (Z.to_nat f) pdelay' 0 = nth (Z.to_nat f) (gif_Delay gifImage) 0.
Proof.
  intros Hsm. induction l as [|a l IH]; intros k img pimage pdelay Hk Hlen Hpd Hag.
  - exists img, pdelay. simpl. rewrite app_nil_r. split; [reflexivity|].
    split; [exact Hpd|]. intros f Hf. apply Hag. lia.
  - cbn [enumerate_from fold_outcome scaled_body length] in *.
    destruct (index_in_range (gif_Delay gifImage) k) as [d Ed]; [lia|].
    rewrite Ed. cbn [mbind outcome_bind].
    rewrite store_in_range by lia. cbn [mbind outcome_bind].
    rewrite (scale_of_known Resize Fill Fit) by exact Hsm.
    cbn [mbind outcome_bind].
    destruct (IH (k + 1) (drawOver img a)
                (pimage ++ [scale_known Resize Fill Fit sm (drawOver img a) x y])
                (<[Z.to_nat k := d]> pdelay)) as (img' & pdelay' & E & Hl' & Hag').
    + lia.
    + lia.
    + rewrite length_insert. exact Hpd.
    + apply nth_insert_agree; [lia | apply index_nth; exact Ed | exact Hag].
    + exists img', pdelay'. rewrite E. rewrite <- app_assoc.
      split; [reflexivity|]. split; [exact Hl'|].
      intros f Hf. apply Hag'. lia.
Qed.

(** [NewScaledFromReader] with a known scale mode and without dithering:
    when the first scaled frame has bounds from (0, 0) or later to an even
    height of at least 2 and a width of at least 2, the image has those
    bounds as height and width and one frame per frame of the GIF; every
    frame keeps the delay of the GIF, and its cells inside the bounds are
    the pixels of the scaled frame: the frames of the GIF drawn one over
    the other up to this one, scaled, and composited with the background. *)
Theorem NewScaledFromReader_builds (reader : Reader) (gifImage : GIF)
    (first : Image) (rest : list Image) (y x : Z) (bg : Color) (sm : ScaleMode)
    (Hdecode : DecodeAll reader = inl gifImage)
    (Himages : gif_Image gifImage = first :: rest)
    (Hdelays : (length (gif_Image gifImage) <= length (gif_Delay gifImage))%nat)
    (Hsm : known sm)
    (HyMin : 0 <= minY (scale_known Resize Fill Fit sm (drawOver (NewRGBA first) first) x y))
    (HxMin : 0 <= minX (scale_known Resize Fill Fit sm (drawOver (NewRGBA first) first) x y))
    (Hh : 2 <= maxY (scale_known Resize Fill Fit sm (drawOver (NewRGBA first) first) x y))
    (Heven : Z.rem (maxY (scale_known Resize Fill Fit sm (drawOver (NewRGBA first) first) x y)) 2 = 0)
    (Hw : 2 <= maxX (scale_known Resize Fill Fit sm (drawOver (NewRGBA first) first) x y)) :
  let img0 := scale_known Resize Fill Fit sm (drawOver (NewRGBA first) first) x y in
  let frames := scaled_frames drawOver Resize Fill Fit sm x y (NewRGBA first)
                  (gif_Image gifImage) in
  exists ai,
    NewScaledFromReader drawOverUniform drawSrc MakeColor Hsv_v NewRGBA drawOver
      Resize Fill Fit Reader DecodeAll reader y x bg sm NoDithering
    = Return (Some ai, None) /\
    Height ai = maxY img0 /\ Width ai = maxX img0 /\
    FrameCount ai = Z.of_nat (length (gif_Image gifImage)) /\
    forall f, 0 <= f < FrameCount ai ->
      FrameDelay ai f = Return (nth (Z.to_nat f) (gif_Delay gifImage) 0) /\
      forall y' x', 0 <= y' < maxY img0 -> 0 <= x' < maxX img0 ->
        GetAt ai f y' x'
        = Return (Some (if (minY img0 <=? y') && (minX img0 <=? x')
                        then copied (At (rgba_of bg (nth (Z.to_nat f) frames img0)) x' y') y'
                        else zero_cell NoDithering y'),
                  None).
Proof.
  intros img0 frames.
  destruct (scaled_fold_delays gifImage y x sm (gif_Image gifImage) Hsm 0
              (NewRGBA first) [] (replicate (length (gif_Delay gifImage)) 0))
    as (img' & pdelay' & E & Hl' & Hag').
  { lia. } { lia. } { apply length_replicate. } { intros f Hf. lia. }
  assert (Hframes : frames = img0 :: scaled_frames drawOver Resize Fill Fit sm x y
                                    (drawOver (NewRGBA first) first) rest).
  { unfold frames. rewrite Himages. reflexivity. }
  assert (Hlenf : length frames = length (gif_Image gifImage)).
  { unfold frames. apply scaled_frames_length. }
  destruct (createANSImage_copies drawOverUniform drawSrc MakeColor Hsv_v
              (mkGifProxy frames pdelay') bg img0
              (scaled_frames drawOver Resize Fill Fit sm x y
                 (drawOver (NewRGBA first) first) rest))
    as (ai & Ec & Hha & Hwa & HFC & Hfr); try assumption.
  { cbn [gp_image gp_delay]. rewrite Hlenf, Hl'. exact Hdelays. }
  cbn [gp_image gp_delay] in HFC, Hfr. rewrite Hlenf in HFC.
  exists ai. split.
  - unfold NewScaledFromReader. rewrite Hdecode.
    rewrite Himages at 1.
    change (index (first :: rest) 0) with (Return (A := Image) first).
    cbn [mbind outcome_bind]. unfold enumerate. rewrite E.
    cbn [mbind outcome_bind app]. exact Ec.
  - split; [exact Hha|]. split; [exact Hwa|]. split; [exact HFC|].
    intros f Hf. destruct (Hfr f Hf) as [Hd Hc]. split; [|exact Hc].
    rewrite Hd. f_equal. apply Hag'. lia.
Qed.

End FromReaderWithoutDithering.

Lemma NewScaledFromReader_builds_witness :
  exists ai,
    ex_NewScaledFromReader (Some gif1) 2 2 black ScaleModeFit NoDithering
    = Return (Some ai, None) /\
    FrameCount ai = 1 /\
    FrameDelay ai 0 = Return 10 /\
    GetAt ai 0 1 1 = Return (Some (copied (mkRGBA 100 150 200 255) 1), None).
Proof.
  destruct (NewScaledFromReader_builds ex_drawOverUniform ex_rgba
              colorful_MakeColor colorful_V ex_NewRGBA ex_drawOver
              ex_scale ex_scale ex_scale (option GIF) ex_DecodeAll
              (Some gif1) gif1 (uniform_image 4 4 (mkRGBA 100 150 200 255)) []
              2 2 black ScaleModeFit eq_refl eq_refl (le_n 1)
              (or_intror (or_intror eq_refl)))
    as (ai & E & _ & _ & HFC & Hframes); try (simpl; lia); [reflexivity|].
  exists ai. split; [exact E|]. split; [exact HFC|].
  destruct (Hframes 0 ltac:(rewrite HFC; simpl; lia)) as [Hd Hc].
  split; [exact Hd|].
  apply (Hc 1 1); simpl; lia.
Defined.

Section FromReaderOnePicture.

Variable drawOverUniform : Color -> Image -> Image.
Variable drawSrc : Image -> Image.
Variable MakeColor : RGBA -> FColor.
Variable Hsv_v : FColor -> f64.
Variable NewRGBA : Image -> Image.
Variable drawOver : Image -> Image -> Image.
Variable Reader : Type.
Variable DecodeAll : Reader -> GIF + error.

Local Abbreviation rgba_of := (composite drawOverUniform drawSrc).

(** The frame loop of [NewFromReader]: the buffer ends as all frames drawn
    one over the other, and the delays are those of the GIF. *)
Lemma drawn_fold (Delay : list Z)
    (F : Image * list Z -> Z * Image -> outcome (Image * list Z)) :
  (forall img pdelay f p,
     F (img, pdelay) (f, p)
     = (d ← index Delay f; pdelay' ← store pdelay f d;
        Return (drawOver img p, pdelay'))) ->
  forall l k img pdelay,
    0 <= k -> k + Z.of_nat (length l) <= Z.of_nat (length Delay) ->
    length pdelay = length Delay ->
    (forall f, 0 <= f < k ->
       nth (Z.to_nat f) pdelay 0 = nth (Z.to_nat f) Delay 0) ->
    exists pdelay',
      fold_outcome F (img, pdelay) (enumerate_from k l)
      = Return (fold_left drawOver l img, pdelay') /\
      length pdelay' = length Delay /\
      forall f, 0 <= f < k + Z.of_nat (length l) ->
        nth (Z.to_nat f) pdelay' 0 = nth (Z.to_nat f) Delay 0.
Proof.
  intros HF. induction l as [|a l IH]; intros k img pdelay Hk Hlen Hpd Hag.
  - exists pdelay. split; [reflexivity|]. split; [exact Hpd|].
    intros f Hf. apply Hag. simpl in Hf. lia.
  - cbn [enumerate_from fold_outcome length fold_left] in *. rewrite HF.
    destruct (index_in_range Delay k) as [d Ed]; [lia|].
    rewrite Ed. cbn [mbind outcome_bind].
    rewrite store_in_range by lia. cbn [mbind outcome_bind].
    destruct (IH (k + 1) (drawOver img a) (<[Z.to_nat k := d]> pdelay))
      as (pdelay' & E & Hl' & Hag').
    + lia.
    + lia.
    + rewrite length_insert. exact Hpd.
    + apply nth_insert_agree; [lia | apply index_nth; exact Ed | exact Hag].
    + exists pdelay'. split; [exact E|]. split; [exact Hl'|].
      intros f Hf. apply Hag'. lia.
Qed.

(** [NewFromReader] draws every frame of the GIF over one buffer and
    stores that one buffer for every frame.  So without dithering (bounds
    of the buffer from (0, 0) or later to an even height of at least 2 and
    a width of at least 2) the image has one frame per frame of the GIF,
    each with its delay, and every frame shows the same picture: all the
    frames of the GIF drawn one over the other. *)
Theorem NewFromReader_one_picture (reader : Reader) (gifImage : GIF)
    (first : Image) (rest : list Image) (bg : Color)
    (Hdecode : DecodeAll reader = inl gifImage)
    (Himages : gif_Image gifImage = first :: rest)
    (Hdelays : (length (gif_Image gifImage) <= length (gif_Delay gifImage))%nat)
    (HyMin : 0 <= minY (fold_left drawOver (gif_Image gifImage) (NewRGBA first)))
    (HxMin : 0 <= minX (fold_left drawOver (gif_Image gifImage) (NewRGBA first)))
    (Hh : 2 <= maxY (fold_left drawOver (gif_Image gifImage) (NewRGBA first)))
    (Heven : Z.rem (maxY (fold_left drawOver (gif_Image gifImage) (NewRGBA first))) 2 = 0)
    (Hw : 2 <= maxX (fold_left drawOver (gif_Image gifImage) (NewRGBA first))) :
  let img := fold_left drawOver (gif_Image gifImage) (NewRGBA first) in
  exists ai,
    NewFromReader drawOverUniform drawSrc MakeColor Hsv_v NewRGBA drawOver
      Reader DecodeAll reader bg NoDithering
    = Return (Some ai, None) /\
    FrameCount ai = Z.of_nat (length (gif_Image gifImage)) /\
    forall f, 0 <= f < FrameCount ai ->
      FrameDelay ai f = Return (nth (Z.to_nat f) (gif_Delay gifImage) 0) /\
      forall y x, 0 <= y < maxY img -> 0 <= x < maxX img ->
        GetAt ai f y x
        = Return (Some (if (minY img <=? y) && (minX img <=? x)
                        then copied (At (rgba_of bg img) x y) y
                        else zero_cell NoDithering y),
                  None).
Proof.
  intros img.
  destruct (drawn_fold (gif_Delay gifImage)
              (fun '(img, pdelay) '(f, palettedImg) =>
                 d ← index (gif_Delay gifImage) f;
                 pdelay' ← store pdelay f d;
                 Return (drawOver img palettedImg, pdelay'))
              ltac:(intros; reflexivity)
              (gif_Image gifImage) 0 (NewRGBA first)
              (replicate (length (gif_Delay gifImage)) 0))
    as (pdelay' & E & Hl' & Hag').
  { lia. } { lia. } { apply length_replicate. } { intros f Hf. lia. }
  fold img in E.
  destruct (createANSImage_copies drawOverUniform drawSrc MakeColor Hsv_v
              (mkGifProxy (replicate (length (gif_Image gifImage)) img) pdelay')
              bg img (replicate (length rest) img))
    as (ai & Ec & Hha & Hwa & HFC & Hfr); try assumption.
  { cbn [gp_image]. rewrite Himages. reflexivity. }
  { cbn [gp_image gp_delay]. rewrite length_replicate, Hl'. exact Hdelays. }
  cbn [gp_image gp_delay] in HFC, Hfr. rewrite length_replicate in HFC.
  exists ai. split.
  - unfold NewFromReader. rewrite Hdecode.
    rewrite Himages at 1.
    change (index (first :: rest) 0) with (Return (A := Image) first).
    cbn [mbind outcome_bind]. unfold enumerate. rewrite E.
    cbn [mbind outcome_bind]. exact Ec.
  - split; [exact HFC|].
    intros f Hf. destruct (Hfr f Hf) as [Hd Hc]. split.
    + rewrite Hd. f_equal. apply Hag'. lia.
    + intros y x Hy Hx. rewrite (Hc y x Hy Hx).
      rewrite nth_replicate_same. reflexivity.
Qed.

End FromReaderOnePicture.

Lemma NewFromReader_one_picture_witness :
  exists ai,
    ex_NewFromReader
      (Some (mkGIF [uniform_image 2 2 (mkRGBA 9 9 9 255);
                    uniform_image 2 2 (mkRGBA 1 2 3 255)] [5; 6]))
      black NoDithering
    = Return (Some ai, None) /\
    FrameCount ai = 2 /\
    GetAt ai 0 0 0 = Return (Some (copied (mkRGBA 1 2 3 255) 0), None) /\
    GetAt ai 1 0 0 = Return (Some (copied (mkRGBA 1 2 3 255) 0), None).
Proof.
  destruct (NewFromReader_one_picture ex_drawOverUniform ex_rgba
              colorful_MakeColor colorful_V ex_NewRGBA ex_drawOver
              (option GIF) ex_DecodeAll
              (Some (mkGIF [uniform_image 2 2 (mkRGBA 9 9 9 255);
                            uniform_image 2 2 (mkRGBA 1 2 3 255)] [5; 6]))
              (mkGIF [uniform_image 2 2 (mkRGBA 9 9 9 255);
                      uniform_image 2 2 (mkRGBA 1 2 3 255)] [5; 6])
              (uniform_image 2 2 (mkRGBA 9 9 9 255))
              [uniform_image 2 2 (mkRGBA 1 2 3 255)] black
              eq_refl eq_refl (le_n 2))
    as (ai & E & HFC & Hframes); try (simpl; lia); [reflexivity|].
  exists ai. split; [exact E|]. split; [exact HFC|].
  destruct (Hframes 0 ltac:(rewrite HFC; simpl; lia)) as [_ Hc0].
  destruct (Hframes 1 ltac:(rewrite HFC; simpl; lia)) as [_ Hc1].
  split; [apply (Hc0 0 0) | apply (Hc1 0 0)]; simpl; lia.
Defined.

(** ** The shape of a reachable image *)

(** In every reachable image there is one delay per frame; [GetAt]
    returns a cell exactly for a frame index inside [0, FrameCount()) and
    a coordinate inside the grid; and a [SetAt] that returns changes
    neither the number of frames, nor the height and width, nor the
    delays, nor the number of workers. *)
Theorem shape_invariant (ai : ANSImage) (Hreach : reachable ai) :
  length (delay ai) = length (frame ai) /\
  (forall f y x,
     (exists p, GetAt ai f y x = Return (Some p, None)) <->
     (0 <= f < FrameCount ai /\ 0 <= y < Height ai /\ 0 <= x < Width ai)) /\
  (forall f y x r g b brightness ai' e,
     SetAt ai f y x r g b brightness = Return (ai', e) ->
     FrameCount ai' = FrameCount ai /\ Height ai' = Height ai /\
     Width ai' = Width ai /\ delay ai' = delay ai /\
     GetMaxProcs ai' = GetMaxProcs ai).
Proof.
  pose proof (reachable_wf ai Hreach) as Hwf. split; [exact (proj2 Hwf)|]. split.
  - intros f y x. unfold Height, Width. split.
    + intros [p Hp]. destruct (in_grid ai y x) eqn:Eg.
      * apply in_grid_true in Eg as [Hy Hx].
        rewrite GetAt_inside in Hp by assumption.
        destruct (cell ai f y x) as [q| |] eqn:Ec; try discriminate.
        apply cell_Return in Ec as (fr & row & Hf & _ & _ & Efr & _).
        apply lookup_lt_Some in Efr. unfold FrameCount. lia.
      * apply in_grid_false in Eg. rewrite GetAt_outside in Hp by exact Eg.
        discriminate.
    + intros (Hf & Hy & Hx).
      destruct (wf_cell_total ai f y x Hwf Hf Hy Hx) as [p Hp].
      rewrite GetAt_inside by assumption. rewrite Hp. simpl. eauto.
  - intros f y x r g b br ai' e HS. unfold Height, Width, GetMaxProcs.
    destruct (SetAt_Return _ _ _ _ _ _ _ _ _ _ Hwf HS)
      as [(-> & _) | (-> & Hf & Hy & Hx)]; [tauto|].
    destruct (SetAt_inside ai f y x r g b br Hwf Hf Hy Hx)
      as (a & E & _ & Hh & Hw & _ & Hm & Hd & _ & _ & _ & HFC & _).
    rewrite E in HS. injection HS as <-. tauto.
Qed.

Lemma shape_invariant_witness :
  length (delay img22w) = length (frame img22w) /\
  (exists p, GetAt img22w 0 1 1 = Return (Some p, None)) /\
  FrameCount (written img22w (SetAt img22w 0 0 0 1 2 3 4)) = FrameCount img22w.
Proof.
  destruct (shape_invariant img22w img22w_reachable) as (Hlen & Hget & Hset).
  split; [exact Hlen|]. split.
  - apply (proj2 (Hget 0 1 1)). vm_compute. intuition discriminate.
  - apply (Hset 0 0 0 1 2 3 4 (written img22w (SetAt img22w 0 0 0 1 2 3 4)) None).
    reflexivity.
Defined.
